(** * screenshout: the screenshot renamer (src/renamer.py)

    A shallow embedding of the filename sanitizer, the unique-path
    resolver, the rename pipeline, the directory watcher and the batch
    driver of [renamer.py], and the properties its specification states
    about them.

    Conventions.
    - A Python [str] is a list of Unicode code points ([list N]).
    - A Python [int] is a [Z]; a loop counter that only grows from 1 is an [N].
    - A call that may raise returns a [result].
    - The filesystem is a finite map from paths to directory entries; the
      state of the program is the filesystem and the list of the actions
      taken so far. What [print] writes to the console is left out.
      Two paths never share a file: symbolic links and hard links are
      not modelled.
    - A status test or a listing that the system can refuse with an
      [OSError] has its own outcome in the definitions named [_os] and
      in [process_existing]; [get_unique_path] and [rename_screenshot]
      are the case where nothing is refused. *)

From Stdlib Require Import ZArith NArith List Bool Lia String Ascii.
From Stdlib Require Import DecimalString DecimalN DecimalFacts ZifyBool.
From stdpp Require Import base option list gmap sets.
Import ListNotations.

Local Open Scope Z_scope.

#[local] Set Default Proof Using "Type".

(* ===================================================================== *)
(** * Python strings *)
(* ===================================================================== *)

Abbreviation char := N (only parsing).
Abbreviation str := (list N) (only parsing).

(** The code point of an ASCII character and the [str] of an ASCII literal. *)
Definition ch (a : ascii) : char := N_of_ascii a.

Fixpoint lit (s : string) : str :=
  match s with
  | EmptyString => []
  | String a s' => ch a :: lit s'
  end.

(** [len(s)] as a Python int. *)
Definition len (s : str) : Z := Z.of_nat (length s).

Definition in_range (lo hi c : char) : bool := ((lo <=? c) && (c <=? hi))%N.

Definition is_ascii (c : char) : bool := (c <? 128)%N.

(** [str.isspace] on one code point, which is also what [\s] matches in a
    [str] pattern: CPython's [_PyUnicode_IsWhitespace]. *)
Definition is_space (c : char) : bool :=
  in_range 0x09 0x0D c || in_range 0x1C 0x20 c
  || (c =? 0x85)%N || (c =? 0xA0)%N || (c =? 0x1680)%N
  || in_range 0x2000 0x200A c
  || (c =? 0x2028)%N || (c =? 0x2029)%N || (c =? 0x202F)%N
  || (c =? 0x205F)%N || (c =? 0x3000)%N.

Definition is_upper_ascii (c : char) : bool := in_range 65 90 c.
Definition is_lower_ascii (c : char) : bool := in_range 97 122 c.
Definition is_digit_ascii (c : char) : bool := in_range 48 57 c.

Definition hyphen : char := 45.
Definition underscore : char := 95.
Definition dot : char := 46.
Definition is_hyphen (c : char) : bool := (c =? hyphen)%N.

(** The class [[a-z0-9]] and the class [[a-z0-9-]]. *)
Definition is_alnum (c : char) : bool := is_lower_ascii c || is_digit_ascii c.
Definition is_stem_char (c : char) : bool := is_alnum c || is_hyphen c.

Definition ascii_lower (c : char) : char :=
  if is_upper_ascii c then (c + 32)%N else c.

Fixpoint drop_while (p : char -> bool) (s : str) : str :=
  match s with
  | [] => []
  | c :: s' => if p c then drop_while p s' else s
  end.

(** [s.strip()] and [s.strip(chars)]: drop the characters satisfying [p]
    from both ends. *)
Definition strip_with (p : char -> bool) (s : str) : str :=
  rev (drop_while p (rev (drop_while p s))).

Definition py_strip (s : str) : str := strip_with is_space s.

(** [s[:m]] for a Python int [m]: a negative bound counts from the end. *)
Definition py_slice_to (s : str) (m : Z) : str :=
  if m <? 0 then take (Z.to_nat (len s + m)) s else take (Z.to_nat m) s.

(** [s[i:]]. *)
Definition py_slice_from (s : str) (i : Z) : str :=
  if i <? 0 then drop (Z.to_nat (len s + i)) s else drop (Z.to_nat i) s.

(** [s.rfind(c)] for a one-character needle: the highest index, or -1. *)
Fixpoint py_rfind (c : char) (s : str) : Z :=
  match s with
  | [] => -1
  | x :: s' =>
      let i := py_rfind c s' in
      if 0 <=? i then i + 1 else if (x =? c)%N then 0 else -1
  end.

(** [s.rsplit(sep, 1)] for a one-character separator: at most one split,
    at the last occurrence. *)
Definition py_rsplit1 (sep : char) (s : str) : list str :=
  let i := py_rfind sep s in
  if i <? 0 then [s] else [py_slice_to s i; py_slice_from s (i + 1)].

(** [str(n)] for a non-negative int. *)
Definition py_str_of_N (n : N) : str :=
  lit (NilEmpty.string_of_uint (N.to_uint n)).

(* ===================================================================== *)
(** * Exceptions *)
(* ===================================================================== *)

Inductive exn := IndexError | OSError.

(** The outcome of a call: a value, a raised exception, or [OutOfFuel]
    when a [while True] loop was cut off by the bound of its model. *)
Inductive result (A : Type) :=
| Ok (a : A)
| Raise (e : exn)
| OutOfFuel.
Arguments Ok {A} a.
Arguments Raise {A} e.
Arguments OutOfFuel {A}.

#[global] Instance result_ret : MRet result := fun A a => Ok a.
#[global] Instance result_bind : MBind result := fun A B k r =>
  match r with
  | Ok a => k a
  | Raise e => Raise e
  | OutOfFuel => OutOfFuel
  end.

(** [l[0]]. *)
Definition py_index0 {A} (l : list A) : result A :=
  match l with
  | [] => Raise IndexError
  | x :: _ => Ok x
  end.

(* ===================================================================== *)
(** * The regular expressions of [renamer.py] *)
(* ===================================================================== *)

(** [re.sub(p+, rep, t)] for a character class [p]: every maximal run of
    characters of the class is replaced by [rep].  [in_run] tells that the
    previous character belonged to the run being replaced. *)
Fixpoint re_sub_runs (p : char -> bool) (rep : str) (in_run : bool) (t : str) : str :=
  match t with
  | [] => []
  | c :: t' =>
      if p c then (if in_run then [] else rep) ++ re_sub_runs p rep true t'
      else c :: re_sub_runs p rep false t'
  end.

(** [re.sub(p, '', t)] for a character class [p]. *)
Definition re_delete (p : char -> bool) (t : str) : str :=
  List.filter (fun c => negb (p c)) t.

Definition is_quote (c : char) : bool :=
  (c =? 34)%N || (c =? 39)%N || (c =? 96)%N.

(** The second alternative of [^["'`]|["'`]$] on the text after position 0:
    a quote that is the last character, or the last one before a final
    newline ([$] without MULTILINE matches there too). *)
Definition drop_final_quote (t : str) : str :=
  match rev t with
  | c :: r =>
      if is_quote c then rev r
      else match r with
           | q :: r' => if (c =? 10)%N && is_quote q then rev (c :: r') else t
           | [] => t
           end
  | [] => t
  end.

(** [re.sub(r'^["\'`]|["\'`]$', '', t)]. *)
Definition re_sub_quotes (t : str) : str :=
  match t with
  | c :: t' => if is_quote c then drop_final_quote t' else c :: drop_final_quote t'
  | [] => []
  end.

(** One literal pattern character under [re.IGNORECASE] on a [str]
    pattern: the subject character matches when its simple lowercase is
    the pattern character or one of its case fixes (dotless i for [i],
    long s for [s]). *)
Definition imatch_char (pc c : char) : bool :=
  (c =? pc)%N
  || (is_lower_ascii pc && (c + 32 =? pc)%N)
  || ((pc =? 105)%N && ((c =? 0x130)%N || (c =? 0x131)%N))
  || ((pc =? 115)%N && (c =? 0x17F)%N).

(** Matching a literal at the start of the text, case-insensitively:
    the rest of the text after the literal. *)
Fixpoint imatch_prefix (pat t : str) : option str :=
  match pat, t with
  | [], _ => Some t
  | pc :: pat', c :: t' => if imatch_char pc c then imatch_prefix pat' t' else None
  | _ :: _, [] => None
  end.

Definition boilerplate : list str :=
  [lit "filename:"; lit "description:"; lit "here is"; lit "the filename is"].

(** The first alternative that matches at the start, in the order of the
    pattern. *)
Fixpoint first_alternative (alts : list str) (t : str) : option str :=
  match alts with
  | [] => None
  | a :: alts' =>
      match imatch_prefix a t with
      | Some rest => Some rest
      | None => first_alternative alts' t
      end
  end.

(** [re.sub(r'^(filename:|description:|here is|the filename is)\s*', '', t,
    flags=re.IGNORECASE)]: the pattern is anchored, so it is replaced at
    most once. *)
Definition re_sub_boilerplate (t : str) : str :=
  match first_alternative boilerplate t with
  | Some rest => drop_while is_space rest
  | None => t
  end.

(** The regular expressions the specification uses to describe results:
    character classes, concatenation and iteration, with the usual
    matching of a whole string. *)
Inductive regex :=
| Class (p : char -> bool)
| Cat (r1 r2 : regex)
| Star (r : regex).

Inductive matches : regex -> str -> Prop :=
| MClass p c : p c = true -> matches (Class p) [c]
| MCat r1 r2 s1 s2 : matches r1 s1 -> matches r2 s2 -> matches (Cat r1 r2) (s1 ++ s2)
| MStarNil r : matches (Star r) []
| MStarApp r s1 s2 : matches r s1 -> matches (Star r) s2 -> matches (Star r) (s1 ++ s2).

Definition Plus (r : regex) : regex := Cat r (Star r).

(** [^[a-z0-9]+(-[a-z0-9]+)*$]. *)
Definition stem_re : regex :=
  Cat (Plus (Class is_alnum)) (Star (Cat (Class is_hyphen) (Plus (Class is_alnum)))).

(* ===================================================================== *)
(** * The program *)
(* ===================================================================== *)

Section Renamer.

(** [str.lower] on a text with a non-ASCII code point and [\d] on a
    non-ASCII code point consult the Unicode character database, which is
    not part of the program: both tables are parameters of the
    development. *)
Variable unicode_lower : str -> str.
Variable unicode_decimal : char -> bool.

(** ** Filename sanitizer *)

(** [text.lower()]: CPython lowers an all-ASCII text byte by byte and
    any other text through the Unicode tables. *)
Definition py_lower (s : str) : str :=
  if forallb is_ascii s then map ascii_lower s else unicode_lower s.

(** The text after the steps before truncation (lines 53 to 69). *)
Definition sanitize_steps (text : str) : str :=
  (* Lowercase and strip *)
  let text := py_strip (py_lower text) in
  (* Remove quotes and common prefixes AI might add *)
  let text := re_sub_quotes text in
  let text := re_sub_boilerplate text in
  (* Replace spaces and underscores with hyphens *)
  let text := re_sub_runs (fun c => is_space c || (c =? underscore)%N) [hyphen] false text in
  (* Keep only alphanumeric and hyphens *)
  let text := re_delete (fun c => negb (is_stem_char c)) text in
  (* Collapse multiple hyphens *)
  let text := re_sub_runs is_hyphen [hyphen] false text in
  (* Remove leading/trailing hyphens *)
  strip_with is_hyphen text.

(** [text[:max_length].rsplit('-', 1)[0]] when the text is too long. *)
Definition truncate (text : str) (max_length : Z) : result str :=
  if len text >? max_length
  then py_index0 (py_rsplit1 hyphen (py_slice_to text max_length))
  else Ok text.

Definition fallback : str := lit "screenshot".

(** [text or 'screenshot']. *)
Definition or_fallback (text : str) : str :=
  match text with
  | [] => fallback
  | _ :: _ => text
  end.

Definition sanitize_filename (text : str) (max_length : Z) : result str :=
  text ← truncate (sanitize_steps text) max_length;
  mret (or_fallback text).

Definition default_max_length : Z := 60.

(** ** Paths and the filesystem *)

(** A [pathlib] path of the POSIX flavour: whether it is anchored at the
    root, and its components. *)
Record Path := { absolute : bool; parts : list str }.

#[global] Instance Path_eq_dec : EqDecision Path.
Proof. solve_decision. Defined.

#[global] Instance Path_countable : Countable Path :=
  inj_countable' (fun p => (absolute p, parts p))
                 (fun x => {| absolute := x.1; parts := x.2 |})
                 (fun p => match p with Build_Path _ _ => eq_refl end).

(** [p.name]: the final component, [''] when there is none. *)
Definition name (p : Path) : str := List.last (parts p) [].

(** [p.parent]: a path without components is its own parent. *)
Definition parent (p : Path) : Path :=
  {| absolute := absolute p; parts := removelast (parts p) |}.

(** [p / s] for a string [s] that is one component (not empty, not ['.'],
    without a separator), as the names built by this program are (see
    [numbered_component] and [dated_name_component]). *)
Definition joinpath (p : Path) (s : str) : Path :=
  {| absolute := absolute p; parts := parts p ++ [s] |}.

(** [p.suffix] and [p.stem], as PurePath defines them (up to Python 3.13)
    from [i = name.rfind('.')] and the test [0 < i < len(name) - 1]: a
    leading dot and a trailing dot do not start a suffix. *)
Definition has_suffix (name : str) : bool :=
  let i := py_rfind dot name in (0 <? i) && (i <? len name - 1).

Definition suffix (p : Path) : str :=
  if has_suffix (name p) then py_slice_from (name p) (py_rfind dot (name p)) else [].

Definition stem (p : Path) : str :=
  if has_suffix (name p) then py_slice_to (name p) (py_rfind dot (name p)) else name p.

Fixpoint join_parts (ps : list str) : str :=
  match ps with
  | [] => []
  | [x] => x
  | x :: ps' => x ++ ch "/" :: join_parts ps'
  end.

(** [str(p)]. *)
Definition path_str (p : Path) : str :=
  match absolute p, parts p with
  | false, [] => [dot]
  | false, ps => join_parts ps
  | true, ps => ch "/" :: join_parts ps
  end.

Inductive kind := Regular | Directory.

#[global] Instance kind_eq_dec : EqDecision kind.
Proof. solve_decision. Defined.

(** A directory entry: its kind, its bytes and its Finder comment (the
    [com.apple.metadata:kMDItemFinderComment] extended attribute). *)
Record Entry := { entry_kind : kind; content : list N; finder_comment : option str }.

Abbreviation FS := (gmap Path Entry) (only parsing).

(** [p.exists()]. *)
Definition path_exists (fs : FS) (p : Path) : bool :=
  bool_decide (is_Some (fs !! p)).

(** [p.is_file()]. *)
Definition is_file (fs : FS) (p : Path) : bool :=
  match fs !! p with
  | Some e => bool_decide (entry_kind e = Regular)
  | None => false
  end.

(** [folder.iterdir()]: the direct children, in the order the filesystem
    enumerates them. *)
Definition iterdir (fs : FS) (folder : Path) : list Path :=
  List.filter (fun p => bool_decide (parts p <> [] /\ parent p = folder))
              (map fst (map_to_list fs)).

(** [src.rename(dst)]: raises [OSError] when the source is missing or
    when the system refuses ([denied]: permissions and the like);
    otherwise the entry moves, replacing what was at the destination. *)
Definition os_rename (denied : bool) (fs : FS) (src dst : Path) : result FS :=
  match fs !! src with
  | None => Raise OSError
  | Some e => if denied then Raise OSError else Ok (<[dst := e]> (delete src fs))
  end.

(** ** Unique path resolver *)

(** [parent / f"{stem}-{counter}{suffix}"]. *)
Definition numbered (base_path : Path) (counter : N) : Path :=
  joinpath (parent base_path)
           (stem base_path ++ [hyphen] ++ py_str_of_N counter ++ suffix base_path).

(** The [while True] loop of [get_unique_path], cut off after [fuel]
    iterations. *)
Fixpoint unique_loop (fuel : nat) (fs : FS) (base_path : Path) (counter : N) : result Path :=
  match fuel with
  | O => OutOfFuel
  | S fuel' =>
      let new_path := numbered base_path counter in
      if negb (path_exists fs new_path) then Ok new_path
      else unique_loop fuel' fs base_path (counter + 1)%N
  end.

(** The filesystem holds [size fs] entries, so one of the first
    [size fs + 1] numbered names is free: that many iterations are enough
    (see [unique_loop_enough_fuel]). *)
Definition get_unique_path (fs : FS) (base_path : Path) : result Path :=
  if negb (path_exists fs base_path) then Ok base_path
  else unique_loop (S (size fs)) fs base_path 1%N.

(** ** Rename pipeline *)

(** What the inference collaborator does on one call: the request (or the
    image preparation before it) raises an [Exception], or the response
    carries a message content, which the client types as an optional
    string. *)
Inductive inference :=
| InferenceRaises
| InferenceReturns (content : option str).

(** [datetime.now()], as far as [strftime('%Y-%m-%d')] reads it. *)
Record Date := { year : N; month : N; day : N }.

(** A date the clock can read: [datetime] keeps the year up to MAXYEAR,
    and from the year 1000 on [%Y] has four digits under every C library
    (below, the zero padding differs between platforms). *)
Definition valid_date (d : Date) : bool :=
  ((1000 <=? year d) && (year d <=? 9999) && (1 <=? month d) && (month d <=? 12)
   && (1 <=? day d) && (day d <=? 31))%N.

(** What the world outside the program decides during one run of the
    pipeline: the collaborator's answer, the clock, whether the system
    refuses the rename, and whether the [xattr] command succeeds. *)
Record Env := { infer : inference; today : Date; rename_denied : bool; xattr_ok : bool }.

(** The observable actions of the program, in the order they happen. *)
Inductive effect :=
| Analyze (file_path : Path)
| Rename (src dst : Path)
| Xattr (file_path : Path) (comment : str)
| Add (key : str)
| Sleep.

Record World := { files : gmap Path Entry; effects : list effect }.

Definition emit (e : effect) (w : World) : World :=
  {| files := files w; effects := effects w ++ [e] |}.

Definition with_files (fs : FS) (w : World) : World :=
  {| files := fs; effects := effects w |}.

(** [s.zfill(width)]-style padding of a decimal field. *)
Definition zero_pad (width : nat) (s : str) : str :=
  replicate (width - length s)%nat (ch "0") ++ s.

(** [d.strftime('%Y-%m-%d')]. *)
Definition strftime_ymd (d : Date) : str :=
  zero_pad 4 (py_str_of_N (year d)) ++ [hyphen]
  ++ zero_pad 2 (py_str_of_N (month d)) ++ [hyphen]
  ++ zero_pad 2 (py_str_of_N (day d)).

(** [analyze_image]: any exception of the collaborator is caught and
    turned into the empty description. *)
Definition analyze_image (env : Env) (image_path : Path) (w : World)
  : option str * World :=
  let w := emit (Analyze image_path) w in
  match infer env with
  | InferenceReturns content => (content, w)
  | InferenceRaises => (Some [], w)
  end.

(** [not description]. *)
Definition falsy (description : option str) : bool :=
  match description with
  | None | Some [] => true
  | Some (_ :: _) => false
  end.

Definition text_of (description : option str) : str := default [] description.

Definition set_comment (comment : str) (e : Entry) : Entry :=
  {| entry_kind := entry_kind e; content := content e; finder_comment := Some comment |}.

(** [set_finder_comment]: nothing for an empty comment; otherwise the
    [xattr] command is run, and its failure is swallowed. *)
Definition set_finder_comment (env : Env) (file_path : Path) (comment : str) (w : World)
  : World :=
  match comment with
  | [] => w
  | _ :: _ =>
      let w := emit (Xattr file_path comment) w in
      if xattr_ok env then with_files (alter (set_comment comment) file_path (files w)) w
      else w
  end.

(** Lines 182 to 189: the sanitized name, the dated file name and the
    unique target path. *)
Definition target_path (env : Env) (file_path : Path) (description : str) (fs : FS)
  : result Path :=
  clean_name ← sanitize_filename description default_max_length;
  let date_str := strftime_ymd (today env) in
  let new_name := date_str ++ [underscore] ++ clean_name ++ py_lower (suffix file_path) in
  get_unique_path fs (joinpath (parent file_path) new_name).

Definition rename_screenshot (env : Env) (file_path : Path) (dry_run : bool) (w : World)
  : result (bool * World) :=
  (* Get AI description *)
  let '(description, w) := analyze_image env file_path w in
  if falsy description then Ok (false, w)
  else
    let description := text_of description in
    new_path ← target_path env file_path description (files w);
    if dry_run then Ok (true, w)
    else
      (* Rename the file *)
      match os_rename (rename_denied env) (files w) file_path new_path with
      | Ok fs' =>
          let w := with_files fs' (emit (Rename file_path new_path) w) in
          (* Add the original description as metadata *)
          Ok (true, set_finder_comment env new_path description w)
      | Raise OSError => Ok (false, w)
      | Raise e => Raise e
      | OutOfFuel => OutOfFuel
      end.

(** ** Directory watcher and batch driver *)

Definition IMAGE_EXTENSIONS : list str :=
  [lit ".png"; lit ".jpg"; lit ".jpeg"; lit ".webp"; lit ".gif"; lit ".bmp"].

Definition is_image (p : Path) : bool :=
  bool_decide (py_lower (suffix p) ∈ IMAGE_EXTENSIONS).

(** [\d] in a [str] pattern: a Unicode decimal digit. *)
Definition is_digit (c : char) : bool :=
  if is_ascii c then is_digit_ascii c else unicode_decimal c.

(** [re.match] of a sequence of one-character classes at the start. *)
Fixpoint match_classes (classes : list (char -> bool)) (t : str) : bool :=
  match classes, t with
  | [], _ => true
  | cl :: classes', c :: t' => cl c && match_classes classes' t'
  | _ :: _, [] => false
  end.

(** [re.match(r'^\d{4}-\d{2}-\d{2}_', s)] as a truth value. *)
Definition looks_processed (s : str) : bool :=
  let d := is_digit in
  let eq c := fun x : char => (x =? c)%N in
  match_classes [d; d; d; d; eq hyphen; d; d; eq hyphen; d; d; eq underscore] s.

(** The handler's own state: the set of path strings already seen. *)
Record Handler := { processed : gset str }.

(** What the world decides during one run of [handle_file]: what other
    processes do to the directory during the debounce wait, and the
    environment of the pipeline. *)
Record WatchEnv := { during_sleep : gmap Path Entry -> gmap Path Entry; pipeline_env : Env }.

Definition handle_file (wenv : WatchEnv) (file_path : Path) (st : Handler * World)
  : result (Handler * World) :=
  let '(self, w) := st in
  (* Check if it's an image *)
  if negb (is_image file_path) then Ok (self, w)
  (* Avoid processing the same file twice *)
  else if bool_decide (path_str file_path ∈ processed self) then Ok (self, w)
  (* Skip files that look already processed (date prefix) *)
  else if looks_processed (name file_path) then Ok (self, w)
  else
    let self := {| processed := {[ path_str file_path ]} ∪ processed self |} in
    let w := emit (Add (path_str file_path)) w in
    (* Wait for file to be fully written *)
    let w := with_files (during_sleep wenv (files w)) (emit Sleep w) in
    (* Verify file still exists (might have been moved/deleted) *)
    if negb (path_exists (files w) file_path) then Ok (self, w)
    else
      r ← rename_screenshot (pipeline_env wenv) file_path false w;
      Ok (self, r.2).

(** A filesystem event of the observer: whether it is about a directory,
    and [Path(event.src_path)]. *)
Record Event := { is_directory : bool; src_path : Path }.

Definition on_created (wenv : WatchEnv) (event : Event) (st : Handler * World)
  : result (Handler * World) :=
  if is_directory event then Ok st else handle_file wenv (src_path event) st.

Definition on_modified (wenv : WatchEnv) (event : Event) (st : Handler * World)
  : result (Handler * World) :=
  if is_directory event then Ok st else handle_file wenv (src_path event) st.

(** A watch session: the handler starts with an empty set and receives the
    events one after the other. *)
Fixpoint run_session (events : list (WatchEnv * Path)) (st : Handler * World)
  : result (Handler * World) :=
  match events with
  | [] => Ok st
  | (wenv, file_path) :: events' =>
      st' ← handle_file wenv file_path st;
      run_session events' st'
  end.

(** The list comprehension of [process_existing], for a folder that can
    be listed. *)
Definition list_images (fs : FS) (folder : Path) : list Path :=
  List.filter (fun f => is_file fs f && is_image f && negb (looks_processed (name f)))
              (iterdir fs folder).

(** ** When the system refuses a test *)

(** [p.exists()] and [p.is_file()] ask the system for the status of [p],
    and [folder.iterdir()] asks it for the listing of [folder]. Up to
    Python 3.13 an [OSError] of these calls other than "no such file or
    directory" is raised again: a name longer than the system allows, a
    directory that may not be searched. [refused p] tells that the system
    answers so for [p]. The calls of lines 108, 118, 189 and 280 to 281
    stand in no [try], so the exception leaves the function.

    The definitions below are [get_unique_path] and [rename_screenshot]
    with these refusals, and [process_existing], which runs them.
    [rename_screenshot_os] and [process_existing] give their outcome
    together with the state they have reached, so that what was done
    before an exception can be read. [get_unique_path] and
    [rename_screenshot] above are the case where nothing is refused (see
    [get_unique_path_os_unrefused] and [rename_screenshot_os_unrefused]). *)
Definition exists_os (refused : Path -> bool) (fs : FS) (p : Path) : result bool :=
  if refused p then Raise OSError else Ok (path_exists fs p).

Definition is_file_os (refused : Path -> bool) (fs : FS) (p : Path) : result bool :=
  if refused p then Raise OSError else Ok (is_file fs p).

(** [folder.iterdir()] raises [FileNotFoundError] for a missing folder and
    [NotADirectoryError] for a file, both of them [OSError]s. *)
Definition iterdir_os (refused : Path -> bool) (fs : FS) (folder : Path)
  : result (list Path) :=
  if refused folder then Raise OSError
  else match fs !! folder with
       | Some e =>
           if bool_decide (entry_kind e = Directory) then Ok (iterdir fs folder)
           else Raise OSError
       | None => Raise OSError
       end.

Fixpoint unique_loop_os (fuel : nat) (refused : Path -> bool) (fs : FS) (base_path : Path)
    (counter : N) : result Path :=
  match fuel with
  | O => OutOfFuel
  | S fuel' =>
      let new_path := numbered base_path counter in
      found ← exists_os refused fs new_path;
      if negb found then Ok new_path
      else unique_loop_os fuel' refused fs base_path (counter + 1)%N
  end.

Definition get_unique_path_os (refused : Path -> bool) (fs : FS) (base_path : Path)
  : result Path :=
  found ← exists_os refused fs base_path;
  if negb found then Ok base_path
  else unique_loop_os (S (size fs)) refused fs base_path 1%N.

Definition target_path_os (refused : Path -> bool) (env : Env) (file_path : Path)
    (description : str) (fs : FS) : result Path :=
  clean_name ← sanitize_filename description default_max_length;
  let date_str := strftime_ymd (today env) in
  let new_name := date_str ++ [underscore] ++ clean_name ++ py_lower (suffix file_path) in
  get_unique_path_os refused fs (joinpath (parent file_path) new_name).

Definition rename_screenshot_os (refused : Path -> bool) (env : Env) (file_path : Path)
    (dry_run : bool) (w : World) : result bool * World :=
  (* Get AI description *)
  let '(description, w) := analyze_image env file_path w in
  if falsy description then (Ok false, w)
  else
    let description := text_of description in
    match target_path_os refused env file_path description (files w) with
    | Ok new_path =>
        if dry_run then (Ok true, w)
        else
          (* Rename the file *)
          match os_rename (rename_denied env) (files w) file_path new_path with
          | Ok fs' =>
              let w := with_files fs' (emit (Rename file_path new_path) w) in
              (* Add the original description as metadata *)
              (Ok true, set_finder_comment env new_path description w)
          | Raise OSError => (Ok false, w)
          | Raise e => (Raise e, w)
          | OutOfFuel => (OutOfFuel, w)
          end
    | Raise e => (Raise e, w)
    | OutOfFuel => (OutOfFuel, w)
    end.

(** The list comprehension of [process_existing]: the tests run on the
    children in order, and the first refusal ends it. *)
Fixpoint filter_images_os (refused : Path -> bool) (fs : FS) (children : list Path)
  : result (list Path) :=
  match children with
  | [] => Ok []
  | f :: children' =>
      file ← is_file_os refused fs f;
      images ← filter_images_os refused fs children';
      Ok (if file && is_image f && negb (looks_processed (name f)) then f :: images
          else images)
  end.

Definition list_images_os (refused : Path -> bool) (fs : FS) (folder : Path)
  : result (list Path) :=
  children ← iterdir_os refused fs folder;
  filter_images_os refused fs children.

Fixpoint process_each (refused : Path -> bool) (envs : Path -> Env) (images : list Path)
    (dry_run : bool) (w : World) : result unit * World :=
  match images with
  | [] => (Ok tt, w)
  | img :: images' =>
      match rename_screenshot_os refused (envs img) img dry_run w with
      | (Ok _, w) => process_each refused envs images' dry_run w
      | (Raise e, w) => (Raise e, w)
      | (OutOfFuel, w) => (OutOfFuel, w)
      end
  end.

Definition process_existing (refused : Path -> bool) (envs : Path -> Env) (folder : Path)
    (dry_run : bool) (w : World) : result unit * World :=
  match list_images_os refused (files w) folder with
  | Ok images => process_each refused envs images dry_run w
  | Raise e => (Raise e, w)
  | OutOfFuel => (OutOfFuel, w)
  end.

(* ===================================================================== *)
(** * Predicates of the statements *)
(* ===================================================================== *)

(** No two hyphens in a row. *)
Fixpoint no_double_hyphen (s : str) : bool :=
  match s with
  | c :: s' =>
      match s' with
      | c' :: _ => negb (is_hyphen c && is_hyphen c') && no_double_hyphen s'
      | [] => true
      end
  | [] => true
  end.

(** Only characters of [[a-z0-9-]], and hyphens one at a time. *)
Definition hyphenated (s : str) : Prop :=
  Forall (fun c => is_stem_char c = true) s /\ no_double_hyphen s = true.

(** The description of the specification's example:
    two spaces, [Here is the filename is: ], a double quote,
    [Slack DM_with John!!], a double quote, two spaces. *)
Definition slack_example : str :=
  lit "  Here is the filename is: " ++ [34%N] ++ lit "Slack DM_with John!!"
  ++ [34%N] ++ lit "  ".

(** The paths the pipeline was run on, in order: every run of
    [rename_screenshot] starts with exactly one [Analyze]. *)
Fixpoint invocations (es : list effect) : list Path :=
  match es with
  | [] => []
  | Analyze p :: es' => p :: invocations es'
  | _ :: es' => invocations es'
  end.

(** The three filters at the head of [handle_file]. *)
Definition passes_filters (self : Handler) (file_path : Path) : bool :=
  is_image file_path
  && negb (bool_decide (path_str file_path ∈ processed self))
  && negb (looks_processed (name file_path)).

(** What [joinpath] expects of the string it appends: one component, that
    is not empty, not the single dot, and without the separator. *)
Definition separator : char := ch "/".

Definition component (s : str) : Prop :=
  s <> [] /\ s <> [dot] /\ (separator ∉ s).

(** A path as [pathlib] builds it: every part is one component. *)
Definition wf_path (p : Path) : Prop := Forall component (parts p).

(** How a file name splits into stem and suffix, said without [rfind]:
    the suffix starts at the last dot when text stands on both sides of
    that dot, and is empty otherwise. *)
Inductive splits_name : str -> str -> str -> Prop :=
| split_at_dot (s x : str) :
    s <> [] -> x <> [] -> dot ∉ x -> splits_name (s ++ dot :: x) s (dot :: x)
| split_nowhere (n : str) :
    (forall s x, n = s ++ dot :: x -> dot ∉ x -> s = [] \/ x = []) -> splits_name n n [].

(** The two entry points of the handler, and the events of a session
    with the entry point each one arrives at. *)
Inductive entry_point := Created | Modified.

Definition dispatch (wenv : WatchEnv) (entry : entry_point) (event : Event)
    (st : Handler * World) : result (Handler * World) :=
  match entry with
  | Created => on_created wenv event st
  | Modified => on_modified wenv event st
  end.

Fixpoint run_events (calls : list (WatchEnv * entry_point * Event)) (st : Handler * World)
  : result (Handler * World) :=
  match calls with
  | [] => Ok st
  | (wenv, entry, event) :: calls' =>
      st' ← dispatch wenv entry event st;
      run_events calls' st'
  end.

(** A decimal field of a fixed width. *)
Definition fixed_digits (width : nat) (s : str) : bool :=
  (length s =? width)%nat && forallb is_digit_ascii s.

(** The description [rename_screenshot] works with. *)
Definition description_of (env : Env) : option str :=
  match infer env with
  | InferenceReturns content => content
  | InferenceRaises => Some []
  end.

(** What a session keeps true: the pipeline has run on pairwise different
    path strings, all of them in the set. *)
Definition session_invariant (st : Handler * World) : Prop :=
  NoDup (path_str <$> invocations (effects st.2))
  /\ forall q, q ∈ invocations (effects st.2) -> path_str q ∈ processed st.1.

(** The files after a rename of [file_path], whose entry was [e], to
    [new_path], with the comment written when [xattr] succeeds. *)
Definition moved (env : Env) (file_path new_path : Path) (comment : str) (e : Entry)
    (fs : gmap Path Entry) : gmap Path Entry :=
  let fs' := <[new_path := e]> (delete file_path fs) in
  if xattr_ok env then alter (set_comment comment) new_path fs' else fs'.

(** ** Data of the examples *)

(** Stand-ins for the two Unicode tables in the closed examples: their
    texts and names are ASCII, for which the tables are not consulted. *)
Definition ascii_only_lower : str -> str := fun s => s.
Definition ascii_only_decimal : char -> bool := fun _ => false.

Definition plain_file : Entry :=
  {| entry_kind := Regular; content := []; finder_comment := None |}.

Definition shot : Path :=
  {| absolute := false; parts := [lit "shots"; lit "shot.png"] |}.

Definition dated : Path :=
  {| absolute := false; parts := [lit "shots"; lit "2024-05-01_login-page.png"] |}.

(** A directory where the dated name and its [-1] variant are taken. *)
Definition taken_twice : gmap Path Entry :=
  <[ numbered dated 1 := plain_file ]> {[ dated := plain_file ]}.

(** A name that ends with a dot, and a directory that holds it. *)
Definition trailing_dot : Path := {| absolute := false; parts := [lit "foo."] |}.

Definition trailing_dot_taken : gmap Path Entry := {[ trailing_dot := plain_file ]}.

Definition may_first : Date := {| year := 2024; month := 5; day := 1 |}.

Definition answering (content : option str) : Env :=
  {| infer := InferenceReturns content; today := may_first;
     rename_denied := false; xattr_ok := true |}.

Definition failing : Env :=
  {| infer := InferenceRaises; today := may_first;
     rename_denied := false; xattr_ok := true |}.

Definition shots_world : World :=
  {| files := {[ shot := plain_file ]}; effects := [] |}.

(** The [-1] and the [-2] variant of the dated name, letter by letter. *)
Definition dated_1 : Path :=
  {| absolute := false; parts := [lit "shots"; lit "2024-05-01_login-page-1.png"] |}.

Definition dated_2 : Path :=
  {| absolute := false; parts := [lit "shots"; lit "2024-05-01_login-page-2.png"] |}.

(** A directory where the dated name and its [-1] variant are taken,
    under their literal names. *)
Definition login_pages : gmap Path Entry :=
  <[ dated_1 := plain_file ]> {[ dated := plain_file ]}.

Definition dated_3 : Path :=
  {| absolute := false; parts := [lit "shots"; lit "2024-05-01_login-page-3.png"] |}.

Definition nothing_refused : Path -> bool := fun _ => false.

(** A system whose file names have at most 255 characters: the status
    of a longer name is refused ([ENAMETOOLONG]). *)
Definition name_too_long (p : Path) : bool := 255 <? len (name p).

(** A file whose name has 252 characters, 251 of them its suffix, and
    the directory that holds it. *)
Definition long_suffix : Path :=
  {| absolute := false; parts := [lit "shots"; lit "a." ++ replicate 250 (ch "b")] |}.

Definition long_suffix_world : World :=
  {| files := {[ long_suffix := plain_file ]}; effects := [] |}.

(** The folder of the examples, and a state that holds it with a fresh
    screenshot and a dated file. *)
Definition shots : Path := {| absolute := false; parts := [lit "shots"] |}.

Definition batch_world : World :=
  {| files := {[ shots := {| entry_kind := Directory; content := []; finder_comment := None |};
                 shot := plain_file;
                 dated := plain_file ]};
     effects := [] |}.

(** A name of 256 characters, in a directory that holds no file. *)
Definition overlong : Path :=
  {| absolute := false; parts := [lit "shots"; replicate 256 (ch "b")] |}.

(** A name of 254 characters that is taken: its [-1] variant has 256. *)
Definition long_name : Path :=
  {| absolute := false; parts := [lit "shots"; replicate 254 (ch "b")] |}.

Definition long_name_taken : gmap Path Entry := {[ long_name := plain_file ]}.

(* ===================================================================== *)
(** * Facts about strings *)
(* ===================================================================== *)

Lemma len_nonneg (s : str) : 0 <= len s.
Proof. unfold len. lia. Qed.

Lemma len_app (s t : str) : len (s ++ t) = len s + len t.
Proof. unfold len. rewrite length_app. lia. Qed.

Lemma drop_while_suffix (p : char -> bool) (s : str) :
  exists pre, s = pre ++ drop_while p s /\ Forall (fun c => p c = true) pre.
Proof.
  induction s as [|c s IH]; simpl.
  - exists []. split; [reflexivity | constructor].
  - destruct (p c) eqn:Hc.
    + destruct IH as (pre & Heq & Hall). exists (c :: pre). split.
      * simpl. congruence.
      * constructor; assumption.
    + exists []. split; [reflexivity | constructor].
Qed.

Lemma drop_while_head (p : char -> bool) (s : str) (c : char) (r : str) :
  drop_while p s = c :: r -> p c = false.
Proof.
  induction s as [|x s IH]; simpl; [discriminate |].
  destruct (p x) eqn:Hx; [exact IH |].
  intros [= -> _]. exact Hx.
Qed.

(** [strip_with] keeps a contiguous piece of the text that neither starts
    nor ends with a stripped character. *)
Lemma strip_with_infix (p : char -> bool) (s : str) :
  exists pre post, s = pre ++ strip_with p s ++ post.
Proof.
  unfold strip_with.
  destruct (drop_while_suffix p s) as (pre & Hs & _).
  destruct (drop_while_suffix p (rev (drop_while p s))) as (post & Hr & _).
  exists pre, (rev post). rewrite <- rev_app_distr, <- Hr, rev_involutive. exact Hs.
Qed.

Lemma strip_with_head (p : char -> bool) (s : str) (c : char) (r : str) :
  strip_with p s = c :: r -> p c = false.
Proof.
  unfold strip_with. intros H.
  destruct (drop_while_suffix p (rev (drop_while p s))) as (post & Hr & _).
  apply (f_equal (@rev N)) in Hr. rewrite rev_involutive, rev_app_distr, H in Hr.
  simpl in Hr. eapply drop_while_head. exact Hr.
Qed.

Lemma strip_with_last (p : char -> bool) (s : str) (r : str) (c : char) :
  strip_with p s = r ++ [c] -> p c = false.
Proof.
  unfold strip_with. intros H.
  apply (f_equal (@rev N)) in H. rewrite rev_involutive, rev_app_distr in H.
  simpl in H. eapply drop_while_head. exact H.
Qed.

Lemma is_hyphen_eq (c : char) : is_hyphen c = true <-> c = hyphen.
Proof. unfold is_hyphen. apply N.eqb_eq. Qed.

Lemma is_hyphen_neq (c : char) : is_hyphen c = false <-> c <> hyphen.
Proof. unfold is_hyphen. apply N.eqb_neq. Qed.

Lemma alnum_not_hyphen (c : char) : is_alnum c = true -> is_hyphen c = false.
Proof.
  unfold is_alnum, is_lower_ascii, is_digit_ascii, in_range, is_hyphen, hyphen.
  intros H. apply N.eqb_neq. intros ->. vm_compute in H. discriminate.
Qed.

Lemma stem_char_cases (c : char) :
  is_stem_char c = true -> is_hyphen c = false -> is_alnum c = true.
Proof. unfold is_stem_char. intros H Hh. rewrite Hh, orb_false_r in H. exact H. Qed.

Lemma no_double_hyphen_app (a b : str) :
  no_double_hyphen (a ++ b) = true ->
  no_double_hyphen a = true /\ no_double_hyphen b = true.
Proof.
  induction a as [|c a IH]; [intros H; split; [reflexivity | exact H] |].
  cbn [app no_double_hyphen]. destruct a as [|c' a'].
  - cbn [app]. destruct b; [intros _; split; reflexivity |].
    intros [_ H]%andb_true_iff. split; [reflexivity | exact H].
  - cbn [app] in *. intros [H1 H2]%andb_true_iff.
    destruct (IH H2) as [Ha Hb]. split; [| exact Hb].
    apply andb_true_iff. split; assumption.
Qed.

Lemma hyphenated_app (a b : str) : hyphenated (a ++ b) -> hyphenated a /\ hyphenated b.
Proof.
  intros [Hall Hnd]. apply Forall_app in Hall as [Ha Hb].
  apply no_double_hyphen_app in Hnd as [Hda Hdb].
  split; split; assumption.
Qed.

Lemma hyphenated_take (n : nat) (s : str) : hyphenated s -> hyphenated (take n s).
Proof.
  intros H. rewrite <- (take_drop n s) in H. apply hyphenated_app in H as [H _]. exact H.
Qed.

(** ** Matching the stem pattern *)

Lemma matches_star_class (p : char -> bool) (w : str) :
  Forall (fun c => p c = true) w -> matches (Star (Class p)) w.
Proof.
  induction 1 as [|c w Hc _ IH]; [constructor |].
  change (c :: w) with ([c] ++ w). constructor; [constructor; exact Hc | exact IH].
Qed.

Lemma matches_plus_class (p : char -> bool) (w : str) :
  w <> [] -> Forall (fun c => p c = true) w -> matches (Plus (Class p)) w.
Proof.
  destruct w as [|c w]; [congruence |]. intros _ H.
  apply Forall_cons in H as [Hc Hw].
  change (c :: w) with ([c] ++ w). constructor; [constructor; exact Hc |].
  apply matches_star_class. exact Hw.
Qed.

(** A hyphenated text that does not end with a hyphen splits into a
    first word and a tail of hyphen-led words. *)
Lemma hyphenated_words (s : str) :
  hyphenated s -> last s <> Some hyphen ->
  (head s <> Some hyphen -> s <> [] ->
   exists w rest, s = w ++ rest /\ w <> [] /\ Forall (fun c => is_alnum c = true) w
     /\ matches (Star (Cat (Class is_hyphen) (Plus (Class is_alnum)))) rest)
  /\ (head s = Some hyphen ->
      matches (Star (Cat (Class is_hyphen) (Plus (Class is_alnum)))) s).
Proof.
  induction s as [|c s IH]; intros Hh Hlast.
  - split; [congruence | discriminate].
  - assert (Hs : hyphenated s).
    { change (c :: s) with ([c] ++ s) in Hh. apply hyphenated_app in Hh as [_ Hh]. exact Hh. }
    assert (Hc : is_stem_char c = true).
    { destruct Hh as [Hall _]. apply Forall_cons in Hall as [Hall _]. exact Hall. }
    assert (Hlast' : s <> [] -> last s <> Some hyphen).
    { intros Hne. destruct s; [congruence |]. exact Hlast. }
    split.
    + intros Hhead _. cbn in Hhead.
      assert (Hca : is_alnum c = true).
      { apply stem_char_cases; [exact Hc |]. apply is_hyphen_neq. congruence. }
      destruct s as [|c' s'].
      * exists [c], []. repeat split; [congruence | repeat constructor; exact Hca | constructor].
      * destruct (IH Hs (Hlast' ltac:(congruence))) as [IHa IHb].
        destruct (N.eq_dec c' hyphen) as [-> | Hne].
        -- exists [c], (hyphen :: s'). repeat split;
             [congruence | repeat constructor; exact Hca | apply IHb; reflexivity].
        -- destruct IHa as (w & rest & Heq & Hw & Hall & Hrest);
             [cbn; congruence | congruence |].
           exists (c :: w), rest. repeat split;
             [cbn; congruence | congruence | constructor; assumption | exact Hrest].
    + intros [= ->]. destruct s as [|c' s'].
      * exfalso. apply Hlast. reflexivity.
      * destruct (IH Hs (Hlast' ltac:(congruence))) as [IHa _].
        assert (Hc' : c' <> hyphen).
        { destruct Hh as [_ Hnd]. intros ->. cbn [no_double_hyphen] in Hnd.
          unfold is_hyphen in Hnd. rewrite N.eqb_refl in Hnd. discriminate. }
        destruct IHa as (w & rest & Heq & Hw & Hall & Hrest);
          [cbn; congruence | congruence |].
        rewrite Heq. change (hyphen :: w ++ rest) with ((([hyphen]) ++ w) ++ rest).
        constructor; [| exact Hrest].
        constructor; [constructor; reflexivity | apply matches_plus_class; assumption].
Qed.

Lemma hyphenated_matches (s : str) :
  hyphenated s -> s <> [] -> head s <> Some hyphen -> last s <> Some hyphen ->
  matches stem_re s.
Proof.
  intros Hh Hne Hhead Hlast.
  destruct (hyphenated_words s Hh Hlast) as [Ha _].
  destruct (Ha Hhead Hne) as (w & rest & -> & Hw & Hall & Hrest).
  constructor; [apply matches_plus_class; assumption | exact Hrest].
Qed.

(** ** [rfind], [rsplit] and slices *)

Lemma py_rfind_lower (c : char) (s : str) : -1 <= py_rfind c s.
Proof.
  induction s as [|x s IH]; cbn [py_rfind]; [lia |].
  destruct (0 <=? py_rfind c s) eqn:H; [apply Z.leb_le in H; lia |].
  destruct (x =? c)%N; lia.
Qed.

Lemma py_rfind_absent (c : char) (s : str) : py_rfind c s < 0 <-> (c ∉ s).
Proof.
  induction s as [|x s IH]; cbn [py_rfind].
  - split; [intros _; apply not_elem_of_nil | lia].
  - rewrite not_elem_of_cons. destruct (0 <=? py_rfind c s) eqn:H.
    + apply Z.leb_le in H. split; [lia | intros [_ Hs]; apply IH in Hs; lia].
    + apply Z.leb_gt in H. destruct (x =? c)%N eqn:Hx.
      * apply N.eqb_eq in Hx. split; [lia | intros [Hne _]; congruence].
      * apply N.eqb_neq in Hx. split; [intros _; split; [congruence | apply IH; exact H] | lia].
Qed.

(** A found index splits the text at the last occurrence. *)
Lemma py_rfind_split (c : char) (s : str) :
  0 <= py_rfind c s ->
  exists a b, s = a ++ c :: b /\ (c ∉ b) /\ len a = py_rfind c s.
Proof.
  induction s as [|x s IH]; cbn [py_rfind]; [lia |].
  destruct (0 <=? py_rfind c s) eqn:H.
  - apply Z.leb_le in H. intros _. destruct (IH H) as (a & b & -> & Hb & Hlen).
    exists (x :: a), b. repeat split; [exact Hb |]. unfold len in *. cbn [length]. lia.
  - apply Z.leb_gt in H. destruct (x =? c)%N eqn:Hx; [| lia].
    apply N.eqb_eq in Hx. subst x. intros _. exists [], s.
    repeat split. apply py_rfind_absent. exact H.
Qed.

Lemma len_take_drop (a : str) (c : char) (b : str) :
  take (Z.to_nat (len a)) (a ++ c :: b) = a
  /\ drop (Z.to_nat (len a + 1)) (a ++ c :: b) = b.
Proof.
  unfold len. split.
  - rewrite Nat2Z.id. rewrite take_app_length. reflexivity.
  - replace (Z.to_nat (Z.of_nat (length a) + 1)) with (length (a ++ [c])).
    + rewrite (cons_middle c a b), app_assoc. rewrite drop_app_length. reflexivity.
    + rewrite length_app. cbn. lia.
Qed.

(** [s.rsplit(c, 1)[0]] never raises: it is the whole text when [c] does
    not occur, and the part before the last [c] otherwise. *)
Lemma py_rsplit1_first (c : char) (s : str) :
  exists r, py_index0 (py_rsplit1 c s) = Ok r
    /\ (((c ∉ s) /\ r = s) \/ (exists b, s = r ++ c :: b /\ (c ∉ b))).
Proof.
  unfold py_rsplit1. destruct (py_rfind c s <? 0) eqn:H.
  - apply Z.ltb_lt in H. exists s. split; [reflexivity |]. left.
    split; [apply py_rfind_absent; exact H | reflexivity].
  - apply Z.ltb_ge in H. destruct (py_rfind_split c s H) as (a & b & Hs & Hb & Hlen).
    exists a. cbn [py_index0]. split.
    + f_equal. unfold py_slice_to. rewrite <- Hlen.
      destruct (len a <? 0) eqn:Hneg; [pose proof (len_nonneg a); apply Z.ltb_lt in Hneg; lia |].
      rewrite Hs. apply len_take_drop.
    + right. exists b. split; assumption.
Qed.

Lemma py_slice_to_take (s : str) (m : Z) : exists n, py_slice_to s m = take n s.
Proof. unfold py_slice_to. destruct (m <? 0); eauto. Qed.

Lemma py_slice_to_nonneg (s : str) (m : Z) :
  0 <= m -> py_slice_to s m = take (Z.to_nat m) s.
Proof. unfold py_slice_to. intros H. destruct (m <? 0) eqn:E; [apply Z.ltb_lt in E; lia | reflexivity]. Qed.

Lemma head_take_not (n : nat) (s : str) (c : char) :
  head s <> Some c -> head (take n s) <> Some c.
Proof. destruct n, s; cbn; congruence. Qed.

Lemma not_elem_last (s : str) (c : char) : c ∉ s -> last s <> Some c.
Proof.
  intros Hn Hl. apply Hn. apply last_Some in Hl as [l' ->].
  apply elem_of_app. right. apply list_elem_of_singleton. reflexivity.
Qed.

(** ** The shape of the sanitized text *)

Lemma re_delete_stem_chars (t : str) :
  Forall (fun c => is_stem_char c = true) (re_delete (fun c => negb (is_stem_char c)) t).
Proof.
  unfold re_delete. apply List.Forall_forall. intros c Hc.
  apply List.filter_In in Hc as [_ Hc]. rewrite negb_involutive in Hc. exact Hc.
Qed.

Lemma collapse_stem_chars (b : bool) (t : str) :
  Forall (fun c => is_stem_char c = true) t ->
  Forall (fun c => is_stem_char c = true) (re_sub_runs is_hyphen [hyphen] b t).
Proof.
  intros H. revert b. induction H as [|c t Hc _ IH]; intros b; cbn [re_sub_runs]; [constructor |].
  destruct (is_hyphen c).
  - destruct b; cbn [app]; [apply IH | constructor; [reflexivity | apply IH]].
  - constructor; [exact Hc | apply IH].
Qed.

Lemma collapse_no_double (b : bool) (t : str) :
  no_double_hyphen (re_sub_runs is_hyphen [hyphen] b t) = true
  /\ head (re_sub_runs is_hyphen [hyphen] true t) <> Some hyphen.
Proof.
  revert b. induction t as [|c t IH]; intros b; cbn [re_sub_runs].
  - split; [reflexivity | discriminate].
  - destruct (is_hyphen c) eqn:Hc.
    + destruct (IH true) as [Hnd Hhd]. split; [| exact Hhd].
      destruct b; cbn [app]; [exact Hnd |].
      destruct (re_sub_runs is_hyphen [hyphen] true t) as [|c' r] eqn:Hr; [reflexivity |].
      cbn [no_double_hyphen] in *. rewrite Hnd, andb_true_r.
      assert (Hc' : is_hyphen c' = false) by (apply is_hyphen_neq; cbn in Hhd; congruence).
      rewrite Hc', andb_false_r. reflexivity.
    + split; [| cbn; apply is_hyphen_neq in Hc; congruence].
      destruct (IH false) as [Hnd _].
      destruct (re_sub_runs is_hyphen [hyphen] false t) as [|c' r] eqn:Hr; [reflexivity |].
      cbn [no_double_hyphen] in *. rewrite Hnd, Hc. reflexivity.
Qed.

Lemma sanitize_steps_shape (text : str) :
  hyphenated (sanitize_steps text)
  /\ head (sanitize_steps text) <> Some hyphen
  /\ last (sanitize_steps text) <> Some hyphen.
Proof.
  unfold sanitize_steps.
  set (t5 := re_delete _ _).
  set (t6 := re_sub_runs is_hyphen [hyphen] false t5).
  assert (H6 : hyphenated t6).
  { split; [apply collapse_stem_chars, re_delete_stem_chars | apply collapse_no_double]. }
  destruct (strip_with_infix is_hyphen t6) as (pre & post & Heq).
  split; [| split].
  - rewrite Heq in H6. apply hyphenated_app in H6 as [_ H6].
    apply hyphenated_app in H6 as [H6 _]. exact H6.
  - destruct (strip_with is_hyphen t6) as [|c r] eqn:Hs; [discriminate |].
    apply strip_with_head in Hs. apply is_hyphen_neq in Hs. cbn. congruence.
  - intros Hl. apply last_Some in Hl as [l' Hl].
    apply strip_with_last in Hl. discriminate.
Qed.

(** The truncation step never raises; its result is a prefix of the text
    with the same shape. *)
Lemma truncate_shape (t : str) (max_length : Z) :
  hyphenated t -> head t <> Some hyphen -> last t <> Some hyphen ->
  exists r, truncate t max_length = Ok r
    /\ hyphenated r /\ head r <> Some hyphen /\ last r <> Some hyphen
    /\ (exists post, t = r ++ post)
    /\ (len t > max_length -> 0 <= max_length -> len r <= max_length).
Proof.
  intros Hh Hhead Hlast. unfold truncate.
  destruct (len t >? max_length) eqn:Hlen.
  - destruct (py_slice_to_take t max_length) as [n Hn].
    assert (Hp : hyphenated (take n t)) by (apply hyphenated_take; exact Hh).
    assert (Hph : head (take n t) <> Some hyphen) by (apply head_take_not; exact Hhead).
    assert (Hbound : 0 <= max_length -> len (py_slice_to t max_length) <= max_length).
    { intros H0. rewrite py_slice_to_nonneg by exact H0. unfold len.
      rewrite length_take. lia. }
    destruct (py_rsplit1_first hyphen (py_slice_to t max_length)) as (r & Hr & Hcase).
    exists r. split; [exact Hr |]. rewrite Hn in Hcase.
    destruct Hcase as [[Hno ->] | (b & Hsplit & Hb)].
    + rewrite Hn in *. repeat split; try assumption; try apply Hp.
      * apply not_elem_last. exact Hno.
      * exists (drop n t). symmetry. apply take_drop.
      * intros _ H0. apply Hbound. exact H0.
    + assert (Hr' : hyphenated r).
      { rewrite Hsplit in Hp. apply hyphenated_app in Hp as [Hp _]. exact Hp. }
      repeat split; try apply Hr'.
      * rewrite Hsplit in Hph. destruct r; [discriminate | exact Hph].
      * intros Hl. apply last_Some in Hl as [l' ->].
        rewrite Hsplit in Hp. rewrite <- app_assoc in Hp.
        apply hyphenated_app in Hp as [_ [_ Hnd]]. cbn in Hnd. discriminate.
      * exists (hyphen :: b ++ drop n t).
        rewrite <- (take_drop n t) at 1. rewrite Hsplit, <- app_assoc. reflexivity.
      * intros _ H0. specialize (Hbound H0). rewrite Hn, Hsplit, len_app in Hbound.
        pose proof (len_nonneg (hyphen :: b)). lia.
  - exists t. repeat split; try assumption; try apply Hh.
    + exists []. symmetry. apply app_nil_r.
    + intros H. rewrite Z.gtb_ltb in Hlen. apply Z.ltb_ge in Hlen. lia.
Qed.

(* ===================================================================== *)
(** * The sanitizer: claims C1, C4, C8, C9 *)
(* ===================================================================== *)

Lemma sanitize_filename_unfold (text : str) (max_length : Z) (r : str) :
  truncate (sanitize_steps text) max_length = Ok r ->
  sanitize_filename text max_length = Ok (or_fallback r).
Proof. unfold sanitize_filename. intros ->. reflexivity. Qed.

(** [sanitize_filename] returns, never the empty string, and only
    characters of [[a-z0-9-]]. *)
Lemma sanitize_filename_ok (text : str) (max_length : Z) :
  exists r, sanitize_filename text max_length = Ok r /\ r <> []
    /\ Forall (fun c => is_stem_char c = true) r.
Proof.
  destruct (sanitize_steps_shape text) as (Hh & Hhead & Hlast).
  destruct (truncate_shape _ max_length Hh Hhead Hlast) as (r & Hr & [Hall _] & _).
  exists (or_fallback r). split; [apply sanitize_filename_unfold; exact Hr |].
  destruct r as [|c r]; cbn [or_fallback].
  - split; [discriminate |].
    apply List.Forall_forall. apply (List.forallb_forall is_stem_char fallback). reflexivity.
  - split; [discriminate | exact Hall].
Qed.

(** C1. For every text and every [max_length], [sanitize_filename]
    returns (it does not raise), and what it returns is a non-empty string
    that matches [^[a-z0-9]+(-[a-z0-9]+)*$] or is the fallback
    ["screenshot"]. *)
Theorem sanitize_filename_valid (text : str) (max_length : Z) :
  exists r, sanitize_filename text max_length = Ok r
    /\ r <> [] /\ (matches stem_re r \/ r = fallback).
Proof.
  destruct (sanitize_steps_shape text) as (Hh & Hhead & Hlast).
  destruct (truncate_shape _ max_length Hh Hhead Hlast)
    as (r & Hr & Hrh & Hrhead & Hrlast & _).
  exists (or_fallback r). split; [apply sanitize_filename_unfold; exact Hr |].
  destruct r as [|c r]; cbn [or_fallback].
  - split; [discriminate | right; reflexivity].
  - split; [discriminate | left]. apply hyphenated_matches; [assumption | discriminate | assumption ..].
Qed.

(** C4, as the code has it. The boilerplate pattern is anchored at the
    start and removes one phrase only: of [Here is the filename is: ...]
    the phrase [here is] goes and [the filename is] stays. *)
Theorem sanitize_slack_example :
  sanitize_filename slack_example default_max_length
  = Ok (lit "the-filename-is-slack-dm-with-john").
Proof. vm_compute. reflexivity. Qed.

(** C8, as the code has it. For a [max_length] that is not negative the
    result is the fallback or has at most [max_length] characters; from
    [max_length] 10 on (the length of the fallback; the default is 60) it
    has at most [max_length] characters. *)
Theorem sanitize_filename_length (text : str) (max_length : Z) :
  0 <= max_length ->
  exists r, sanitize_filename text max_length = Ok r
    /\ (r = fallback \/ len r <= max_length)
    /\ (10 <= max_length -> len r <= max_length).
Proof.
  intros H0.
  destruct (sanitize_steps_shape text) as (Hh & Hhead & Hlast).
  destruct (truncate_shape _ max_length Hh Hhead Hlast)
    as (r & Hr & _ & _ & _ & (post & Hpost) & Hbound).
  exists (or_fallback r). split; [apply sanitize_filename_unfold; exact Hr |].
  assert (Hlen : r <> [] -> len r <= max_length).
  { intros _. destruct (Z.le_gt_cases (len (sanitize_steps text)) max_length) as [Hle | Hgt].
    - rewrite Hpost, len_app in Hle. pose proof (len_nonneg post). lia.
    - apply Hbound; lia. }
  destruct r as [|c r]; cbn [or_fallback].
  - split; [left; reflexivity | intros H10; change (len fallback) with 10; lia].
  - split; [right | intros _]; apply Hlen; discriminate.
Qed.

(** C9, as the code has it. When the text after the cleaning steps is
    longer than [max_length] and [max_length] is at least 1, the text is
    cut to its first [max_length] characters; without a hyphen in that
    cut the result is the cut itself, and otherwise the result is what
    precedes the last hyphen of the cut, which the full text continues
    with that hyphen, so that no word of the result is a split one: it
    is the longest run of whole leading words that has fewer than
    [max_length] characters. *)
Theorem truncate_at_last_hyphen (text : str) (max_length : Z) :
  1 <= max_length ->
  len (sanitize_steps text) > max_length ->
  let t := sanitize_steps text in
  let cut := take (Z.to_nat max_length) t in
  ((hyphen ∉ cut) -> sanitize_filename text max_length = Ok cut)
  /\ ((hyphen ∈ cut) ->
      exists r w tail,
        cut = r ++ hyphen :: w /\ (hyphen ∉ w) /\ t = r ++ hyphen :: w ++ tail
        /\ r <> [] /\ sanitize_filename text max_length = Ok r
        /\ len r < max_length
        /\ (forall r' tail', t = r' ++ hyphen :: tail' -> len r' < max_length ->
            len r' <= len r)).
Proof.
  intros H1 Hlong t cut.
  destruct (sanitize_steps_shape text) as (Hh & Hhead & Hlast). fold t in Hh, Hhead, Hlast, Hlong.
  assert (Htr : truncate t max_length = py_index0 (py_rsplit1 hyphen cut)).
  { unfold truncate. replace (len t >? max_length) with true by (symmetry; apply Z.gtb_lt; lia).
    rewrite py_slice_to_nonneg by lia. reflexivity. }
  assert (Hne : cut <> []).
  { intros Hc. apply (f_equal (@length N)) in Hc. unfold cut in Hc.
    rewrite length_take in Hc. unfold len in Hlong. cbn in Hc. lia. }
  destruct (py_rsplit1_first hyphen cut) as (r & Hr & Hcase). rewrite Hr in Htr.
  apply sanitize_filename_unfold in Htr.
  split.
  - intros Hno. destruct Hcase as [[_ ->] | (b & Hsplit & _)].
    + rewrite Htr. destruct cut; [congruence | reflexivity].
    + exfalso. apply Hno. rewrite Hsplit. apply elem_of_app. right. apply elem_of_cons. left. reflexivity.
  - intros Hin. destruct Hcase as [[Hno _] | (b & Hsplit & Hb)]; [contradiction |].
    assert (Hrne : r <> []).
    { intros ->. apply (head_take_not (Z.to_nat max_length)) in Hhead.
      fold cut in Hhead. rewrite Hsplit in Hhead. apply Hhead. reflexivity. }
    assert (Hcut : (length r + S (length b))%nat = Z.to_nat max_length).
    { rewrite <- (length_take_le t (Z.to_nat max_length)) by (unfold len in Hlong; lia).
      fold cut. rewrite Hsplit, length_app. reflexivity. }
    assert (Ht : t = r ++ hyphen :: b ++ drop (Z.to_nat max_length) t).
    { rewrite <- (take_drop (Z.to_nat max_length) t) at 1. fold cut.
      rewrite Hsplit, <- app_assoc. reflexivity. }
    exists r, b, (drop (Z.to_nat max_length) t).
    split; [exact Hsplit |]. split; [exact Hb |]. split; [exact Ht |]. split; [exact Hrne |].
    split; [rewrite Htr; destruct r; [congruence | reflexivity] |].
    split; [unfold len; lia |].
    intros r' tail' Ht' Hr'.
    destruct (Z.le_gt_cases (len r') (len r)) as [Hle | Hgt]; [exact Hle |].
    exfalso. apply Hb.
    assert (Hlook : t !! length r' = Some hyphen).
    { rewrite Ht'. apply list_lookup_middle. reflexivity. }
    rewrite Ht in Hlook. unfold len in Hgt, Hr'.
    rewrite lookup_app_r in Hlook by lia.
    destruct (length r' - length r)%nat as [|i] eqn:Hi; [lia |].
    change ((b ++ drop (Z.to_nat max_length) t) !! i = Some hyphen) in Hlook.
    rewrite lookup_app_l in Hlook by lia.
    exact (list_elem_of_lookup_2 _ _ _ Hlook).
Qed.

(* ===================================================================== *)
(** * Decimal numerals *)
(* ===================================================================== *)

Lemma ch_inj (a b : ascii) : ch a = ch b -> a = b.
Proof.
  unfold ch. intros H. rewrite <- (ascii_N_embedding a), <- (ascii_N_embedding b), H. reflexivity.
Qed.

Lemma lit_inj (s t : string) : lit s = lit t -> s = t.
Proof.
  revert t. induction s as [|a s IH]; intros [|b t]; cbn; try discriminate; [reflexivity |].
  intros [= Ha Hs]. apply ch_inj in Ha. apply IH in Hs. congruence.
Qed.

Lemma py_str_of_N_inj (m n : N) : py_str_of_N m = py_str_of_N n -> m = n.
Proof.
  unfold py_str_of_N. intros H. apply lit_inj in H.
  apply (f_equal NilEmpty.uint_of_string) in H. rewrite !NilEmpty.usu in H.
  injection H as H. apply (f_equal N.of_uint) in H.
  rewrite !DecimalN.Unsigned.of_to in H. exact H.
Qed.

Lemma string_of_uint_digits (d : Decimal.uint) :
  Forall (fun c => is_digit_ascii c = true) (lit (NilEmpty.string_of_uint d)).
Proof. induction d; cbn; constructor; (reflexivity || assumption). Qed.

Lemma py_str_of_N_digits (n : N) :
  Forall (fun c => is_digit_ascii c = true) (py_str_of_N n).
Proof. apply string_of_uint_digits. Qed.

Lemma digit_not_dot (c : char) : is_digit_ascii c = true -> c <> dot.
Proof. intros H ->. vm_compute in H. discriminate. Qed.

Lemma py_str_of_N_no_dot (n : N) : dot ∉ py_str_of_N n.
Proof.
  intros Hin. pose proof (py_str_of_N_digits n) as H.
  rewrite Forall_forall in H. apply H in Hin. apply digit_not_dot in Hin. congruence.
Qed.

(* ===================================================================== *)
(** * The unique path resolver: claims C6 and C10 *)
(* ===================================================================== *)

Lemma parent_joinpath (p : Path) (s : str) : parent (joinpath p s) = p.
Proof. destruct p as [a ps]. unfold parent, joinpath. cbn. rewrite removelast_last. reflexivity. Qed.

Lemma name_joinpath (p : Path) (s : str) : name (joinpath p s) = s.
Proof. unfold name, joinpath. cbn. apply List.last_last. Qed.

Lemma numbered_inj (base_path : Path) (i j : N) :
  numbered base_path i = numbered base_path j -> i = j.
Proof.
  intros H. apply (f_equal name) in H. unfold numbered in H. rewrite !name_joinpath in H.
  apply app_inv_head in H. apply app_inv_head in H. apply app_inv_tail in H.
  apply py_str_of_N_inj. exact H.
Qed.

Lemma parent_numbered (base_path : Path) (k : N) :
  parent (numbered base_path k) = parent base_path.
Proof. apply parent_joinpath. Qed.

Lemma path_exists_dom (fs : gmap Path Entry) (p : Path) :
  path_exists fs p = true <-> p ∈ dom fs.
Proof. unfold path_exists. rewrite bool_decide_eq_true, elem_of_dom. reflexivity. Qed.

(** What the loop returns is the first free numbered path from [counter]
    on. *)
Lemma unique_loop_ok (fuel : nat) (fs : gmap Path Entry) (base_path : Path) (counter : N) (p : Path) :
  unique_loop fuel fs base_path counter = Ok p ->
  exists j, (counter <= j)%N /\ p = numbered base_path j
    /\ path_exists fs p = false
    /\ forall i, (counter <= i < j)%N -> path_exists fs (numbered base_path i) = true.
Proof.
  revert counter. induction fuel as [|fuel IH]; intros counter; cbn [unique_loop]; [discriminate |].
  destruct (path_exists fs (numbered base_path counter)) eqn:He; cbn [negb].
  - intros H. destruct (IH _ H) as (j & Hj & -> & Hfree & Hbusy).
    exists j. repeat split; [lia | exact Hfree |].
    intros i Hi. destruct (N.eq_dec i counter) as [-> | Hne]; [exact He | apply Hbusy; lia].
  - intros [= <-]. exists counter. repeat split; [lia | exact He | intros i Hi; lia].
Qed.

Lemma unique_loop_no_raise (fuel : nat) (fs : gmap Path Entry) (base_path : Path) (counter : N) (e : exn) :
  unique_loop fuel fs base_path counter <> Raise e.
Proof.
  revert counter. induction fuel as [|fuel IH]; intros counter; cbn [unique_loop]; [discriminate |].
  destruct (path_exists fs (numbered base_path counter)); cbn [negb]; [apply IH | discriminate].
Qed.

(** A loop that runs out of fuel has found every numbered path taken. *)
Lemma unique_loop_out_of_fuel (fuel : nat) (fs : gmap Path Entry) (base_path : Path) (counter : N) :
  unique_loop fuel fs base_path counter = OutOfFuel ->
  forall i, (i < fuel)%nat -> path_exists fs (numbered base_path (counter + N.of_nat i)) = true.
Proof.
  revert counter. induction fuel as [|fuel IH]; intros counter; cbn [unique_loop]; [intros _ i Hi; lia |].
  destruct (path_exists fs (numbered base_path counter)) eqn:He; cbn [negb]; [| discriminate].
  intros H [|i] Hi.
  - rewrite N.add_0_r. exact He.
  - replace (counter + N.of_nat (S i))%N with (counter + 1 + N.of_nat i)%N by lia.
    apply IH; [exact H | lia].
Qed.

(** The pigeonhole argument: [fuel] taken numbered paths are [fuel]
    different entries of the filesystem. *)
Lemma taken_paths_bound (fuel : nat) (fs : gmap Path Entry) (base_path : Path) (counter : N) :
  (forall i, (i < fuel)%nat -> path_exists fs (numbered base_path (counter + N.of_nat i)) = true) ->
  (fuel <= size fs)%nat.
Proof.
  intros Htaken.
  set (l := (fun i => numbered base_path (counter + N.of_nat i)) <$> seq 0 fuel).
  assert (Hnd : NoDup l).
  { apply NoDup_fmap_2; [| apply NoDup_seq].
    intros i j H. apply numbered_inj in H. lia. }
  assert (Hsub : list_to_set l ⊆ dom fs).
  { intros p Hp. apply elem_of_list_to_set in Hp. apply list_elem_of_fmap in Hp as (i & -> & Hi).
    apply elem_of_seq in Hi. apply path_exists_dom. apply Htaken. lia. }
  apply subseteq_size in Hsub. rewrite size_list_to_set in Hsub by exact Hnd.
  rewrite size_dom in Hsub. unfold l in Hsub. rewrite length_fmap, length_seq in Hsub. exact Hsub.
Qed.

(** More iterations than the filesystem has entries are enough: the loop
    returns. *)
Lemma unique_loop_enough_fuel (fuel : nat) (fs : gmap Path Entry) (base_path : Path) (counter : N) :
  (size fs < fuel)%nat ->
  exists p, unique_loop fuel fs base_path counter = Ok p.
Proof.
  intros Hfuel. destruct (unique_loop fuel fs base_path counter) as [p | e |] eqn:H.
  - exists p. reflexivity.
  - exfalso. exact (unique_loop_no_raise _ _ _ _ _ H).
  - exfalso. pose proof (taken_paths_bound _ _ _ _ (unique_loop_out_of_fuel _ _ _ _ H)). lia.
Qed.

(** Once the loop has returned, more fuel does not change the result. *)
Lemma unique_loop_more_fuel (fuel fuel' : nat) (fs : gmap Path Entry) (base_path : Path) (counter : N) (p : Path) :
  unique_loop fuel fs base_path counter = Ok p -> (fuel <= fuel')%nat ->
  unique_loop fuel' fs base_path counter = Ok p.
Proof.
  revert fuel' counter. induction fuel as [|fuel IH]; intros fuel' counter; cbn [unique_loop]; [discriminate |].
  intros H Hle. destruct fuel' as [|fuel']; [lia |]. cbn [unique_loop].
  destruct (path_exists fs (numbered base_path counter)); cbn [negb] in *; [| exact H].
  apply IH; [exact H | lia].
Qed.

(** [get_unique_path] returns: the candidate itself when it is free, and
    otherwise the first free numbered path. *)
Lemma get_unique_path_total (fs : gmap Path Entry) (base_path : Path) :
  exists p, get_unique_path fs base_path = Ok p
    /\ path_exists fs p = false
    /\ ((p = base_path /\ path_exists fs base_path = false)
        \/ (path_exists fs base_path = true
            /\ exists k, (1 <= k)%N /\ p = numbered base_path k
               /\ forall i, (1 <= i < k)%N -> path_exists fs (numbered base_path i) = true)).
Proof.
  unfold get_unique_path. destruct (path_exists fs base_path) eqn:He; cbn [negb].
  - destruct (unique_loop_enough_fuel (S (size fs)) fs base_path 1 ltac:(lia)) as [p Hp].
    exists p. destruct (unique_loop_ok _ _ _ _ _ Hp) as (j & Hj & -> & Hfree & Hbusy).
    repeat split; [exact Hp | exact Hfree |]. right. split; [reflexivity |].
    exists j. repeat split; [exact Hj | exact Hbusy].
  - exists base_path. split; [reflexivity |]. split; [first [exact He | reflexivity] |].
    left. split; first [exact He | reflexivity].
Qed.

(** ** Splitting a numbered name again *)

Lemma py_rfind_app (c : char) (a b : str) :
  py_rfind c (a ++ b) = if 0 <=? py_rfind c b then len a + py_rfind c b else py_rfind c a.
Proof.
  induction a as [|x a IH]; cbn [app py_rfind].
  - destruct (0 <=? py_rfind c b) eqn:H; [unfold len; cbn; lia |].
    apply Z.leb_gt in H. pose proof (py_rfind_lower c b). cbn [py_rfind]. lia.
  - rewrite IH. destruct (0 <=? py_rfind c b) eqn:H.
    + apply Z.leb_le in H. pose proof (len_nonneg a).
      replace (0 <=? len a + py_rfind c b) with true by (symmetry; apply Z.leb_le; lia).
      unfold len. cbn [length]. lia.
    + reflexivity.
Qed.

Lemma py_rfind_at (c : char) (a b : str) : c ∉ b -> py_rfind c (a ++ c :: b) = len a.
Proof.
  intros Hb. rewrite py_rfind_app. apply py_rfind_absent in Hb. cbn [py_rfind].
  replace (0 <=? py_rfind c b) with false by (symmetry; apply Z.leb_gt; lia).
  rewrite N.eqb_refl. cbn. lia.
Qed.

Lemma py_slices_at (a : str) (c : char) (b : str) :
  py_slice_to (a ++ c :: b) (len a) = a /\ py_slice_from (a ++ c :: b) (len a) = c :: b.
Proof.
  unfold py_slice_to, py_slice_from. pose proof (len_nonneg a) as H.
  replace (len a <? 0) with false by (symmetry; apply Z.ltb_ge; exact H).
  unfold len. rewrite Nat2Z.id, take_app_length, drop_app_length. split; reflexivity.
Qed.

(** The name [stem-digits suffix] built from the stem and the suffix of
    [n] has that suffix and that numbered stem again, unless [n] ends
    with a dot. *)
Lemma renumbered_split (n d : str) :
  dot ∉ d -> last n <> Some dot ->
  let st := if has_suffix n then py_slice_to n (py_rfind dot n) else n in
  let su := if has_suffix n then py_slice_from n (py_rfind dot n) else [] in
  let n' := st ++ [hyphen] ++ d ++ su in
  (if has_suffix n' then py_slice_from n' (py_rfind dot n') else []) = su
  /\ (if has_suffix n' then py_slice_to n' (py_rfind dot n') else n') = st ++ [hyphen] ++ d.
Proof.
  intros Hd Hlast. cbv zeta.
  assert (Hnodot : dot ∉ hyphen :: d).
  { apply not_elem_of_cons. split; [discriminate | exact Hd]. }
  destruct (has_suffix n) eqn:Hs.
  - unfold has_suffix in Hs. apply andb_true_iff in Hs as [H0 H1].
    apply Z.ltb_lt in H0, H1.
    destruct (py_rfind_split dot n ltac:(lia)) as (a & b & Hn & Hb & Hlen).
    rewrite <- Hlen in *. rewrite Hn in *.
    destruct (py_slices_at a dot b) as [-> ->].
    assert (Hbne : 1 <= len b).
    { rewrite len_app in H1. unfold len in *. cbn [length] in H1. lia. }
    set (a' := a ++ [hyphen] ++ d).
    assert (Hn' : a ++ [hyphen] ++ d ++ dot :: b = a' ++ dot :: b).
    { unfold a'. rewrite <- !app_assoc. reflexivity. }
    rewrite Hn'. unfold has_suffix. rewrite (py_rfind_at dot a' b Hb).
    destruct (py_slices_at a' dot b) as [-> ->].
    replace ((0 <? len a') && (len a' <? len (a' ++ dot :: b) - 1)) with true; [split; reflexivity |].
    symmetry. apply andb_true_iff. split; apply Z.ltb_lt.
    + unfold a'. rewrite !len_app. pose proof (len_nonneg d). unfold len in *. cbn [length]. lia.
    + rewrite len_app. unfold len in *. cbn [length]. lia.
  - rewrite app_nil_r. unfold has_suffix in *.
    assert (Hr : py_rfind dot (n ++ [hyphen] ++ d) = py_rfind dot n).
    { rewrite py_rfind_app. apply py_rfind_absent in Hnodot.
      replace (0 <=? py_rfind dot ([hyphen] ++ d)) with false
        by (symmetry; apply Z.leb_gt; exact Hnodot). reflexivity. }
    rewrite Hr.
    replace ((0 <? py_rfind dot n) && (py_rfind dot n <? len (n ++ [hyphen] ++ d) - 1))
      with false; [split; reflexivity |].
    symmetry. apply andb_false_iff. apply andb_false_iff in Hs.
    destruct Hs as [Hs | Hs]; [left; exact Hs |].
    destruct (Z.le_gt_cases (py_rfind dot n) 0) as [Hle | Hgt];
      [left; apply Z.ltb_ge; exact Hle |].
    exfalso. apply Z.ltb_ge in Hs.
    destruct (py_rfind_split dot n ltac:(lia)) as (a & b & Hn & Hb & Hlen).
    rewrite <- Hlen, Hn, len_app in Hs. unfold len in Hs. cbn [length] in Hs.
    destruct b as [|x b]; [| cbn [length] in Hs; lia].
    apply Hlast. rewrite Hn. apply last_snoc.
Qed.

Lemma numbered_resplit (base_path : Path) (k : N) :
  last (name base_path) <> Some dot ->
  suffix (numbered base_path k) = suffix base_path
  /\ stem (numbered base_path k) = stem base_path ++ [hyphen] ++ py_str_of_N k.
Proof.
  intros Hlast. unfold suffix at 1, stem at 1, numbered. rewrite name_joinpath.
  exact (renumbered_split (name base_path) (py_str_of_N k) (py_str_of_N_no_dot k) Hlast).
Qed.

(** ** The names the program joins are single components *)

Lemma stem_char_not_separator (c : char) : is_stem_char c = true -> c <> separator.
Proof. intros H ->. vm_compute in H. discriminate. Qed.

Lemma digit_not_separator (c : char) : is_digit_ascii c = true -> c <> separator.
Proof. intros H ->. vm_compute in H. discriminate. Qed.

Lemma Forall_not_elem (P : char -> Prop) (x : char) (s : str) :
  Forall P s -> ~ P x -> x ∉ s.
Proof. intros Hall Hx Hin. rewrite Forall_forall in Hall. apply Hx, Hall, Hin. Qed.

Lemma stem_subseteq (p : Path) : stem p ⊆ name p.
Proof.
  unfold stem. destruct (has_suffix (name p)); [| reflexivity].
  destruct (py_slice_to_take (name p) (py_rfind dot (name p))) as [n ->].
  apply subseteq_take.
Qed.

Lemma suffix_subseteq (p : Path) : suffix p ⊆ name p.
Proof.
  unfold suffix. destruct (has_suffix (name p)); [| apply list_subseteq_nil].
  unfold py_slice_from. destruct (py_rfind dot (name p) <? 0); apply subseteq_drop.
Qed.

(** A numbered name is one component when the name it comes from holds
    no separator. *)
Lemma numbered_component (base_path : Path) (k : N) :
  separator ∉ name base_path -> component (name (numbered base_path k)).
Proof.
  intros Hsep. unfold numbered. rewrite name_joinpath.
  assert (Hin : hyphen ∈ stem base_path ++ [hyphen] ++ py_str_of_N k ++ suffix base_path).
  { apply elem_of_app. right. apply elem_of_cons. left. reflexivity. }
  split; [| split].
  - intros Heq. rewrite Heq in Hin. apply not_elem_of_nil in Hin. exact Hin.
  - intros Heq. rewrite Heq in Hin. apply list_elem_of_singleton in Hin. discriminate.
  - rewrite !not_elem_of_app. repeat split.
    + intros H. apply Hsep, (stem_subseteq base_path), H.
    + apply not_elem_of_cons. split; [discriminate | apply not_elem_of_nil].
    + apply (Forall_not_elem _ _ _ (py_str_of_N_digits k)).
      intros H. exact (digit_not_separator _ H eq_refl).
    + intros H. apply Hsep, (suffix_subseteq base_path), H.
Qed.

Lemma zero_pad_digits (width : nat) (s : str) :
  Forall (fun c => is_digit_ascii c = true) s ->
  Forall (fun c => is_digit_ascii c = true) (zero_pad width s).
Proof.
  intros H. unfold zero_pad. apply Forall_app. split; [| exact H].
  apply Forall_replicate. reflexivity.
Qed.

Lemma strftime_ymd_no_separator (d : Date) : separator ∉ strftime_ymd d.
Proof.
  unfold strftime_ymd. rewrite !not_elem_of_app. repeat split;
    try (apply not_elem_of_cons; split; [discriminate | apply not_elem_of_nil]);
    apply (Forall_not_elem _ _ _ (zero_pad_digits _ _ (py_str_of_N_digits _)));
    intros H; exact (digit_not_separator _ H eq_refl).
Qed.

Lemma ascii_lower_no_separator (s : str) :
  separator ∉ s -> separator ∉ map ascii_lower s.
Proof.
  intros Hs Hin. apply Hs. apply list_elem_of_In, List.in_map_iff in Hin as (c & Hc & Hin).
  apply list_elem_of_In. replace separator with c; [exact Hin |].
  unfold ascii_lower in Hc. destruct (is_upper_ascii c) eqn:Hu; [| exact Hc].
  exfalso. unfold is_upper_ascii, in_range in Hu. apply andb_true_iff in Hu as [Hlo Hhi].
  apply N.leb_le in Hlo, Hhi. unfold separator, ch in Hc. cbn in Hc. lia.
Qed.

(** The dated name of a file with an ASCII suffix is one component when
    the file's own name holds no separator. *)
Lemma dated_name_component (d : Date) (clean : str) (file_path : Path) :
  Forall (fun c => is_stem_char c = true) clean ->
  forallb is_ascii (suffix file_path) = true ->
  separator ∉ name file_path ->
  component (strftime_ymd d ++ [underscore] ++ clean ++ py_lower (suffix file_path)).
Proof.
  intros Hclean Hascii Hsep.
  assert (Hin : underscore ∈ strftime_ymd d ++ [underscore] ++ clean ++ py_lower (suffix file_path)).
  { apply elem_of_app. right. apply elem_of_cons. left. reflexivity. }
  split; [| split].
  - intros Heq. rewrite Heq in Hin. apply not_elem_of_nil in Hin. exact Hin.
  - intros Heq. rewrite Heq in Hin. apply list_elem_of_singleton in Hin. discriminate.
  - rewrite !not_elem_of_app. repeat split.
    + apply strftime_ymd_no_separator.
    + apply not_elem_of_cons. split; [discriminate | apply not_elem_of_nil].
    + apply (Forall_not_elem _ _ _ Hclean). intros H. exact (stem_char_not_separator _ H eq_refl).
    + unfold py_lower. rewrite Hascii. apply ascii_lower_no_separator.
      intros H. apply Hsep, (suffix_subseteq file_path), H.
Qed.

(** ** The resolver when a test can be refused *)

Lemma exists_os_ok (refused : Path -> bool) (fs : gmap Path Entry) (p : Path) (b : bool) :
  exists_os refused fs p = Ok b <-> refused p = false /\ path_exists fs p = b.
Proof.
  unfold exists_os. destruct (refused p).
  - split; [discriminate | intros [H _]; discriminate].
  - split; [intros [= <-]; split; reflexivity | intros [_ <-]; reflexivity].
Qed.

Lemma exists_os_raise (refused : Path -> bool) (fs : gmap Path Entry) (p : Path) :
  refused p = true -> exists_os refused fs p = Raise OSError.
Proof. unfold exists_os. intros ->. reflexivity. Qed.

(** What the loop returns is the first numbered path from [counter] on
    that is free, no test having been refused up to it. *)
Lemma unique_loop_os_ok (fuel : nat) (refused : Path -> bool) (fs : gmap Path Entry)
    (base_path : Path) (counter : N) (p : Path) :
  unique_loop_os fuel refused fs base_path counter = Ok p ->
  exists j, (counter <= j)%N /\ p = numbered base_path j
    /\ exists_os refused fs p = Ok false
    /\ forall i, (counter <= i < j)%N -> exists_os refused fs (numbered base_path i) = Ok true.
Proof.
  revert counter. induction fuel as [|fuel IH]; intros counter; cbn [unique_loop_os]; [discriminate |].
  destruct (exists_os refused fs (numbered base_path counter)) as [[|] | e |] eqn:He;
    cbn [mbind result_bind negb]; try discriminate.
  - intros H. destruct (IH _ H) as (j & Hj & -> & Hfree & Hbusy).
    exists j. split; [lia |]. split; [reflexivity |]. split; [exact Hfree |].
    intros i Hi. destruct (N.eq_dec i counter) as [-> | Hne]; [exact He | apply Hbusy; lia].
  - intros [= <-]. exists counter. split; [lia |]. split; [reflexivity |].
    split; [exact He | intros i Hi; lia].
Qed.

(** The loop raises nothing but the [OSError] of the first refused test. *)
Lemma unique_loop_os_raise (fuel : nat) (refused : Path -> bool) (fs : gmap Path Entry)
    (base_path : Path) (counter : N) (e : exn) :
  unique_loop_os fuel refused fs base_path counter = Raise e ->
  e = OSError
  /\ exists j, (counter <= j)%N /\ refused (numbered base_path j) = true
       /\ forall i, (counter <= i < j)%N -> exists_os refused fs (numbered base_path i) = Ok true.
Proof.
  revert counter. induction fuel as [|fuel IH]; intros counter; cbn [unique_loop_os]; [discriminate |].
  destruct (exists_os refused fs (numbered base_path counter)) as [[|] | e' |] eqn:He;
    cbn [mbind result_bind negb]; try discriminate.
  - intros H. destruct (IH _ H) as (-> & j & Hj & Href & Hbusy).
    split; [reflexivity |]. exists j. split; [lia |]. split; [exact Href |].
    intros i Hi. destruct (N.eq_dec i counter) as [-> | Hne]; [exact He | apply Hbusy; lia].
  - intros [= <-]. unfold exists_os in He.
    destruct (refused (numbered base_path counter)) eqn:Href; [| discriminate].
    injection He as <-. split; [reflexivity |].
    exists counter. split; [lia |]. split; [exact Href | intros i Hi; lia].
Qed.

Lemma unique_loop_os_out_of_fuel (fuel : nat) (refused : Path -> bool) (fs : gmap Path Entry)
    (base_path : Path) (counter : N) :
  unique_loop_os fuel refused fs base_path counter = OutOfFuel ->
  forall i, (i < fuel)%nat -> path_exists fs (numbered base_path (counter + N.of_nat i)) = true.
Proof.
  revert counter. induction fuel as [|fuel IH]; intros counter; cbn [unique_loop_os];
    [intros _ i Hi; lia |].
  destruct (exists_os refused fs (numbered base_path counter)) as [[|] | e' |] eqn:He;
    cbn [mbind result_bind negb]; try discriminate.
  - intros H [|i] Hi.
    + rewrite N.add_0_r. apply exists_os_ok in He. apply He.
    + replace (counter + N.of_nat (S i))%N with (counter + 1 + N.of_nat i)%N by lia.
      apply IH; [exact H | lia].
  - exfalso. unfold exists_os in He. destruct (refused (numbered base_path counter)); discriminate.
Qed.

(** Every way through [get_unique_path]: it returns the candidate or
    its first free numbered variant, or the first refused test raises
    [OSError]; the loop ends within the bound of the model. *)
Lemma get_unique_path_os_cases (refused : Path -> bool) (fs : gmap Path Entry) (base_path : Path) :
  (get_unique_path_os refused fs base_path = Ok base_path
   /\ exists_os refused fs base_path = Ok false)
  \/ (exists_os refused fs base_path = Ok true
      /\ exists k, (1 <= k)%N
         /\ (forall i, (1 <= i < k)%N -> exists_os refused fs (numbered base_path i) = Ok true)
         /\ ((get_unique_path_os refused fs base_path = Ok (numbered base_path k)
              /\ exists_os refused fs (numbered base_path k) = Ok false)
             \/ (get_unique_path_os refused fs base_path = Raise OSError
                 /\ refused (numbered base_path k) = true)))
  \/ (get_unique_path_os refused fs base_path = Raise OSError /\ refused base_path = true).
Proof.
  unfold get_unique_path_os.
  destruct (exists_os refused fs base_path) as [[|] | e |] eqn:He; cbn [mbind result_bind negb].
  - right. left. split; [reflexivity |].
    destruct (unique_loop_os (S (size fs)) refused fs base_path 1) as [p | e |] eqn:Hl.
    + destruct (unique_loop_os_ok _ _ _ _ _ _ Hl) as (j & Hj & -> & Hfree & Hbusy).
      exists j. split; [exact Hj |]. split; [exact Hbusy |]. left. split; [reflexivity | exact Hfree].
    + destruct (unique_loop_os_raise _ _ _ _ _ _ Hl) as (-> & j & Hj & Href & Hbusy).
      exists j. split; [exact Hj |]. split; [exact Hbusy |]. right. split; [reflexivity | exact Href].
    + exfalso. pose proof (taken_paths_bound _ _ _ _ (unique_loop_os_out_of_fuel _ _ _ _ _ Hl)). lia.
  - left. split; reflexivity.
  - right. right. unfold exists_os in He. destruct (refused base_path); [| discriminate].
    injection He as <-. split; reflexivity.
  - unfold exists_os in He. destruct (refused base_path); discriminate.
Qed.

(** Without refusals this is [get_unique_path]. *)
Lemma unique_loop_os_unrefused (fuel : nat) (fs : gmap Path Entry) (base_path : Path) (counter : N) :
  unique_loop_os fuel (fun _ => false) fs base_path counter = unique_loop fuel fs base_path counter.
Proof.
  revert counter. induction fuel as [|fuel IH]; intros counter; [reflexivity |].
  cbn [unique_loop_os unique_loop]. unfold exists_os. cbn [mbind result_bind].
  rewrite IH. reflexivity.
Qed.

Lemma get_unique_path_os_unrefused (fs : gmap Path Entry) (base_path : Path) :
  get_unique_path_os (fun _ => false) fs base_path = get_unique_path fs base_path.
Proof.
  unfold get_unique_path_os, get_unique_path, exists_os. cbn [mbind result_bind].
  rewrite unique_loop_os_unrefused. reflexivity.
Qed.

(** ** Stem and suffix, letter by letter *)

Lemma has_suffix_split (n : str) :
  has_suffix n = true ->
  exists s x, n = s ++ dot :: x /\ s <> [] /\ x <> [] /\ (dot ∉ x) /\ py_rfind dot n = len s.
Proof.
  unfold has_suffix. intros H. apply andb_true_iff in H as [H0 H1]. apply Z.ltb_lt in H0, H1.
  destruct (py_rfind_split dot n ltac:(lia)) as (a & b & Hn & Hb & Hlen).
  exists a, b. split; [exact Hn |]. rewrite <- Hlen in H0, H1.
  split; [intros ->; unfold len in H0; cbn in H0; lia |].
  split; [| split; [exact Hb | symmetry; exact Hlen]].
  intros ->. rewrite Hn, len_app in H1. unfold len in H1. cbn [length] in H1. lia.
Qed.

Lemma has_suffix_at (s x : str) :
  s <> [] -> x <> [] -> dot ∉ x -> has_suffix (s ++ dot :: x) = true.
Proof.
  intros Hs Hx Hno. unfold has_suffix. rewrite (py_rfind_at dot s x Hno).
  apply andb_true_iff. rewrite len_app. unfold len. cbn [length].
  destruct s; [congruence |]. destruct x; [congruence |]. cbn [length].
  split; apply Z.ltb_lt; lia.
Qed.

(** [stem] and [suffix] split the name as [splits_name] says, and in no
    other way. *)
Lemma splits_name_stem_suffix (p : Path) : splits_name (name p) (stem p) (suffix p).
Proof.
  unfold stem, suffix. destruct (has_suffix (name p)) eqn:Hs.
  - destruct (has_suffix_split _ Hs) as (s & x & Hn & Hsne & Hxne & Hno & Hr).
    rewrite Hr, Hn. destruct (py_slices_at s dot x) as [-> ->].
    apply split_at_dot; assumption.
  - apply split_nowhere. intros s x Hn Hno.
    destruct s as [|c s]; [left; reflexivity |]. destruct x as [|d x]; [right; reflexivity |].
    exfalso. rewrite Hn, has_suffix_at in Hs; [discriminate | discriminate | discriminate | exact Hno].
Qed.

Lemma splits_name_unique (p : Path) (s e : str) :
  splits_name (name p) s e -> stem p = s /\ suffix p = e.
Proof.
  intros H. unfold stem, suffix. remember (name p) as n eqn:Hn. clear Hn.
  destruct H as [s x Hs Hx Hno | n Hnone].
  - rewrite has_suffix_at by assumption. rewrite (py_rfind_at dot s x Hno).
    destruct (py_slices_at s dot x) as [-> ->]. split; reflexivity.
  - destruct (has_suffix n) eqn:Hsuf; [| split; reflexivity].
    exfalso. destruct (has_suffix_split _ Hsuf) as (s & x & Hn & Hsne & Hxne & Hno & _).
    destruct (Hnone s x Hn Hno); contradiction.
Qed.

(** C6, as the code has it. [get_unique_path] returns the candidate
    unchanged when the test finds nothing at it; when the tests find the
    candidate and its [-1] variant and do not find the [-2] variant, it
    returns the [-2] variant; in general the counter starts at 1 and the
    result is the first numbered variant that the test does not find,
    every counter being tested. A test that the system refuses, of the
    candidate or of the first variant not found before, raises [OSError]
    instead. The variants are named letter by letter: [s] and [e] are
    the stem and the suffix of the candidate's name, and the variant is
    the sibling named [s], a hyphen, the digits and [e]. *)
Theorem get_unique_path_resolves (refused : Path -> bool) (fs : gmap Path Entry)
    (base_path : Path) (s e : str) :
  splits_name (name base_path) s e ->
  let variant (digits : str) := joinpath (parent base_path) (s ++ [hyphen] ++ digits ++ e) in
  (exists_os refused fs base_path = Ok false ->
   get_unique_path_os refused fs base_path = Ok base_path)
  /\ (exists_os refused fs base_path = Ok true ->
      exists_os refused fs (variant (lit "1")) = Ok true ->
      exists_os refused fs (variant (lit "2")) = Ok false ->
      get_unique_path_os refused fs base_path = Ok (variant (lit "2")))
  /\ (forall k, (1 <= k)%N ->
      exists_os refused fs base_path = Ok true ->
      (forall i, (1 <= i < k)%N -> exists_os refused fs (variant (py_str_of_N i)) = Ok true) ->
      exists_os refused fs (variant (py_str_of_N k)) = Ok false ->
      get_unique_path_os refused fs base_path = Ok (variant (py_str_of_N k)))
  /\ (refused base_path = true -> get_unique_path_os refused fs base_path = Raise OSError)
  /\ (forall k, (1 <= k)%N ->
      exists_os refused fs base_path = Ok true ->
      (forall i, (1 <= i < k)%N -> exists_os refused fs (variant (py_str_of_N i)) = Ok true) ->
      refused (variant (py_str_of_N k)) = true ->
      get_unique_path_os refused fs base_path = Raise OSError).
Proof.
  intros Hsplit variant.
  destruct (splits_name_unique _ _ _ Hsplit) as [Hstem Hsuffix].
  assert (Hvar : forall k, variant (py_str_of_N k) = numbered base_path k).
  { intros k. unfold variant, numbered. rewrite Hstem, Hsuffix. reflexivity. }
  assert (Hgen : forall k (out : result bool), (1 <= k)%N ->
      exists_os refused fs base_path = Ok true ->
      (forall i, (1 <= i < k)%N -> exists_os refused fs (variant (py_str_of_N i)) = Ok true) ->
      exists_os refused fs (variant (py_str_of_N k)) = out ->
      (out = Ok false ->
       get_unique_path_os refused fs base_path = Ok (variant (py_str_of_N k)))
      /\ (out = Raise OSError -> get_unique_path_os refused fs base_path = Raise OSError)).
  { intros k out Hk He Hbusy Hout. rewrite Hvar in Hout. rewrite Hvar.
    destruct (get_unique_path_os_cases refused fs base_path)
      as [[_ Hno] | [(_ & j & Hj & Hjbusy & Hend) | [_ Href]]].
    - rewrite He in Hno. discriminate.
    - destruct (N.lt_trichotomy j k) as [Hlt | [-> | Hgt]].
      + specialize (Hbusy j ltac:(lia)). rewrite Hvar in Hbusy.
        destruct Hend as [[_ Hjfree] | [_ Hjref]].
        * rewrite Hbusy in Hjfree. discriminate.
        * rewrite (exists_os_raise _ fs _ Hjref) in Hbusy. discriminate.
      + destruct Hend as [[Hr Hjfree] | [Hr Hjref]].
        * split; [intros _; exact Hr | intros ->; congruence].
        * rewrite (exists_os_raise _ fs _ Hjref) in Hout.
          split; [intros ->; discriminate | intros _; exact Hr].
      + rewrite (Hjbusy k ltac:(lia)) in Hout. split; intros ->; discriminate.
    - rewrite (exists_os_raise _ fs _ Href) in He. discriminate. }
  split; [| split; [| split; [| split]]].
  - intros He. unfold get_unique_path_os. rewrite He. reflexivity.
  - intros He H1 H2. apply (Hgen 2%N (Ok false)); [lia | exact He | | exact H2 | reflexivity].
    intros i Hi. replace i with 1%N by lia. exact H1.
  - intros k Hk He Hbusy Hfree. exact (proj1 (Hgen k _ Hk He Hbusy Hfree) eq_refl).
  - intros Href. unfold get_unique_path_os. rewrite (exists_os_raise _ fs _ Href). reflexivity.
  - intros k Hk He Hbusy Href.
    exact (proj2 (Hgen k _ Hk He Hbusy (exists_os_raise _ fs _ Href)) eq_refl).
Qed.

(** C10, as the code has it. [get_unique_path] either returns a path or
    lets the [OSError] of a refused existence test escape; it returns
    when nothing is refused. A path it returns is one the test does not
    find, in the parent directory of the candidate: the candidate itself,
    or the path named by the candidate's stem, a hyphen, a positive
    integer and the candidate's suffix. Unless the candidate's name ends
    with a dot, the suffix of the returned path is the candidate's suffix
    and its stem is the candidate's stem, alone or followed by the hyphen
    and the integer. *)
Theorem get_unique_path_shape (refused : Path -> bool) (fs : gmap Path Entry) (base_path : Path) :
  ((exists p, get_unique_path_os refused fs base_path = Ok p)
   \/ get_unique_path_os refused fs base_path = Raise OSError)
  /\ ((forall q, refused q = false) -> exists p, get_unique_path_os refused fs base_path = Ok p)
  /\ (forall p, get_unique_path_os refused fs base_path = Ok p ->
      exists_os refused fs p = Ok false
      /\ parent p = parent base_path
      /\ (p = base_path
          \/ exists k, (1 <= k)%N
             /\ name p = stem base_path ++ [hyphen] ++ py_str_of_N k ++ suffix base_path)
      /\ (last (name base_path) <> Some dot ->
          suffix p = suffix base_path
          /\ (stem p = stem base_path
              \/ exists k, (1 <= k)%N /\ stem p = stem base_path ++ [hyphen] ++ py_str_of_N k))).
Proof.
  pose proof (get_unique_path_os_cases refused fs base_path) as Hcases.
  split; [| split].
  - destruct Hcases as [[H _] | [(_ & k & _ & _ & [[H _] | [H _]]) | [H _]]];
      [left; eexists; exact H | left; eexists; exact H | right; exact H | right; exact H].
  - intros Hnone.
    destruct Hcases as [[H _] | [(_ & k & _ & _ & [[H _] | [_ H]]) | [_ H]]];
      [eexists; exact H | eexists; exact H | |]; rewrite Hnone in H; discriminate.
  - intros p Hp.
    destruct Hcases as [[H Hfree] | [(_ & k & Hk & _ & [[H Hfree] | [H _]]) | [H _]]];
      rewrite H in Hp; try discriminate; injection Hp as <-.
    + split; [exact Hfree |]. split; [reflexivity |]. split; [left; reflexivity |].
      intros _. split; [reflexivity | left; reflexivity].
    + split; [exact Hfree |]. split; [apply parent_numbered |]. split.
      * right. exists k. split; [exact Hk |]. unfold numbered. apply name_joinpath.
      * intros Hlast. destruct (numbered_resplit base_path k Hlast) as [Hsu Hst].
        split; [exact Hsu |]. right. exists k. split; [exact Hk | exact Hst].
Qed.

(* ===================================================================== *)
(** * The processed-name pattern: claim C2 *)
(* ===================================================================== *)

Lemma digit_is_digit (c : char) : is_digit_ascii c = true -> is_digit c = true.
Proof.
  intros H. unfold is_digit. replace (is_ascii c) with true; [exact H |].
  symmetry. unfold is_digit_ascii, in_range in H. apply andb_true_iff in H as [_ H].
  apply N.leb_le in H. apply N.ltb_lt. lia.
Qed.

(** Every number below 10000 prints in at most four digits, and every
    number from 1000 on in at least four; below 100, in at most two. *)
Lemma four_digits_upto_9999 :
  forallb (fun i => fixed_digits 4 (zero_pad 4 (py_str_of_N (N.of_nat i)))) (seq 0 (N.to_nat 10000)) = true.
Proof. vm_compute. reflexivity. Qed.

Lemma two_digits_upto_99 :
  forallb (fun i => fixed_digits 2 (zero_pad 2 (py_str_of_N (N.of_nat i)))) (seq 0 (N.to_nat 100)) = true.
Proof. vm_compute. reflexivity. Qed.

Lemma year_field (y : N) : (y <= 9999)%N -> fixed_digits 4 (zero_pad 4 (py_str_of_N y)) = true.
Proof.
  intros H. pose proof four_digits_upto_9999 as Hall.
  rewrite List.forallb_forall in Hall. rewrite <- (N2Nat.id y).
  apply Hall. apply List.in_seq. lia.
Qed.

Lemma short_field (m : N) : (m <= 99)%N -> fixed_digits 2 (zero_pad 2 (py_str_of_N m)) = true.
Proof.
  intros H. pose proof two_digits_upto_99 as Hall.
  rewrite List.forallb_forall in Hall. rewrite <- (N2Nat.id m).
  apply Hall. apply List.in_seq. lia.
Qed.

Lemma fixed_digits_forall (width : nat) (s : str) :
  fixed_digits width s = true ->
  length s = width /\ Forall (fun c => is_digit_ascii c = true) s.
Proof.
  unfold fixed_digits. intros [Hl Hd]%andb_true_iff. apply Nat.eqb_eq in Hl.
  split; [exact Hl |]. apply List.Forall_forall. rewrite List.forallb_forall in Hd. exact Hd.
Qed.

Lemma match_classes_app (classes : list (char -> bool)) (s rest : str) :
  match_classes classes s = true -> match_classes classes (s ++ rest) = true.
Proof.
  revert s. induction classes as [|cl classes IH]; intros s; [reflexivity |].
  destruct s as [|c s]; cbn; [discriminate |].
  intros [Hc Hs]%andb_true_iff. rewrite Hc. apply IH. exact Hs.
Qed.

(** The date string of a valid date, followed by an underscore, matches
    the processed-name pattern and holds no dot. *)
Lemma date_prefix_processed (d : Date) :
  valid_date d = true ->
  looks_processed (strftime_ymd d ++ [underscore]) = true
  /\ dot ∉ strftime_ymd d ++ [underscore].
Proof.
  unfold valid_date. rewrite !andb_true_iff, !N.leb_le. intros H.
  destruct (fixed_digits_forall _ _ (year_field (year d) ltac:(lia))) as [Hly Hy].
  destruct (fixed_digits_forall _ _ (short_field (month d) ltac:(lia))) as [Hlm Hm].
  destruct (fixed_digits_forall _ _ (short_field (day d) ltac:(lia))) as [Hld Hd].
  unfold strftime_ymd.
  destruct (zero_pad 4 (py_str_of_N (year d))) as [|y1 [|y2 [|y3 [|y4 [|? ?]]]]]; try discriminate.
  destruct (zero_pad 2 (py_str_of_N (month d))) as [|m1 [|m2 [|? ?]]]; try discriminate.
  destruct (zero_pad 2 (py_str_of_N (day d))) as [|d1 [|d2 [|? ?]]]; try discriminate.
  repeat match goal with
         | H : Forall _ (_ :: _) |- _ => apply Forall_cons in H as [? H]
         end.
  split.
  - cbn [app looks_processed match_classes].
    rewrite !digit_is_digit by assumption. reflexivity.
  - cbn [app]. rewrite !not_elem_of_cons. repeat split;
      try (apply not_eq_sym, digit_not_dot; assumption); try discriminate.
    apply not_elem_of_nil.
Qed.

(** The stem of a name keeps every leading part that holds no dot. *)
Lemma stem_keeps_prefix (pre rest : str) :
  dot ∉ pre ->
  exists rest',
    (if has_suffix (pre ++ rest)
     then py_slice_to (pre ++ rest) (py_rfind dot (pre ++ rest))
     else pre ++ rest) = pre ++ rest'.
Proof.
  intros Hpre. destruct (has_suffix (pre ++ rest)) eqn:Hs; [| exists rest; reflexivity].
  unfold has_suffix in Hs. apply andb_true_iff in Hs as [H0 _]. apply Z.ltb_lt in H0.
  rewrite py_rfind_app in *. apply py_rfind_absent in Hpre.
  destruct (0 <=? py_rfind dot rest) eqn:Hr; [| lia].
  apply Z.leb_le in Hr. exists (take (Z.to_nat (py_rfind dot rest)) rest).
  rewrite py_slice_to_nonneg by (pose proof (len_nonneg pre); lia).
  replace (Z.to_nat (len pre + py_rfind dot rest))
    with (length pre + Z.to_nat (py_rfind dot rest))%nat by (unfold len; lia).
  apply take_app_add.
Qed.

Lemma target_path_spec (env : Env) (file_path : Path) (description : str) (fs : gmap Path Entry) :
  exists clean new_path,
    sanitize_filename description default_max_length = Ok clean
    /\ target_path env file_path description fs = Ok new_path
    /\ path_exists fs new_path = false
    /\ parent new_path = parent file_path
    /\ let new_name := strftime_ymd (today env) ++ [underscore] ++ clean
                       ++ py_lower (suffix file_path) in
       let candidate := joinpath (parent file_path) new_name in
       name new_path = new_name
       \/ exists k, (1 <= k)%N
          /\ name new_path = stem candidate ++ [hyphen] ++ py_str_of_N k ++ suffix candidate.
Proof.
  destruct (sanitize_filename_ok description default_max_length) as (clean & Hclean & _).
  set (candidate := joinpath (parent file_path)
         (strftime_ymd (today env) ++ [underscore] ++ clean ++ py_lower (suffix file_path))).
  destruct (get_unique_path_total fs candidate) as (p & Hp & Hfree & Hcase).
  exists clean, p. split; [exact Hclean |].
  split; [unfold target_path; rewrite Hclean; exact Hp |].
  split; [exact Hfree |].
  cbv zeta. fold candidate.
  destruct Hcase as [[-> _] | (_ & k & Hk & -> & _)].
  - split; [apply parent_joinpath | left; apply name_joinpath].
  - split; [rewrite parent_numbered; apply parent_joinpath |].
    right. exists k. split; [exact Hk | apply name_joinpath].
Qed.

(** C2. Every file name the pipeline computes, for a date of four-digit
    year, begins with the date and an underscore and matches
    [^\d{4}-\d{2}-\d{2}_]; it is the dated name itself or its numbered
    variant. A path whose name matches that pattern is left alone by the
    watcher ([handle_file] changes nothing and runs nothing) and is not
    in the batch driver's list. *)
Theorem processed_names_are_skipped (env : Env) (file_path : Path) (description : str)
    (fs : gmap Path Entry) :
  valid_date (today env) = true ->
  (exists clean new_path rest,
      sanitize_filename description default_max_length = Ok clean
      /\ target_path env file_path description fs = Ok new_path
      /\ name new_path = strftime_ymd (today env) ++ [underscore] ++ rest
      /\ looks_processed (name new_path) = true
      /\ let candidate := joinpath (parent file_path)
           (strftime_ymd (today env) ++ [underscore] ++ clean ++ py_lower (suffix file_path)) in
         (new_path = candidate \/ exists k, (1 <= k)%N /\ new_path = numbered candidate k)
      /\ (forall wenv st, handle_file wenv new_path st = Ok st)
      /\ (forall fs' folder, new_path ∉ list_images fs' folder))
  /\ (forall p, looks_processed (name p) = true ->
        (forall wenv st, handle_file wenv p st = Ok st)
        /\ (forall fs' folder, p ∉ list_images fs' folder)).
Proof.
  intros Hdate.
  assert (Hskip : forall p, looks_processed (name p) = true ->
        (forall wenv st, handle_file wenv p st = Ok st)
        /\ (forall fs' folder, p ∉ list_images fs' folder)).
  { intros p Hp. split.
    - intros wenv [self w]. unfold handle_file. rewrite Hp.
      destruct (is_image p); cbn [negb]; [| reflexivity].
      destruct (bool_decide (path_str p ∈ processed self)); reflexivity.
    - intros fs' folder Hin. unfold list_images in Hin.
      apply list_elem_of_In, List.filter_In in Hin as [_ Hin].
      rewrite Hp, andb_false_r in Hin. discriminate. }
  split; [| exact Hskip].
  destruct (date_prefix_processed _ Hdate) as [Hlooks Hnodot].
  destruct (sanitize_filename_ok description default_max_length) as (clean & Hclean & _).
  set (new_name := strftime_ymd (today env) ++ [underscore] ++ clean ++ py_lower (suffix file_path)).
  set (candidate := joinpath (parent file_path) new_name).
  destruct (get_unique_path_total fs candidate) as (p & Hp & _ & Hcase).
  assert (Hname : exists rest, name p = (strftime_ymd (today env) ++ [underscore]) ++ rest).
  { destruct Hcase as [[-> _] | (_ & k & _ & -> & _)].
    - exists (clean ++ py_lower (suffix file_path)).
      unfold candidate. rewrite name_joinpath. unfold new_name. rewrite <- !app_assoc. reflexivity.
    - unfold numbered. rewrite name_joinpath. unfold stem, candidate. rewrite name_joinpath.
      destruct (stem_keeps_prefix (strftime_ymd (today env) ++ [underscore])
                  (clean ++ py_lower (suffix file_path)) Hnodot) as [rest' Hrest'].
      replace new_name with ((strftime_ymd (today env) ++ [underscore])
                             ++ clean ++ py_lower (suffix file_path))
        by (unfold new_name; rewrite <- !app_assoc; reflexivity).
      rewrite Hrest'. eexists. rewrite <- !app_assoc. reflexivity. }
  destruct Hname as [rest Hname].
  assert (Hlp : looks_processed (name p) = true).
  { rewrite Hname. apply match_classes_app. exact Hlooks. }
  exists clean, p, rest. split; [exact Hclean |].
  split; [unfold target_path; rewrite Hclean; exact Hp |].
  split; [rewrite Hname, <- !app_assoc; reflexivity |].
  split; [exact Hlp |].
  split; [| exact (Hskip p Hlp)].
  cbv zeta. fold new_name candidate.
  destruct Hcase as [[-> _] | (_ & k & Hk & -> & _)]; [left; reflexivity | right; eauto].
Qed.

(* ===================================================================== *)
(** * The rename pipeline: claims C5 and C7 *)
(* ===================================================================== *)

Lemma invocations_app (a b : list effect) :
  invocations (a ++ b) = invocations a ++ invocations b.
Proof.
  induction a as [|e a IH]; [reflexivity |].
  destruct e; cbn [app invocations]; rewrite IH; reflexivity.
Qed.

(** [rename_screenshot] returns. It asks the collaborator once; without a
    description, and in a dry run, it does nothing else. *)
Lemma rename_screenshot_spec (env : Env) (file_path : Path) (dry_run : bool) (w : World) :
  exists b w' rest,
    rename_screenshot env file_path dry_run w = Ok (b, w')
    /\ effects w' = effects w ++ Analyze file_path :: rest
    /\ invocations rest = []
    /\ (falsy (description_of env) = true -> b = false /\ files w' = files w /\ rest = [])
    /\ (falsy (description_of env) = false -> dry_run = true ->
        b = true /\ files w' = files w /\ rest = []).
Proof.
  unfold rename_screenshot, analyze_image, description_of.
  set (w1 := emit (Analyze file_path) w).
  assert (Heff1 : effects w1 = effects w ++ [Analyze file_path]) by reflexivity.
  destruct (infer env) as [| content]; cbv beta iota.
  - cbn [falsy]. exists false, w1, [].
    repeat split; try reflexivity; try discriminate.
  - destruct (falsy content) eqn:Hf.
    + exists false, w1, [].
      repeat split; try reflexivity; try discriminate.
    + destruct content as [[|c d] |]; try discriminate. cbn [text_of default].
      change (id (c :: d)) with (c :: d).
      destruct (target_path_spec env file_path (c :: d) (files w1))
        as (clean & new_path & _ & Htp & _).
      rewrite Htp. cbn [mbind result_bind].
      destruct dry_run.
      * exists true, w1, []. repeat split; try reflexivity; try discriminate.
      * unfold os_rename. destruct (files w1 !! file_path) as [e |];
          [destruct (rename_denied env) |].
        -- exists false, w1, []. repeat split; try reflexivity; discriminate.
        -- eexists true, _, [Rename file_path new_path; Xattr new_path (c :: d)].
           split; [reflexivity |]. cbn [set_finder_comment].
           split; [| split; [reflexivity | split; [discriminate | intros _; discriminate]]].
           destruct (xattr_ok env); cbn [effects emit with_files];
             rewrite Heff1, <- !app_assoc; reflexivity.
        -- exists false, w1, []. repeat split; try reflexivity; discriminate.
Qed.

(** C5. When the inference collaborator raises, or returns an empty
    description (or none), [rename_screenshot] returns [False], in a dry
    run or not, and renames nothing: the files are what they were, and
    the only action was the call of the collaborator. *)
Theorem inference_failure_leaves_file (env : Env) (file_path : Path) (dry_run : bool) (w : World) :
  infer env = InferenceRaises
  \/ infer env = InferenceReturns (Some [])
  \/ infer env = InferenceReturns None ->
  exists w', rename_screenshot env file_path dry_run w = Ok (false, w')
    /\ files w' = files w
    /\ effects w' = effects w ++ [Analyze file_path].
Proof.
  intros Hinfer.
  destruct (rename_screenshot_spec env file_path dry_run w)
    as (b & w' & rest & Hr & Heff & _ & Hfalsy & _).
  assert (Hf : falsy (description_of env) = true).
  { unfold description_of. destruct Hinfer as [-> | [-> | ->]]; reflexivity. }
  destruct (Hfalsy Hf) as (-> & Hfiles & ->).
  exists w'. repeat split; assumption.
Qed.

(** ** The pipeline when a test can be refused *)

(** The target is a path beside the file that the test does not find,
    unless a test is refused. *)
Lemma target_path_os_cases (refused : Path -> bool) (env : Env) (file_path : Path)
    (description : str) (fs : gmap Path Entry) :
  (exists new_path, target_path_os refused env file_path description fs = Ok new_path
     /\ exists_os refused fs new_path = Ok false
     /\ exists s, new_path = joinpath (parent file_path) s)
  \/ (target_path_os refused env file_path description fs = Raise OSError
      /\ exists q, refused q = true).
Proof.
  destruct (sanitize_filename_ok description default_max_length) as (clean & Hclean & _).
  unfold target_path_os. rewrite Hclean. cbn [mbind result_bind].
  set (candidate := joinpath (parent file_path)
         (strftime_ymd (today env) ++ [underscore] ++ clean ++ py_lower (suffix file_path))).
  destruct (get_unique_path_os_cases refused fs candidate)
    as [[H Hfree] | [(_ & k & _ & _ & [[H Hfree] | [H Href]]) | [H Href]]]; rewrite H.
  - left. exists candidate. split; [reflexivity |]. split; [exact Hfree |]. eexists. reflexivity.
  - left. eexists. split; [reflexivity |]. split; [exact Hfree |].
    unfold numbered, candidate. rewrite parent_joinpath. eexists. reflexivity.
  - right. split; [reflexivity |]. eexists. exact Href.
  - right. split; [reflexivity |]. eexists. exact Href.
Qed.

(** Every way through [rename_screenshot]. *)
Lemma rename_screenshot_os_cases (refused : Path -> bool) (env : Env) (file_path : Path)
    (dry_run : bool) (w : World) :
  let w1 := emit (Analyze file_path) w in
  match description_of env with
  | None | Some [] => rename_screenshot_os refused env file_path dry_run w = (Ok false, w1)
  | Some (c :: d) =>
      match target_path_os refused env file_path (c :: d) (files w) with
      | Ok new_path =>
          rename_screenshot_os refused env file_path dry_run w
          = if dry_run then (Ok true, w1)
            else match files w !! file_path with
                 | Some e =>
                     if rename_denied env then (Ok false, w1)
                     else (Ok true,
                           {| files := moved env file_path new_path (c :: d) e (files w);
                              effects := effects w
                                         ++ [Analyze file_path; Rename file_path new_path;
                                             Xattr new_path (c :: d)] |})
                 | None => (Ok false, w1)
                 end
      | Raise e => rename_screenshot_os refused env file_path dry_run w = (Raise e, w1)
      | OutOfFuel => rename_screenshot_os refused env file_path dry_run w = (OutOfFuel, w1)
      end
  end.
Proof.
  cbv zeta. unfold rename_screenshot_os, analyze_image, description_of.
  destruct (infer env) as [| [[|c d] |]]; cbv beta iota; cbn [falsy]; try reflexivity.
  cbn [text_of default]. change (id (c :: d)) with (c :: d). cbn [files emit].
  destruct (target_path_os refused env file_path (c :: d) (files w)) as [new_path | e |];
    [| reflexivity | reflexivity].
  destruct dry_run; [reflexivity |].
  unfold os_rename. cbn [files emit]. destruct (files w !! file_path) as [e |]; [| reflexivity].
  destruct (rename_denied env); [reflexivity |].
  cbn [set_finder_comment]. unfold moved.
  destruct (xattr_ok env); unfold with_files, emit; cbn [files effects];
    rewrite <- !app_assoc; reflexivity.
Qed.

(** Without refusals this is [rename_screenshot]. *)
Lemma rename_screenshot_os_unrefused (env : Env) (file_path : Path) (dry_run : bool) (w : World) :
  rename_screenshot env file_path dry_run w
  = match rename_screenshot_os (fun _ => false) env file_path dry_run w with
    | (Ok b, w') => Ok (b, w')
    | (Raise e, _) => Raise e
    | (OutOfFuel, _) => OutOfFuel
    end.
Proof.
  unfold rename_screenshot, rename_screenshot_os.
  destruct (analyze_image env file_path w) as [description w1].
  destruct (falsy description); [reflexivity |].
  assert (Ht : target_path_os (fun _ => false) env file_path (text_of description) (files w1)
               = target_path env file_path (text_of description) (files w1)).
  { unfold target_path_os, target_path.
    destruct (sanitize_filename (text_of description) default_max_length); try reflexivity.
    cbn [mbind result_bind]. apply get_unique_path_os_unrefused. }
  rewrite Ht.
  destruct (target_path env file_path (text_of description) (files w1)) as [new_path | e |];
    cbn [mbind result_bind]; try reflexivity.
  destruct dry_run; [reflexivity |].
  destruct (os_rename (rename_denied env) (files w1) file_path new_path) as [fs' | [|] |];
    reflexivity.
Qed.

(** C7, as the code has it. When the collaborator yields a non-empty
    description, a dry run of [rename_screenshot] changes nothing in the
    filesystem, however it ends: no rename and no metadata write happen,
    the files are what they were. It returns [True] when the existence
    tests of [get_unique_path] give a target, as they do when nothing is
    refused; otherwise the [OSError] of the refused test leaves it. *)
Theorem dry_run_changes_nothing (refused : Path -> bool) (env : Env) (file_path : Path)
    (w : World) (c : char) (d : str) :
  infer env = InferenceReturns (Some (c :: d)) ->
  exists out w',
    rename_screenshot_os refused env file_path true w = (out, w')
    /\ files w' = files w
    /\ effects w' = effects w ++ [Analyze file_path]
    /\ (out = Ok true \/ out = Raise OSError)
    /\ (out = Ok true <->
        exists new_path, target_path_os refused env file_path (c :: d) (files w) = Ok new_path)
    /\ ((forall q, refused q = false) -> out = Ok true).
Proof.
  intros Hinfer.
  pose proof (rename_screenshot_os_cases refused env file_path true w) as H. cbv zeta in H.
  unfold description_of in H. rewrite Hinfer in H.
  destruct (target_path_os_cases refused env file_path (c :: d) (files w))
    as [(new_path & Htp & _) | [Htp [q Hq]]]; rewrite Htp in H |- *.
  - exists (Ok true), (emit (Analyze file_path) w). split; [exact H |].
    split; [reflexivity |]. split; [reflexivity |]. split; [left; reflexivity |].
    split; [split; [intros _; eexists; reflexivity | reflexivity] | reflexivity].
  - exists (Raise OSError), (emit (Analyze file_path) w). split; [exact H |].
    split; [reflexivity |]. split; [reflexivity |]. split; [right; reflexivity |].
    split; [split; [discriminate | intros [new_path Hn]; discriminate] |].
    intros Hnone. rewrite Hnone in Hq. discriminate.
Qed.

(* ===================================================================== *)
(** * The watcher: claim C3 *)
(* ===================================================================== *)

(** One event: a path that passes the filters is added to the set, then
    the wait happens, then the pipeline runs at most once; the set after
    the event depends on the path and on the set before, and on nothing
    else. *)
Lemma handle_file_spec (wenv : WatchEnv) (file_path : Path) (self : Handler) (w : World) :
  exists self' w',
    handle_file wenv file_path (self, w) = Ok (self', w')
    /\ if passes_filters self file_path
       then processed self' = {[ path_str file_path ]} ∪ processed self
            /\ exists rest,
                 effects w' = effects w ++ Add (path_str file_path) :: Sleep :: rest
                 /\ (invocations rest = [] \/ invocations rest = [file_path])
                 /\ (path_exists (during_sleep wenv (files w)) file_path = false -> rest = [])
       else self' = self /\ w' = w.
Proof.
  unfold handle_file, passes_filters.
  destruct (is_image file_path); cbn [negb andb]; [| eauto].
  destruct (bool_decide (path_str file_path ∈ processed self)); cbn [negb andb]; [eauto |].
  destruct (looks_processed (name file_path)); cbn [negb]; [eauto |].
  cbn [files with_files emit effects].
  destruct (path_exists (during_sleep wenv (files w)) file_path) eqn:He; cbn [negb].
  - match goal with
    | |- context [rename_screenshot ?e ?p ?d ?w0] =>
        destruct (rename_screenshot_spec e p d w0) as (b & w' & rest & Hr & Heff & Hinv & _)
    end.
    rewrite Hr. cbn [mbind result_bind snd]. eexists _, w'. split; [reflexivity |].
    split; [reflexivity |]. exists (Analyze file_path :: rest).
    rewrite Heff. cbn [effects with_files emit]. rewrite <- !app_assoc. split; [reflexivity |].
    split; [right; cbn [invocations]; rewrite Hinv; reflexivity | discriminate].
  - eexists _, _. split; [reflexivity |]. split; [reflexivity |].
    exists []. cbn [effects with_files emit]. rewrite <- !app_assoc. repeat split. left. reflexivity.
Qed.

Lemma handle_file_invariant (wenv : WatchEnv) (file_path : Path) (st : Handler * World) :
  session_invariant st ->
  exists st', handle_file wenv file_path st = Ok st' /\ session_invariant st'
    /\ processed st.1 ⊆ processed st'.1.
Proof.
  destruct st as [self w]. intros [Hnd Hin].
  destruct (handle_file_spec wenv file_path self w) as (self' & w' & Hh & Hspec).
  exists (self', w'). split; [exact Hh |]. unfold session_invariant. cbn [fst snd] in *.
  destruct (passes_filters self file_path) eqn:Hpass.
  - destruct Hspec as (Hproc & rest & Heff & Hinv & _).
    unfold passes_filters in Hpass. rewrite !andb_true_iff in Hpass.
    destruct Hpass as [[_ Hnew] _]. apply negb_true_iff, bool_decide_eq_false in Hnew.
    split; [split |].
    + rewrite Heff, invocations_app. cbn [invocations].
      destruct Hinv as [-> | ->]; [rewrite app_nil_r; exact Hnd |].
      rewrite fmap_app. apply NoDup_app. split; [exact Hnd |].
      split; [| apply NoDup_singleton].
      intros k Hk Hk'. apply list_elem_of_singleton in Hk'. subst k.
      apply list_elem_of_fmap in Hk as (q & Hq & Hqin). apply Hin in Hqin.
      rewrite <- Hq in Hqin. contradiction.
    + intros q Hq. rewrite Hproc. rewrite Heff, invocations_app in Hq. cbn [invocations] in Hq.
      apply elem_of_app in Hq as [Hq | Hq]; [apply elem_of_union_r, Hin, Hq |].
      destruct Hinv as [Hinv | Hinv]; rewrite Hinv in Hq.
      * apply not_elem_of_nil in Hq. contradiction.
      * apply list_elem_of_singleton in Hq. subst q. apply elem_of_union_l, elem_of_singleton. reflexivity.
    + rewrite Hproc. apply union_subseteq_r.
  - destruct Hspec as [-> ->]. split; [split; assumption | reflexivity].
Qed.

Lemma run_session_invariant (events : list (WatchEnv * Path)) (st : Handler * World) :
  session_invariant st ->
  exists st', run_session events st = Ok st' /\ session_invariant st'
    /\ processed st.1 ⊆ processed st'.1.
Proof.
  revert st. induction events as [|[wenv file_path] events IH]; intros st Hinv.
  - exists st. split; [reflexivity |]. split; [exact Hinv | reflexivity].
  - destruct (handle_file_invariant wenv file_path st Hinv) as (st1 & H1 & Hinv1 & Hsub1).
    destruct (IH st1 Hinv1) as (st2 & H2 & Hinv2 & Hsub2).
    exists st2. cbn [run_session]. rewrite H1. cbn [mbind result_bind].
    split; [exact H2 |]. split; [exact Hinv2 |]. etrans; eassumption.
Qed.

(** C3. In a watch session, a path that passes the filters of
    [handle_file] is added to the set first; the debounce wait comes
    next and the pipeline after it, and the set after the event is the
    same whether the file is still there, and whatever the pipeline
    answers. Over a whole session, whatever happens to the files between
    and during the events, the pipeline runs at most once on each path
    string, and only on paths of the set. *)
Theorem watcher_runs_pipeline_once :
  (forall wenv file_path self w,
      exists self' w',
        handle_file wenv file_path (self, w) = Ok (self', w')
        /\ processed self'
           = (if passes_filters self file_path
              then {[ path_str file_path ]} ∪ processed self
              else processed self)
        /\ (passes_filters self file_path = true ->
            exists rest,
              effects w' = effects w ++ Add (path_str file_path) :: Sleep :: rest
              /\ (invocations rest = [] \/ invocations rest = [file_path])
              /\ (path_exists (during_sleep wenv (files w)) file_path = false -> rest = []))
        /\ (passes_filters self file_path = false -> w' = w))
  /\ (forall events fs,
        exists self w,
          run_session events ({| processed := ∅ |}, {| files := fs; effects := [] |}) = Ok (self, w)
          /\ NoDup (path_str <$> invocations (effects w))
          /\ forall q, q ∈ invocations (effects w) -> path_str q ∈ processed self).
Proof.
  split.
  - intros wenv file_path self w.
    destruct (handle_file_spec wenv file_path self w) as (self' & w' & Hh & Hspec).
    exists self', w'. split; [exact Hh |].
    destruct (passes_filters self file_path).
    + destruct Hspec as [Hproc Hrest]. split; [exact Hproc |].
      split; [intros _; exact Hrest | discriminate].
    + destruct Hspec as [-> ->]. split; [reflexivity |]. split; [discriminate | reflexivity].
  - intros events fs.
    destruct (run_session_invariant events ({| processed := ∅ |}, {| files := fs; effects := [] |}))
      as ([self w] & Hrun & [Hnd Hin] & _).
    + split; [constructor | intros q Hq; apply not_elem_of_nil in Hq; contradiction].
    + exists self, w. repeat split; assumption.
Qed.

(* ===================================================================== *)
(** * More about the sanitizer *)
(* ===================================================================== *)

(** Unfolds the character classes into comparisons for [lia]. *)
Ltac classes :=
  unfold imatch_char, ascii_lower, is_stem_char in *;
  unfold is_alnum in *;
  unfold is_lower_ascii, is_upper_ascii, is_digit_ascii, is_hyphen, is_space, is_quote,
    is_ascii in *;
  unfold in_range, hyphen, underscore, dot in *.

Lemma stem_char_ascii (c : char) : is_stem_char c = true -> is_ascii c = true.
Proof. classes. lia. Qed.

Lemma stem_char_lower (c : char) : is_stem_char c = true -> ascii_lower c = c.
Proof. classes. destruct ((65 <=? c)%N && (c <=? 90)%N) eqn:H; lia. Qed.

Lemma stem_char_not_space (c : char) :
  is_stem_char c = true -> is_space c || (c =? underscore)%N = false.
Proof. classes. lia. Qed.

Lemma stem_char_not_quote (c : char) : is_stem_char c = true -> is_quote c = false.
Proof. classes. lia. Qed.

Lemma stem_char_not_newline_quote (c q : char) :
  is_stem_char q = true -> (c =? 10)%N && is_quote q = false.
Proof. classes. lia. Qed.

Lemma stem_char_no_imatch (pc c : char) :
  (pc =? 58)%N || (pc =? 32)%N = true -> is_stem_char c = true -> imatch_char pc c = false.
Proof. classes. lia. Qed.

Lemma drop_while_id (p : char -> bool) (s : str) :
  (forall c, head s = Some c -> p c = false) -> drop_while p s = s.
Proof. destruct s as [|c s]; [reflexivity |]. intros H. cbn. rewrite (H c eq_refl). reflexivity. Qed.

Lemma head_rev (s : str) : head (rev s) = last s.
Proof.
  induction s as [|x l _] using rev_ind; [reflexivity |].
  rewrite rev_app_distr, last_snoc. reflexivity.
Qed.

(** Nothing is stripped from a text whose ends are not to be stripped. *)
Lemma strip_with_id (p : char -> bool) (s : str) :
  (forall c, head s = Some c -> p c = false) ->
  (forall c, last s = Some c -> p c = false) ->
  strip_with p s = s.
Proof.
  intros Hh Hl. unfold strip_with. rewrite (drop_while_id p s Hh).
  rewrite drop_while_id; [apply rev_involutive |].
  intros c Hc. apply Hl. rewrite <- head_rev. exact Hc.
Qed.

Lemma re_sub_runs_id (p : char -> bool) (rep : str) (b : bool) (t : str) :
  Forall (fun c => p c = false) t -> re_sub_runs p rep b t = t.
Proof.
  intros H. revert b. induction H as [|c t Hc _ IH]; intros b; cbn [re_sub_runs]; [reflexivity |].
  rewrite Hc, IH. reflexivity.
Qed.

(** Collapsing changes nothing where no two hyphens meet. *)
Lemma collapse_id (b : bool) (t : str) :
  no_double_hyphen t = true -> (b = true -> head t <> Some hyphen) ->
  re_sub_runs is_hyphen [hyphen] b t = t.
Proof.
  revert b. induction t as [|c t IH]; intros b Hnd Hb; cbn [re_sub_runs]; [reflexivity |].
  assert (Hnd' : no_double_hyphen t = true).
  { change (c :: t) with ([c] ++ t) in Hnd. apply no_double_hyphen_app in Hnd as [_ H]. exact H. }
  destruct (is_hyphen c) eqn:Hc.
  - apply is_hyphen_eq in Hc. subst c.
    destruct b; [exfalso; apply Hb; reflexivity |]. cbn [app]. f_equal.
    apply IH; [exact Hnd' |]. intros _ Hh.
    destruct t as [|c' t']; [discriminate |]. cbn in Hh. injection Hh as ->.
    cbn [no_double_hyphen] in Hnd. unfold is_hyphen in Hnd. rewrite N.eqb_refl in Hnd. discriminate.
  - f_equal. apply IH; [exact Hnd' | discriminate].
Qed.

Lemma re_delete_id (p : char -> bool) (t : str) :
  Forall (fun c => p c = false) t -> re_delete p t = t.
Proof.
  unfold re_delete. induction 1 as [|c t Hc _ IH]; cbn; [reflexivity |].
  rewrite Hc, IH. reflexivity.
Qed.

Lemma drop_final_quote_id (t : str) :
  Forall (fun c => is_stem_char c = true) t -> drop_final_quote t = t.
Proof.
  intros H. unfold drop_final_quote.
  assert (Hrev : Forall (fun c => is_stem_char c = true) (rev t)) by (apply Forall_rev; exact H).
  destruct (rev t) as [|c r]; [reflexivity |].
  apply Forall_cons in Hrev as [Hc Hr]. rewrite (stem_char_not_quote c Hc).
  destruct r as [|q r']; [reflexivity |].
  apply Forall_cons in Hr as [Hq _]. rewrite (stem_char_not_newline_quote c q Hq). reflexivity.
Qed.

Lemma re_sub_quotes_id (t : str) :
  Forall (fun c => is_stem_char c = true) t -> re_sub_quotes t = t.
Proof.
  destruct 1 as [|c t Hc Ht]; cbn [re_sub_quotes]; [reflexivity |].
  rewrite (stem_char_not_quote c Hc), (drop_final_quote_id t Ht). reflexivity.
Qed.

(** A phrase with a character that no character of the text can match
    does not match at the start of the text. *)
Lemma imatch_prefix_none (pat t : str) :
  existsb (fun pc => (pc =? 58)%N || (pc =? 32)%N) pat = true ->
  Forall (fun c => is_stem_char c = true) t ->
  imatch_prefix pat t = None.
Proof.
  intros Hpat Ht. revert pat Hpat. induction Ht as [|c t Hc _ IH]; intros pat Hpat.
  - destruct pat; [discriminate | reflexivity].
  - destruct pat as [|pc pat]; [discriminate |]. cbn [imatch_prefix existsb] in *.
    destruct ((pc =? 58)%N || (pc =? 32)%N) eqn:Hpc.
    + rewrite (stem_char_no_imatch pc c Hpc Hc). reflexivity.
    + destruct (imatch_char pc c); [apply IH; exact Hpat | reflexivity].
Qed.

Lemma re_sub_boilerplate_id (t : str) :
  Forall (fun c => is_stem_char c = true) t -> re_sub_boilerplate t = t.
Proof.
  intros Ht. unfold re_sub_boilerplate, boilerplate. cbn [first_alternative].
  rewrite !(imatch_prefix_none _ t) by (reflexivity || exact Ht). reflexivity.
Qed.

Lemma py_lower_stem (t : str) :
  Forall (fun c => is_stem_char c = true) t -> py_lower t = t.
Proof.
  intros Ht. unfold py_lower.
  replace (forallb is_ascii t) with true.
  - induction Ht as [|c t Hc _ IH]; cbn; [reflexivity |].
    rewrite (stem_char_lower c Hc), IH. reflexivity.
  - symmetry. apply List.forallb_forall. intros c Hc.
    rewrite Forall_forall in Ht. apply stem_char_ascii, Ht, list_elem_of_In, Hc.
Qed.

Lemma head_forall (P : char -> Prop) (s : str) (c : char) :
  Forall P s -> head s = Some c -> P c.
Proof. destruct 1; cbn; [discriminate |]. intros [= <-]. assumption. Qed.

Lemma last_forall (P : char -> Prop) (s : str) (c : char) :
  Forall P s -> last s = Some c -> P c.
Proof.
  intros H Hl. apply last_Some in Hl as [l' ->]. apply Forall_app in H as [_ H].
  apply Forall_cons in H as [H _]. exact H.
Qed.

(** The cleaning steps leave a text in stem form as it is. *)
Lemma sanitize_steps_id (r : str) :
  hyphenated r -> head r <> Some hyphen -> last r <> Some hyphen ->
  sanitize_steps r = r.
Proof.
  intros [Hall Hnd] Hhead Hlast. unfold sanitize_steps.
  rewrite (py_lower_stem r Hall).
  assert (Hsp : forall c, is_stem_char c = true -> is_space c = false).
  { intros c Hc. pose proof (stem_char_not_space c Hc) as H.
    apply orb_false_iff in H as [H _]. exact H. }
  unfold py_strip. rewrite (strip_with_id is_space r).
  2: { intros c Hc. apply Hsp. exact (head_forall _ r c Hall Hc). }
  2: { intros c Hc. apply Hsp. exact (last_forall _ r c Hall Hc). }
  rewrite (re_sub_quotes_id r Hall), (re_sub_boilerplate_id r Hall).
  rewrite (re_sub_runs_id _ [hyphen] false r).
  2: { eapply Forall_impl; [exact Hall |]. intros c Hc. apply stem_char_not_space. exact Hc. }
  rewrite (re_delete_id _ r).
  2: { eapply Forall_impl; [exact Hall |]. intros c Hc. cbn beta. rewrite Hc. reflexivity. }
  rewrite (collapse_id false r Hnd) by discriminate.
  apply strip_with_id; intros c Hc; apply is_hyphen_neq; congruence.
Qed.

(** A text in stem form that is short enough is returned as it is. *)
Lemma sanitize_fixed_point (r : str) (max_length : Z) :
  hyphenated r -> r <> [] -> head r <> Some hyphen -> last r <> Some hyphen ->
  len r <= max_length ->
  sanitize_filename r max_length = Ok r.
Proof.
  intros Hh Hne Hhead Hlast Hlen. unfold sanitize_filename, truncate.
  rewrite (sanitize_steps_id r Hh Hhead Hlast).
  replace (len r >? max_length) with false by (symmetry; rewrite Z.gtb_ltb; apply Z.ltb_ge; exact Hlen).
  cbn [mbind result_bind mret result_ret]. destruct r; [congruence | reflexivity].
Qed.

(** ** From the pattern to the shape *)

Lemma matches_class_inv (p : char -> bool) (s : str) :
  matches (Class p) s -> exists c, s = [c] /\ p c = true.
Proof. inversion 1; subst. eauto. Qed.

Lemma matches_star_class_inv (p : char -> bool) (s : str) :
  matches (Star (Class p)) s -> Forall (fun c => p c = true) s.
Proof.
  intros H. remember (Star (Class p)) as r eqn:Hr.
  induction H as [| | |r0 s1 s2 H1 _ H2 IH2]; try discriminate; [constructor |].
  injection Hr as ->. apply matches_class_inv in H1 as (c & -> & Hc).
  constructor; [exact Hc | apply IH2; reflexivity].
Qed.

Lemma matches_plus_class_inv (p : char -> bool) (s : str) :
  matches (Plus (Class p)) s -> s <> [] /\ Forall (fun c => p c = true) s.
Proof.
  unfold Plus. inversion 1 as [| ? ? s1 s2 H1 H2 | |]; subst.
  apply matches_class_inv in H1 as (c & -> & Hc). apply matches_star_class_inv in H2.
  split; [discriminate | constructor; assumption].
Qed.

Lemma alnum_stem_char (c : char) : is_alnum c = true -> is_stem_char c = true.
Proof. unfold is_stem_char. intros ->. reflexivity. Qed.

Lemma no_double_hyphen_cons_alnum (c : char) (s : str) :
  is_alnum c = true -> no_double_hyphen s = true -> no_double_hyphen (c :: s) = true.
Proof.
  intros Hc Hs. cbn [no_double_hyphen]. destruct s; [reflexivity |].
  rewrite (alnum_not_hyphen c Hc), Hs. reflexivity.
Qed.

(** A word followed by a tail that is empty or starts with one hyphen. *)
Lemma no_double_hyphen_word (w s : str) :
  Forall (fun c => is_alnum c = true) w -> no_double_hyphen s = true ->
  no_double_hyphen (w ++ s) = true.
Proof.
  induction 1 as [|c w Hc _ IH]; intros Hs; [exact Hs |].
  cbn [app]. apply no_double_hyphen_cons_alnum; [exact Hc | apply IH; exact Hs].
Qed.

Lemma last_app_nonempty (a b : str) : b <> [] -> last (a ++ b) = last b.
Proof.
  intros Hb. destruct (exists_last Hb) as (b' & x & ->).
  rewrite app_assoc, !last_snoc. reflexivity.
Qed.

Lemma matches_tail_shape (s : str) :
  matches (Star (Cat (Class is_hyphen) (Plus (Class is_alnum)))) s ->
  hyphenated s /\ (s = [] \/ head s = Some hyphen) /\ last s <> Some hyphen.
Proof.
  intros H. remember (Star (Cat (Class is_hyphen) (Plus (Class is_alnum)))) as r eqn:Hr.
  induction H as [| | |r0 s1 s2 H1 _ H2 IH2]; try discriminate.
  - split; [split; [constructor | reflexivity] |]. split; [left; reflexivity | discriminate].
  - injection Hr as ->. destruct (IH2 eq_refl) as ([Hall Hnd] & Hhd & Hlast).
    inversion H1 as [| ? ? h w Hh Hw | |]; subst.
    apply matches_class_inv in Hh as (c & -> & Hc). apply is_hyphen_eq in Hc. subst c.
    apply matches_plus_class_inv in Hw as [Hne Hw].
    assert (Hnd' : no_double_hyphen (w ++ s2) = true) by (apply no_double_hyphen_word; assumption).
    split; [split |]; [| | split].
    + cbn [app]. constructor; [reflexivity |]. apply Forall_app. split; [| exact Hall].
      eapply Forall_impl; [exact Hw |]. intros c. apply alnum_stem_char.
    + cbn [app no_double_hyphen]. destruct w as [|c w]; [congruence |]. cbn [app].
      apply Forall_cons in Hw as [Hc _]. rewrite (alnum_not_hyphen c Hc), andb_false_r. exact Hnd'.
    + right. reflexivity.
    + destruct s2 as [|x s2].
      * rewrite app_nil_r. cbn [app]. rewrite last_cons.
        destruct (last w) as [c|] eqn:Hw'; [| apply last_None in Hw'; congruence].
        intros [= ->]. pose proof (last_forall _ w hyphen Hw Hw') as Hc. cbv in Hc. discriminate.
      * rewrite last_app_nonempty by discriminate. exact Hlast.
Qed.

(** What the stem pattern matches has the stem form. *)
Lemma matches_stem_shape (s : str) :
  matches stem_re s ->
  hyphenated s /\ s <> [] /\ head s <> Some hyphen /\ last s <> Some hyphen.
Proof.
  unfold stem_re. inversion 1 as [| ? ? w rest Hw Hrest | |]; subst.
  apply matches_plus_class_inv in Hw as [Hne Hw].
  apply matches_tail_shape in Hrest as ([Hall Hnd] & Hhd & Hlast).
  split; [split |]; [| | split; [| split]].
  - apply Forall_app. split; [| exact Hall].
    eapply Forall_impl; [exact Hw |]. intros c. apply alnum_stem_char.
  - apply no_double_hyphen_word; assumption.
  - destruct w; [congruence | discriminate].
  - destruct w as [|c w]; [congruence |]. apply Forall_cons in Hw as [Hc _].
    cbn. intros [= ->]. cbv in Hc. discriminate.
  - destruct rest as [|x rest].
    + rewrite app_nil_r. intros Hl. pose proof (last_forall _ w hyphen Hw Hl) as Hc.
      cbv in Hc. discriminate.
    + rewrite last_app_nonempty by discriminate. exact Hlast.
Qed.

(** X1. A string that matches [^[a-z0-9]+(-[a-z0-9]+)*$] and has at most
    [max_length] characters is returned unchanged by [sanitize_filename]. *)
Theorem sanitize_filename_keeps_stems (r : str) (max_length : Z) :
  matches stem_re r -> len r <= max_length ->
  sanitize_filename r max_length = Ok r.
Proof.
  intros Hm Hlen. destruct (matches_stem_shape r Hm) as (Hh & Hne & Hhead & Hlast).
  apply sanitize_fixed_point; assumption.
Qed.

(** X2. For a [max_length] of at least 10, [sanitize_filename] is
    idempotent: sanitizing a result again returns it. *)
Theorem sanitize_filename_idempotent (text : str) (max_length : Z) (r : str) :
  10 <= max_length ->
  sanitize_filename text max_length = Ok r ->
  sanitize_filename r max_length = Ok r.
Proof.
  intros H10 Hr.
  destruct (sanitize_steps_shape text) as (Hh & Hhead & Hlast).
  destruct (truncate_shape _ max_length Hh Hhead Hlast)
    as (r0 & Hr0 & Hrh & Hrhead & Hrlast & (post & Hpost) & Hbound).
  rewrite (sanitize_filename_unfold text max_length r0 Hr0) in Hr. injection Hr as <-.
  destruct r0 as [|c r0]; cbn [or_fallback].
  - apply sanitize_fixed_point; try discriminate.
    + split; [apply List.Forall_forall, (List.forallb_forall is_stem_char fallback) |]; reflexivity.
    + change (len fallback) with 10. exact H10.
  - apply sanitize_fixed_point; try assumption; [discriminate |].
    destruct (Z.le_gt_cases (len (sanitize_steps text)) max_length) as [Hle | Hgt].
    + rewrite Hpost, len_app in Hle. pose proof (len_nonneg post). lia.
    + apply Hbound; lia.
Qed.

(** ** Texts without a letter or a digit *)

Section Preserved.

(** A property of characters that the hyphen has: every cleaning step
    after the lowering keeps it, since a step only removes characters or
    puts hyphens in. *)
Variable P : char -> Prop.
Hypothesis P_hyphen : P hyphen.

Lemma strip_with_forall (p : char -> bool) (s : str) :
  Forall P s -> Forall P (strip_with p s).
Proof using Type.
  intros H. destruct (strip_with_infix p s) as (pre & post & Heq).
  rewrite Heq in H. apply Forall_app in H as [_ H]. apply Forall_app in H as [H _]. exact H.
Qed.

Lemma drop_final_quote_forall (t : str) : Forall P t -> Forall P (drop_final_quote t).
Proof using Type.
  intros H. unfold drop_final_quote.
  assert (Hrev : Forall P (rev t)) by (apply Forall_rev; exact H).
  destruct (rev t) as [|c r]; [exact H |].
  apply Forall_cons in Hrev as [Hc Hr].
  destruct (is_quote c); [apply Forall_rev; exact Hr |].
  destruct r as [|q r']; [exact H |].
  destruct ((c =? 10)%N && is_quote q); [| exact H].
  apply Forall_cons in Hr as [_ Hr']. apply Forall_rev. constructor; assumption.
Qed.

Lemma re_sub_quotes_forall (t : str) : Forall P t -> Forall P (re_sub_quotes t).
Proof using Type.
  destruct 1 as [|c t Hc Ht]; cbn [re_sub_quotes]; [constructor |].
  destruct (is_quote c); [| constructor; [exact Hc |]]; apply drop_final_quote_forall; exact Ht.
Qed.

Lemma imatch_prefix_forall (pat t rest : str) :
  imatch_prefix pat t = Some rest -> Forall P t -> Forall P rest.
Proof using Type.
  revert t. induction pat as [|pc pat IH]; intros t; cbn [imatch_prefix].
  - intros [= ->] H. exact H.
  - destruct t as [|c t]; [discriminate |]. destruct (imatch_char pc c); [| discriminate].
    intros Hm H. apply Forall_cons in H as [_ H]. exact (IH t Hm H).
Qed.

Lemma drop_while_forall (p : char -> bool) (s : str) :
  Forall P s -> Forall P (drop_while p s).
Proof using Type.
  intros H. destruct (drop_while_suffix p s) as (pre & Heq & _).
  rewrite Heq in H. apply Forall_app in H as [_ H]. exact H.
Qed.

Lemma re_sub_boilerplate_forall (t : str) : Forall P t -> Forall P (re_sub_boilerplate t).
Proof using Type.
  intros H. unfold re_sub_boilerplate.
  assert (Hfirst : forall alts rest, first_alternative alts t = Some rest -> Forall P rest).
  { induction alts as [|a alts IH]; intros rest; cbn [first_alternative]; [discriminate |].
    destruct (imatch_prefix a t) as [rest' |] eqn:Hm; [| apply IH].
    intros [= <-]. exact (imatch_prefix_forall a t rest' Hm H). }
  destruct (first_alternative boilerplate t) as [rest |] eqn:Hf; [| exact H].
  apply drop_while_forall. exact (Hfirst _ _ Hf).
Qed.

Lemma re_sub_runs_forall (p : char -> bool) (b : bool) (t : str) :
  Forall P t -> Forall P (re_sub_runs p [hyphen] b t).
Proof using P_hyphen.
  intros H. revert b. induction H as [|c t Hc _ IH]; intros b; cbn [re_sub_runs]; [constructor |].
  destruct (p c); [| constructor; [exact Hc | apply IH]].
  destruct b; cbn [app]; [apply IH | constructor; [exact P_hyphen | apply IH]].
Qed.

Lemma re_delete_forall (p : char -> bool) (t : str) : Forall P t -> Forall P (re_delete p t).
Proof using Type.
  unfold re_delete. induction 1 as [|c t Hc _ IH]; cbn; [constructor |].
  destruct (negb (p c)); [constructor |]; assumption.
Qed.

(** The cleaning steps keep the property, from the lowered text on. *)
Lemma sanitize_steps_forall (text : str) :
  Forall P (py_lower text) -> Forall P (sanitize_steps text).
Proof using P_hyphen.
  intros H. unfold sanitize_steps, py_strip.
  apply strip_with_forall, re_sub_runs_forall, re_delete_forall, re_sub_runs_forall,
    re_sub_boilerplate_forall, re_sub_quotes_forall, strip_with_forall. exact H.
Qed.

End Preserved.

Lemma truncate_nil (max_length : Z) : truncate [] max_length = Ok [].
Proof.
  unfold truncate. destruct (len [] >? max_length); [| reflexivity].
  unfold py_slice_to. destruct (max_length <? 0); rewrite take_nil; reflexivity.
Qed.

(** X3. An ASCII text without a letter and without a digit (the empty
    text, blanks, punctuation) is sanitized to the fallback
    ["screenshot"], whatever [max_length] is. *)
Theorem sanitize_filename_without_alnum (text : str) (max_length : Z) :
  Forall (fun c => is_ascii c = true /\ is_alnum (ascii_lower c) = false) text ->
  sanitize_filename text max_length = Ok fallback.
Proof.
  intros H.
  assert (Hlow : Forall (fun c => is_alnum c = false) (py_lower text)).
  { unfold py_lower. replace (forallb is_ascii text) with true.
    - apply Forall_fmap. eapply Forall_impl; [exact H |]. intros c [_ Hc]. exact Hc.
    - symmetry. apply List.forallb_forall. intros c Hc.
      rewrite Forall_forall in H. apply H, list_elem_of_In, Hc. }
  pose proof (sanitize_steps_forall (fun c => is_alnum c = false) eq_refl text Hlow) as Hno.
  destruct (sanitize_steps_shape text) as ([Hall _] & Hhead & _).
  assert (Hnil : sanitize_steps text = []).
  { destruct (sanitize_steps text) as [|c t]; [reflexivity |]. exfalso. apply Hhead.
    apply Forall_cons in Hno as [Hc _]. apply Forall_cons in Hall as [Hs _].
    unfold is_stem_char in Hs. rewrite Hc in Hs. cbn in Hs. apply is_hyphen_eq in Hs.
    subst c. reflexivity. }
  unfold sanitize_filename. rewrite Hnil, truncate_nil. reflexivity.
Qed.

(* ===================================================================== *)
(** * More about the unique path resolver *)
(* ===================================================================== *)

(** X4. The result of [get_unique_path] depends on the filesystem only
    through the existence of the candidate and of its numbered variants:
    two filesystems that agree on those give the same path, whatever
    else they hold. *)
Theorem get_unique_path_local (fs1 fs2 : gmap Path Entry) (base_path : Path) :
  path_exists fs1 base_path = path_exists fs2 base_path ->
  (forall k, path_exists fs1 (numbered base_path k) = path_exists fs2 (numbered base_path k)) ->
  get_unique_path fs1 base_path = get_unique_path fs2 base_path.
Proof.
  intros Hbase Hnum.
  destruct (get_unique_path_total fs1 base_path) as (p1 & Hp1 & Hfree1 & Hcase1).
  destruct (get_unique_path_total fs2 base_path) as (p2 & Hp2 & Hfree2 & Hcase2).
  rewrite Hp1, Hp2. f_equal.
  destruct Hcase1 as [[-> He1] | (He1 & k1 & Hk1 & -> & Hbusy1)];
    destruct Hcase2 as [[-> He2] | (He2 & k2 & Hk2 & -> & Hbusy2)]; try congruence.
  f_equal. destruct (N.lt_trichotomy k1 k2) as [Hlt | [Heq | Hgt]]; [| exact Heq |].
  - rewrite Hnum, Hbusy2 in Hfree1 by lia. discriminate.
  - rewrite <- Hnum, Hbusy1 in Hfree2 by lia. discriminate.
Qed.

Lemma path_exists_insert (fs : gmap Path Entry) (p q : Path) (e : Entry) :
  path_exists (<[p := e]> fs) q = if decide (p = q) then true else path_exists fs q.
Proof.
  unfold path_exists. rewrite lookup_insert. destruct (decide (p = q)); [| reflexivity].
  apply bool_decide_eq_true. eauto.
Qed.

(** X5. Once a file is created at the path [get_unique_path] returned,
    the next call for the same candidate returns or lets the [OSError]
    of a refused test escape; a path it returns is a numbered variant
    other than the first path, free before and after, and with a higher
    number when the first one was numbered. *)
Theorem get_unique_path_next (refused refused' : Path -> bool) (fs : gmap Path Entry)
    (base_path p : Path) (e : Entry) :
  get_unique_path_os refused fs base_path = Ok p ->
  ((exists p', get_unique_path_os refused' (<[p := e]> fs) base_path = Ok p')
   \/ get_unique_path_os refused' (<[p := e]> fs) base_path = Raise OSError)
  /\ (forall p', get_unique_path_os refused' (<[p := e]> fs) base_path = Ok p' ->
      p' <> p
      /\ path_exists fs p' = false
      /\ path_exists (<[p := e]> fs) p' = false
      /\ exists k, (1 <= k)%N /\ p' = numbered base_path k
         /\ forall j, p = numbered base_path j -> path_exists fs base_path = true -> (j < k)%N).
Proof.
  intros Hp.
  pose proof (get_unique_path_os_cases refused' (<[p := e]> fs) base_path) as Hnext.
  split.
  - destruct Hnext as [[H _] | [(_ & k & _ & _ & [[H _] | [H _]]) | [H _]]];
      [left; eexists; exact H | left; eexists; exact H | right; exact H | right; exact H].
  - intros p' Hp'.
    assert (Hbase : path_exists (<[p := e]> fs) base_path = true).
    { rewrite path_exists_insert. destruct (decide (p = base_path)); [reflexivity |].
      destruct (get_unique_path_os_cases refused fs base_path)
        as [[H _] | [(He & _) | [H _]]]; [congruence | | congruence].
      apply exists_os_ok in He. apply He. }
    destruct Hnext as [[_ Hfree] | [(_ & k & Hk & Hbusy' & [[H Hfree] | [H _]]) | [H _]]];
      [apply exists_os_ok in Hfree; destruct Hfree as [_ Hfree]; congruence
      | | congruence | congruence].
    rewrite H in Hp'. injection Hp' as <-.
    apply exists_os_ok in Hfree. destruct Hfree as [_ Hfree].
    assert (Hfree0 : path_exists fs (numbered base_path k) = false
                     /\ numbered base_path k <> p).
    { rewrite path_exists_insert in Hfree.
      destruct (decide (p = numbered base_path k)); [discriminate |]. split; congruence. }
    destruct Hfree0 as [Hfree0 Hne].
    split; [exact Hne |]. split; [exact Hfree0 |]. split; [exact Hfree |].
    exists k. split; [exact Hk |]. split; [reflexivity |].
    intros j -> He. destruct (N.lt_trichotomy j k) as [Hlt | [-> | Hgt]]; [exact Hlt | congruence |].
    exfalso.
    destruct (get_unique_path_os_cases refused fs base_path)
      as [[_ Hno] | [(_ & j0 & Hj0 & Hbusy & [[H0 _] | [H0 _]]) | [H0 _]]]; try congruence.
    + apply exists_os_ok in Hno. destruct Hno as [_ Hno]. congruence.
    + rewrite H0 in Hp. assert (Hj : numbered base_path j0 = numbered base_path j) by congruence.
      apply numbered_inj in Hj. subst j0.
      specialize (Hbusy k ltac:(lia)). apply exists_os_ok in Hbusy. destruct Hbusy as [_ Hbusy].
      congruence.
Qed.

(* ===================================================================== *)
(** * More about the rename pipeline *)
(* ===================================================================== *)

Lemma joinpath_parts (p : Path) (s : str) : parts (joinpath p s) <> [].
Proof. unfold joinpath. cbn. destruct (parts p); discriminate. Qed.

(** The target is a free path beside the file. *)
Lemma target_path_child (env : Env) (file_path : Path) (description : str)
    (fs : gmap Path Entry) (new_path : Path) :
  target_path env file_path description fs = Ok new_path ->
  path_exists fs new_path = false
  /\ parent new_path = parent file_path
  /\ parts new_path <> [].
Proof.
  intros H. destruct (sanitize_filename_ok description default_max_length) as (clean & Hc & _).
  unfold target_path in H. rewrite Hc in H. cbn [mbind result_bind] in H.
  match type of H with
  | get_unique_path _ ?cand = _ =>
      destruct (get_unique_path_total fs cand) as (p & Hp & Hfree & Hcase)
  end.
  rewrite Hp in H. injection H as <-. split; [exact Hfree |].
  destruct Hcase as [[-> _] | (_ & k & _ & -> & _)].
  - split; [apply parent_joinpath | apply joinpath_parts].
  - split; [rewrite parent_numbered; apply parent_joinpath | apply joinpath_parts].
Qed.

Lemma path_exists_false (fs : gmap Path Entry) (p : Path) :
  path_exists fs p = false <-> fs !! p = None.
Proof.
  unfold path_exists. rewrite bool_decide_eq_false, <- eq_None_not_Some. reflexivity.
Qed.

(** Every way through [rename_screenshot]. *)
Lemma rename_screenshot_cases (env : Env) (file_path : Path) (dry_run : bool) (w : World) :
  let w1 := emit (Analyze file_path) w in
  match description_of env with
  | None | Some [] => rename_screenshot env file_path dry_run w = Ok (false, w1)
  | Some (c :: d) =>
      exists new_path,
        target_path env file_path (c :: d) (files w) = Ok new_path
        /\ rename_screenshot env file_path dry_run w
           = if dry_run then Ok (true, w1)
             else match files w !! file_path with
                  | Some e =>
                      if rename_denied env then Ok (false, w1)
                      else Ok (true,
                               {| files := moved env file_path new_path (c :: d) e (files w);
                                  effects := effects w
                                             ++ [Analyze file_path; Rename file_path new_path;
                                                 Xattr new_path (c :: d)] |})
                  | None => Ok (false, w1)
                  end
  end.
Proof.
  cbv zeta. unfold rename_screenshot, analyze_image, description_of.
  destruct (infer env) as [| [[|c d] |]]; cbv beta iota; cbn [falsy]; try reflexivity.
  cbn [text_of default]. change (id (c :: d)) with (c :: d).
  destruct (target_path_spec env file_path (c :: d) (files w))
    as (clean & new_path & _ & Htp & _).
  exists new_path. split; [exact Htp |].
  cbn [files emit]. rewrite Htp. cbn [mbind result_bind].
  destruct dry_run; [reflexivity |].
  unfold os_rename. cbn [files emit]. destruct (files w !! file_path) as [e |]; [| reflexivity].
  destruct (rename_denied env); [reflexivity |].
  cbn [set_finder_comment]. unfold moved.
  destruct (xattr_ok env); unfold with_files, emit; cbn [files effects];
    rewrite <- !app_assoc; reflexivity.
Qed.

(** X6. [rename_screenshot] returns a boolean, or lets the [OSError]
    of a refused existence test of [get_unique_path] escape, and nothing
    else: it returns when nothing is refused. It returns [True] exactly
    when the collaborator gave a non-empty description, the tests gave a
    target, and either the run is a dry run or the rename to that target
    raised no [OSError]. Unless it returns [True] no file has changed. *)
Theorem rename_screenshot_returns (refused : Path -> bool) (env : Env) (file_path : Path)
    (dry_run : bool) (w : World) :
  exists out w',
    rename_screenshot_os refused env file_path dry_run w = (out, w')
    /\ (out = Ok true \/ out = Ok false \/ out = Raise OSError)
    /\ (out = Raise OSError <->
        exists c d, infer env = InferenceReturns (Some (c :: d))
          /\ target_path_os refused env file_path (c :: d) (files w) = Raise OSError)
    /\ (out = Ok true <->
        exists c d new_path, infer env = InferenceReturns (Some (c :: d))
          /\ target_path_os refused env file_path (c :: d) (files w) = Ok new_path
          /\ (dry_run = true
              \/ exists fs',
                   os_rename (rename_denied env) (files w) file_path new_path = Ok fs'))
    /\ (out <> Ok true -> files w' = files w)
    /\ ((forall q, refused q = false) -> out <> Raise OSError).
Proof.
  pose proof (rename_screenshot_os_cases refused env file_path dry_run w) as H. cbv zeta in H.
  unfold description_of in H.
  destruct (infer env) as [| [[|c d] |]].
  1, 2, 4: (eexists (Ok false), _; split; [exact H |]; split; [right; left; reflexivity |];
            split; [split; [discriminate | intros (c & d & Hcd & _); discriminate] |];
            split; [split; [discriminate | intros (c & d & n & Hcd & _); discriminate] |];
            split; [reflexivity | discriminate]).
  destruct (target_path_os_cases refused env file_path (c :: d) (files w))
    as [(new_path & Htp & _) | [Htp [q Hq]]]; rewrite Htp in H.
  - assert (Hraise : forall out : result bool, out <> Raise OSError ->
              out = Raise OSError <->
              exists c0 d0, InferenceReturns (Some (c :: d)) = InferenceReturns (Some (c0 :: d0))
                /\ target_path_os refused env file_path (c0 :: d0) (files w) = Raise OSError).
    { intros out Hout. split; [contradiction |]. intros (c0 & d0 & [= <- <-] & Hr). congruence. }
    assert (Htrue : forall P : Path -> Prop, P new_path ->
              Ok true = Ok true <->
              exists c0 d0 n, InferenceReturns (Some (c :: d)) = InferenceReturns (Some (c0 :: d0))
                /\ target_path_os refused env file_path (c0 :: d0) (files w) = Ok n /\ P n).
    { intros P HP. split; [| reflexivity]. intros _. exists c, d, new_path. auto. }
    assert (Hfalse : forall P : Path -> Prop, ~ P new_path ->
              @Ok bool false = Ok true <->
              exists c0 d0 n, InferenceReturns (Some (c :: d)) = InferenceReturns (Some (c0 :: d0))
                /\ target_path_os refused env file_path (c0 :: d0) (files w) = Ok n /\ P n).
    { intros P HP. split; [discriminate |]. intros (c0 & d0 & n & [= <- <-] & Hn & HP').
      rewrite Htp in Hn. injection Hn as <-. contradiction. }
    rewrite H. clear H.
    destruct dry_run.
    { eexists (Ok true), _. split; [reflexivity |]. split; [left; reflexivity |].
      split; [apply Hraise; discriminate |].
      split; [apply (Htrue (fun n => true = true \/ _)); left; reflexivity |].
      split; [congruence | discriminate]. }
    unfold os_rename. destruct (files w !! file_path) as [e |] eqn:He.
    + destruct (rename_denied env).
      * eexists (Ok false), _. split; [reflexivity |]. split; [right; left; reflexivity |].
        split; [apply Hraise; discriminate |].
        split; [apply (Hfalse (fun n => false = true \/ exists fs', Raise OSError = Ok fs'));
                intros [Hd | [fs' Hd]]; discriminate |].
        split; [reflexivity | discriminate].
      * eexists (Ok true), _. split; [reflexivity |]. split; [left; reflexivity |].
        split; [apply Hraise; discriminate |].
        split; [apply (Htrue (fun n => false = true
                                       \/ exists fs', Ok (<[n := e]> (delete file_path (files w)))
                                                      = Ok fs'));
                right; eexists; reflexivity |].
        split; [congruence | discriminate].
    + eexists (Ok false), _. split; [reflexivity |]. split; [right; left; reflexivity |].
      split; [apply Hraise; discriminate |].
      split; [apply (Hfalse (fun n => false = true \/ exists fs', Raise OSError = Ok fs'));
              intros [Hd | [fs' Hd]]; discriminate |].
      split; [reflexivity | discriminate].
  - eexists (Raise OSError), _. split; [exact H |]. split; [right; right; reflexivity |].
    split; [split; [intros _; exists c, d; split; [reflexivity | exact Htp] | reflexivity] |].
    split; [split; [discriminate | intros (c0 & d0 & n & [= <- <-] & Hn & _); congruence] |].
    split; [reflexivity |]. intros Hnone. rewrite Hnone in Hq. discriminate.
Qed.

Lemma moved_lookup (env : Env) (file_path new_path : Path) (comment : str) (e : Entry)
    (fs : gmap Path Entry) (q : Path) :
  file_path <> new_path ->
  moved env file_path new_path comment e fs !! q
  = if decide (q = new_path)
    then Some (if xattr_ok env then set_comment comment e else e)
    else if decide (q = file_path) then None else fs !! q.
Proof.
  intros Hne. unfold moved.
  assert (Hbase : (<[new_path := e]> (delete file_path fs)) !! q
                  = if decide (q = new_path) then Some e
                    else if decide (q = file_path) then None else fs !! q).
  { rewrite lookup_insert, lookup_delete.
    destruct (decide (new_path = q)), (decide (q = new_path)); try congruence.
    destruct (decide (file_path = q)), (decide (q = file_path)); congruence. }
  destruct (xattr_ok env); [| exact Hbase].
  rewrite lookup_alter. destruct (decide (new_path = q)) as [<- | Hq].
  - rewrite lookup_insert_eq. destruct (decide (new_path = new_path)); [reflexivity | congruence].
  - rewrite Hbase. destruct (decide (q = new_path)); [congruence | reflexivity].
Qed.

(** X7. A successful rename: with a non-empty description, an existing
    file and no refusal, [rename_screenshot] returns [True]; the file is
    gone from its path and its entry, with the same kind and bytes, is at
    the target path beside it, carrying the description as Finder comment
    when [xattr] succeeds; every other path is as before. *)
Theorem rename_screenshot_moves (env : Env) (file_path : Path) (w : World)
    (c : char) (d : str) (e : Entry) :
  infer env = InferenceReturns (Some (c :: d)) ->
  files w !! file_path = Some e ->
  rename_denied env = false ->
  exists new_path w',
    rename_screenshot env file_path false w = Ok (true, w')
    /\ target_path env file_path (c :: d) (files w) = Ok new_path
    /\ new_path <> file_path
    /\ parent new_path = parent file_path
    /\ files w !! new_path = None
    /\ files w' !! file_path = None
    /\ files w' !! new_path
       = Some {| entry_kind := entry_kind e; content := content e;
                 finder_comment := if xattr_ok env then Some (c :: d) else finder_comment e |}
    /\ forall q, q <> file_path -> q <> new_path -> files w' !! q = files w !! q.
Proof.
  intros Hinfer He Hden.
  pose proof (rename_screenshot_cases env file_path false w) as H. cbv zeta in H.
  unfold description_of in H. rewrite Hinfer, He, Hden in H.
  destruct H as (new_path & Htp & H).
  destruct (target_path_child _ _ _ _ _ Htp) as (Hfree & Hparent & _).
  apply path_exists_false in Hfree.
  assert (Hne : file_path <> new_path) by congruence.
  eexists new_path, _. split; [exact H |]. split; [exact Htp |].
  split; [congruence |]. split; [exact Hparent |]. split; [exact Hfree |].
  cbn [files]. split; [| split].
  - rewrite moved_lookup by exact Hne.
    destruct (decide (file_path = new_path)); [congruence |].
    destruct (decide (file_path = file_path)); [reflexivity | congruence].
  - rewrite moved_lookup by exact Hne.
    destruct (decide (new_path = new_path)); [| congruence].
    destruct (xattr_ok env); [reflexivity | destruct e; reflexivity].
  - intros q Hq1 Hq2. rewrite moved_lookup by exact Hne.
    destruct (decide (q = new_path)); [congruence |].
    destruct (decide (q = file_path)); [congruence | reflexivity].
Qed.

(* ===================================================================== *)
(** * More about the watcher *)
(* ===================================================================== *)

(** A path that the filters stop is left alone, and stays stopped while
    the set grows. *)
Lemma handle_file_stopped (wenv : WatchEnv) (file_path : Path) (st : Handler * World) :
  passes_filters st.1 file_path = false -> handle_file wenv file_path st = Ok st.
Proof.
  destruct st as [self w]. cbn [fst]. intros Hpass.
  destruct (handle_file_spec wenv file_path self w) as (self' & w' & Hh & Hspec).
  rewrite Hpass in Hspec. destruct Hspec as [-> ->]. exact Hh.
Qed.

Lemma passes_filters_mono (self self' : Handler) (file_path : Path) :
  processed self ⊆ processed self' ->
  passes_filters self file_path = false -> passes_filters self' file_path = false.
Proof.
  unfold passes_filters. intros Hsub H.
  destruct (is_image file_path); cbn [andb] in *; [| reflexivity].
  destruct (looks_processed (name file_path)); cbn [negb] in *; [apply andb_false_r |].
  rewrite andb_true_r in *. apply negb_false_iff in H. apply negb_false_iff.
  apply bool_decide_eq_true in H. apply bool_decide_eq_true. apply Hsub. exact H.
Qed.

(** One event: the set only grows, and the path of the event is stopped
    by the filters from then on. *)
Lemma handle_file_grows (wenv : WatchEnv) (file_path : Path) (st st1 : Handler * World) :
  handle_file wenv file_path st = Ok st1 ->
  processed st.1 ⊆ processed st1.1 /\ passes_filters st1.1 file_path = false.
Proof.
  destruct st as [self w]. intros H.
  destruct (handle_file_spec wenv file_path self w) as (self' & w' & Hh & Hspec).
  rewrite Hh in H. injection H as <-. cbn [fst].
  destruct (passes_filters self file_path) eqn:Hpass.
  - destruct Hspec as [Hproc _]. rewrite Hproc. split; [apply union_subseteq_r |].
    unfold passes_filters. rewrite Hproc.
    rewrite (bool_decide_eq_true_2 (path_str file_path ∈ {[path_str file_path]} ∪ processed self))
      by (apply elem_of_union_l, elem_of_singleton; reflexivity).
    cbn [negb]. rewrite andb_false_r. reflexivity.
  - destruct Hspec as [-> ->]. split; [reflexivity | exact Hpass].
Qed.

Lemma dispatch_handle_file (wenv : WatchEnv) (entry : entry_point) (event : Event)
    (st : Handler * World) :
  dispatch wenv entry event st
  = if is_directory event then Ok st else handle_file wenv (src_path event) st.
Proof. destruct entry; reflexivity. Qed.

Lemma run_events_grows (calls : list (WatchEnv * entry_point * Event)) (st st' : Handler * World) :
  run_events calls st = Ok st' -> processed st.1 ⊆ processed st'.1.
Proof.
  revert st. induction calls as [|[[wenv entry] event] calls IH]; intros st; cbn [run_events].
  - intros [= <-]. reflexivity.
  - rewrite dispatch_handle_file.
    destruct (is_directory event); cbn [mbind result_bind]; [apply IH |].
    destruct (handle_file wenv (src_path event) st) as [st1 | e |] eqn:Hh;
      cbn [mbind result_bind]; try discriminate.
    intros H. etransitivity; [exact (proj1 (handle_file_grows _ _ _ _ Hh)) | exact (IH _ H)].
Qed.

(** X10. The creation event and the modification event of one file:
    once [on_created] or [on_modified] has returned from an event that is
    not about a directory, every later [on_created] or [on_modified] for
    the same path, whatever the events in between and whatever its own
    directory flag, returns with the set and the filesystem as they
    were: the pipeline does not run again and nothing is renamed again. *)
Theorem created_then_modified (wenv0 : WatchEnv) (entry0 : entry_point) (event : Event)
    (calls : list (WatchEnv * entry_point * Event)) (st st1 st2 : Handler * World) :
  is_directory event = false ->
  dispatch wenv0 entry0 event st = Ok st1 ->
  run_events calls st1 = Ok st2 ->
  forall wenv entry event', src_path event' = src_path event ->
    dispatch wenv entry event' st2 = Ok st2.
Proof.
  intros Hfile Hfirst Hmid wenv entry event' Hsame.
  rewrite dispatch_handle_file in Hfirst. rewrite Hfile in Hfirst.
  rewrite dispatch_handle_file. destruct (is_directory event'); [reflexivity |].
  rewrite Hsame. apply handle_file_stopped.
  apply (passes_filters_mono st1.1); [exact (run_events_grows _ _ _ Hmid) |].
  exact (proj2 (handle_file_grows _ _ _ _ Hfirst)).
Qed.

(** X11. In a watch session the pipeline only runs on paths that came
    with an event, have an image extension and a name without the date
    prefix; the set of seen paths never loses a member and only gains
    strings of such event paths. *)
Theorem session_runs_on_fresh_images (events : list (WatchEnv * Path)) (st st' : Handler * World) :
  run_session events st = Ok st' ->
  (forall q, q ∈ invocations (effects st'.2) ->
     q ∈ invocations (effects st.2)
     \/ (q ∈ events.*2 /\ is_image q = true /\ looks_processed (name q) = false))
  /\ processed st.1 ⊆ processed st'.1
  /\ (forall k, k ∈ processed st'.1 ->
        k ∈ processed st.1
        \/ exists q, q ∈ events.*2 /\ k = path_str q
             /\ is_image q = true /\ looks_processed (name q) = false).
Proof.
  revert st. induction events as [|[wenv p] events IH]; intros st; cbn [run_session].
  - intros [= <-]. split; [auto |]. split; [reflexivity | auto].
  - destruct st as [self w].
    destruct (handle_file_spec wenv p self w) as (self1 & w1 & Hh & Hspec).
    rewrite Hh. cbn [mbind result_bind]. intros Hrun.
    destruct (IH _ Hrun) as (Hinv & Hsub & Hproc). cbn [fst snd] in *.
    rewrite fmap_cons. cbn [snd].
    assert (Hstep : (forall q, q ∈ invocations (effects w1) ->
                       q ∈ invocations (effects w)
                       \/ (q = p /\ is_image q = true /\ looks_processed (name q) = false))
                    /\ processed self ⊆ processed self1
                    /\ (forall k, k ∈ processed self1 ->
                          k ∈ processed self
                          \/ (k = path_str p /\ is_image p = true
                              /\ looks_processed (name p) = false))).
    { destruct (passes_filters self p) eqn:Hpass.
      - destruct Hspec as (Hp & rest & Heff & Hrest & _).
        unfold passes_filters in Hpass. rewrite !andb_true_iff, !negb_true_iff in Hpass.
        destruct Hpass as [[Himg _] Hlooks].
        split; [| split].
        + intros q Hq. rewrite Heff, invocations_app in Hq. cbn [invocations] in Hq.
          apply elem_of_app in Hq as [Hq | Hq]; [left; exact Hq |].
          destruct Hrest as [Hr | Hr]; rewrite Hr in Hq.
          * apply not_elem_of_nil in Hq. contradiction.
          * apply list_elem_of_singleton in Hq. subst q. right. auto.
        + rewrite Hp. apply union_subseteq_r.
        + intros k Hk. rewrite Hp in Hk. apply elem_of_union in Hk as [Hk | Hk]; [| left; exact Hk].
          apply elem_of_singleton in Hk. right. auto.
      - destruct Hspec as [-> ->]. split; [auto |]. split; [reflexivity | auto]. }
    destruct Hstep as (Hinv1 & Hsub1 & Hproc1).
    split; [| split].
    + intros q Hq. destruct (Hinv q Hq) as [Hq1 | (Hin & Hi & Hl)].
      * destruct (Hinv1 q Hq1) as [Hq0 | (-> & Hi & Hl)]; [left; exact Hq0 |].
        right. split; [apply elem_of_cons; left; reflexivity | auto].
      * right. split; [apply elem_of_cons; right; exact Hin | auto].
    + etrans; eassumption.
    + intros k Hk. destruct (Hproc k Hk) as [Hk1 | (q & Hin & -> & Hi & Hl)].
      * destruct (Hproc1 k Hk1) as [Hk0 | (-> & Hi & Hl)]; [left; exact Hk0 |].
        right. exists p. split; [apply elem_of_cons; left; reflexivity | auto].
      * right. exists q. split; [apply elem_of_cons; right; exact Hin | auto].
Qed.

(** X12. The watcher has no dry run: for a path that passes the filters,
    still exists after the wait, gets a non-empty description and is not
    refused, [handle_file] renames the file. The actions are, in order:
    add to the set, wait, ask the collaborator, rename, write the
    comment. *)
Theorem handle_file_renames (wenv : WatchEnv) (file_path : Path) (self : Handler) (w : World)
    (c : char) (d : str) (e : Entry) :
  passes_filters self file_path = true ->
  during_sleep wenv (files w) !! file_path = Some e ->
  infer (pipeline_env wenv) = InferenceReturns (Some (c :: d)) ->
  rename_denied (pipeline_env wenv) = false ->
  exists self' w' new_path,
    handle_file wenv file_path (self, w) = Ok (self', w')
    /\ processed self' = {[ path_str file_path ]} ∪ processed self
    /\ target_path (pipeline_env wenv) file_path (c :: d) (during_sleep wenv (files w))
       = Ok new_path
    /\ files w' !! file_path = None
    /\ (exists e', files w' !! new_path = Some e' /\ content e' = content e
                   /\ entry_kind e' = entry_kind e)
    /\ effects w'
       = effects w ++ [Add (path_str file_path); Sleep; Analyze file_path;
                       Rename file_path new_path; Xattr new_path (c :: d)].
Proof.
  intros Hpass He Hinfer Hden.
  unfold passes_filters in Hpass. rewrite !andb_true_iff, !negb_true_iff in Hpass.
  destruct Hpass as [[Himg Hnew] Hlooks].
  set (w0 := with_files (during_sleep wenv (files w))
               (emit Sleep (emit (Add (path_str file_path)) w))).
  pose proof (rename_screenshot_cases (pipeline_env wenv) file_path false w0) as H.
  cbv zeta in H. unfold description_of in H. rewrite Hinfer in H.
  destruct H as (new_path & Htp & H).
  change (files w0) with (during_sleep wenv (files w)) in *.
  rewrite He, Hden in H.
  destruct (target_path_child _ _ _ _ _ Htp) as (Hfree & _ & _).
  apply path_exists_false in Hfree.
  assert (Hne : file_path <> new_path) by congruence.
  eexists _, _, new_path. split.
  { unfold handle_file. rewrite Himg, Hnew, Hlooks. cbn [negb]. cbv zeta.
    change (with_files (during_sleep wenv (files (emit (Add (path_str file_path)) w)))
              (emit Sleep (emit (Add (path_str file_path)) w))) with w0.
    change (files w0) with (during_sleep wenv (files w)).
    replace (path_exists (during_sleep wenv (files w)) file_path) with true
      by (symmetry; apply path_exists_dom, elem_of_dom; eauto).
    cbn [negb]. rewrite H. cbn [mbind result_bind snd]. reflexivity. }
  split; [reflexivity |]. split; [exact Htp |]. cbn [files effects].
  split; [| split].
  - rewrite moved_lookup by exact Hne.
    destruct (decide (file_path = new_path)); [congruence |].
    destruct (decide (file_path = file_path)); [reflexivity | congruence].
  - rewrite moved_lookup by exact Hne.
    destruct (decide (new_path = new_path)); [| congruence].
    eexists. split; [reflexivity |]. destruct (xattr_ok (pipeline_env wenv)); split; reflexivity.
  - unfold w0, with_files, emit. cbn [effects]. rewrite <- !app_assoc. reflexivity.
Qed.

(* ===================================================================== *)
(** * More about the batch driver *)
(* ===================================================================== *)






(* ===================================================================== *)
(** * The extension of the renamed file *)
(* ===================================================================== *)

Lemma image_extension_shape (e : str) :
  e ∈ IMAGE_EXTENSIONS ->
  exists rest, e = dot :: rest /\ rest <> [] /\ (dot ∉ rest) /\ py_lower e = e.
Proof.
  unfold IMAGE_EXTENSIONS. intros H.
  repeat (apply elem_of_cons in H as [-> | H]);
    [.. | apply not_elem_of_nil in H; contradiction];
    (eexists; split; [reflexivity |]; split; [discriminate |]; split; [| reflexivity];
     apply (bool_decide_unpack _); vm_compute; exact I).
Qed.

Lemma suffix_of_extension (pre rest : str) :
  pre <> [] -> dot ∉ rest -> rest <> [] ->
  has_suffix (pre ++ dot :: rest) = true
  /\ py_slice_from (pre ++ dot :: rest) (py_rfind dot (pre ++ dot :: rest)) = dot :: rest.
Proof.
  intros Hpre Hrest Hne. rewrite (py_rfind_at dot pre rest Hrest).
  destruct (py_slices_at pre dot rest) as [_ ->]. split; [| reflexivity].
  unfold has_suffix. rewrite (py_rfind_at dot pre rest Hrest).
  apply andb_true_iff. split; apply Z.ltb_lt.
  - unfold len. destruct pre; [congruence | cbn [length]; lia].
  - rewrite len_app. unfold len. destruct rest; [congruence | cbn [length]; lia].
Qed.

(** X16. A file with an image extension keeps it, in lower case, through
    the rename: the suffix of the target path is the lowered suffix of
    the file, with or without a collision number, so the target is an
    image for the filters as well. *)
Theorem target_path_keeps_extension (env : Env) (file_path : Path) (description : str)
    (fs : gmap Path Entry) (new_path : Path) :
  is_image file_path = true ->
  target_path env file_path description fs = Ok new_path ->
  suffix new_path = py_lower (suffix file_path) /\ is_image new_path = true.
Proof.
  intros Himg Htp. unfold is_image in Himg. apply bool_decide_eq_true in Himg.
  destruct (image_extension_shape _ Himg) as (rest & He & Hrne & Hrest & Hlow).
  destruct (sanitize_filename_ok description default_max_length) as (clean & Hc & _ & _).
  unfold target_path in Htp. rewrite Hc in Htp. cbn [mbind result_bind] in Htp.
  rewrite He in Htp.
  set (pre := strftime_ymd (today env) ++ [underscore] ++ clean) in *.
  assert (Hname : strftime_ymd (today env) ++ [underscore] ++ clean ++ dot :: rest
                  = pre ++ dot :: rest).
  { unfold pre. rewrite <- !app_assoc. reflexivity. }
  rewrite Hname in Htp.
  set (candidate := joinpath (parent file_path) (pre ++ dot :: rest)) in *.
  assert (Hpre : pre <> []).
  { unfold pre. destruct (strftime_ymd (today env)); discriminate. }
  destruct (suffix_of_extension pre rest Hpre Hrest Hrne) as [Hhas Hsuf].
  assert (Hcand : suffix candidate = dot :: rest).
  { unfold suffix, candidate. rewrite name_joinpath, Hhas. exact Hsuf. }
  assert (Hlast : last (name candidate) <> Some dot).
  { unfold candidate. rewrite name_joinpath.
    rewrite (last_app_nonempty pre (dot :: rest)) by discriminate.
    rewrite last_cons. destruct (last rest) as [x |] eqn:Hx; [| apply last_None in Hx; congruence].
    intros [= ->]. apply Hrest. apply last_Some in Hx as [l' ->].
    apply elem_of_app. right. apply list_elem_of_singleton. reflexivity. }
  assert (Hnew : suffix new_path = dot :: rest).
  { destruct (get_unique_path_total fs candidate) as (p & Hp & _ & Hcase).
    rewrite Hp in Htp. injection Htp as <-.
    destruct Hcase as [[-> _] | (_ & k & _ & -> & _)]; [exact Hcand |].
    destruct (numbered_resplit candidate k Hlast) as [-> _]. exact Hcand. }
  split; [rewrite Hnew, He; reflexivity |].
  unfold is_image. apply bool_decide_eq_true. rewrite Hnew, <- He, Hlow. exact Himg.
Qed.

(* ===================================================================== *)
(** * The key of the seen set *)
(* ===================================================================== *)

Lemma app_separator_inj (x y a b : str) :
  separator ∉ x -> separator ∉ y ->
  x ++ separator :: a = y ++ separator :: b -> x = y /\ a = b.
Proof.
  revert y. induction x as [|c x IH]; intros [|c' y] Hx Hy; cbn [app].
  - intros [= ->]. split; reflexivity.
  - intros [= <- _]. exfalso. apply Hy. apply elem_of_cons. left. reflexivity.
  - intros [= -> _]. exfalso. apply Hx. apply elem_of_cons. left. reflexivity.
  - intros [= -> H]. apply not_elem_of_cons in Hx as [_ Hx]. apply not_elem_of_cons in Hy as [_ Hy].
    destruct (IH y Hx Hy H) as [-> ->]. split; reflexivity.
Qed.

Lemma join_parts_cons (x y : str) (ps : list str) :
  join_parts (x :: y :: ps) = x ++ separator :: join_parts (y :: ps).
Proof. reflexivity. Qed.

(** The string of a non-empty list of components starts with a character
    of the first one, which is not the separator. *)
Lemma join_parts_head (x : str) (ps : list str) :
  component x -> exists c rest, join_parts (x :: ps) = c :: rest /\ c <> separator.
Proof.
  intros (Hne & _ & Hsep). destruct x as [|c x]; [congruence |].
  apply not_elem_of_cons in Hsep as [Hc _].
  destruct ps; [exists c, x | eexists c, _]; split; try reflexivity; congruence.
Qed.

Lemma join_parts_inj (xs ys : list str) :
  Forall component xs -> Forall component ys ->
  join_parts xs = join_parts ys -> xs = ys.
Proof.
  intros Hxs. revert ys. induction Hxs as [|x xs Hx Hxs IH]; intros ys Hys Heq.
  - destruct Hys as [|y ys Hy _]; [reflexivity |].
    destruct (join_parts_head y ys Hy) as (c & rest & Hj & _). rewrite Hj in Heq. discriminate.
  - destruct Hys as [|y ys Hy Hys].
    { destruct (join_parts_head x xs Hx) as (c & rest & Hj & _). rewrite Hj in Heq. discriminate. }
    pose proof Hx as (_ & _ & Hsx). pose proof Hy as (_ & _ & Hsy).
    destruct xs as [|x' xs], ys as [|y' ys].
    + cbn in Heq. congruence.
    + rewrite join_parts_cons in Heq. change (join_parts [x]) with x in Heq. exfalso. apply Hsx.
      rewrite Heq. apply elem_of_app. right. apply elem_of_cons. left. reflexivity.
    + rewrite join_parts_cons in Heq. change (join_parts [y]) with y in Heq. exfalso. apply Hsy.
      rewrite <- Heq. apply elem_of_app. right. apply elem_of_cons. left. reflexivity.
    + rewrite !join_parts_cons in Heq.
      destruct (app_separator_inj _ _ _ _ Hsx Hsy Heq) as [-> Hrest].
      f_equal. apply IH; assumption.
Qed.

Lemma join_parts_not_dot (xs : list str) :
  Forall component xs -> xs <> [] -> join_parts xs <> [dot].
Proof.
  intros Hxs Hne Heq. destruct Hxs as [|x xs (Hx & Hdot & Hsep) _]; [congruence |].
  destruct xs as [|y ys]; [cbn in Heq; congruence |].
  rewrite join_parts_cons in Heq.
  assert (Hin : separator ∈ [dot]).
  { rewrite <- Heq. apply elem_of_app. right. apply elem_of_cons. left. reflexivity. }
  apply list_elem_of_singleton in Hin. discriminate.
Qed.

(** X17. [str(path)], the key of the seen set, tells well-formed paths
    apart: two paths with the same string are the same path. *)
Theorem path_str_inj (p q : Path) :
  wf_path p -> wf_path q -> path_str p = path_str q -> p = q.
Proof.
  destruct p as [pa pp], q as [qa qp]. unfold wf_path, path_str. cbn [absolute parts].
  intros Hp Hq Heq.
  assert (Hrel : forall xs, Forall component xs ->
            exists c rest, (match xs with [] => [dot] | _ => join_parts xs end) = c :: rest
                           /\ c <> separator).
  { intros [|x xs] Hxs; [exists dot, []; split; [reflexivity | discriminate] |].
    apply Forall_cons in Hxs as [Hx _]. exact (join_parts_head x xs Hx). }
  destruct pa, qa.
  - injection Heq as Heq. f_equal. apply join_parts_inj; assumption.
  - exfalso. destruct (Hrel qp Hq) as (c & rest & Hj & Hc).
    destruct qp; rewrite Hj in Heq; injection Heq as Hsep _; apply Hc;
      first [exact Hsep | symmetry; exact Hsep].
  - exfalso. destruct (Hrel pp Hp) as (c & rest & Hj & Hc).
    destruct pp; rewrite Hj in Heq; injection Heq as Hsep _; apply Hc;
      first [exact Hsep | symmetry; exact Hsep].
  - f_equal. destruct pp as [|x xs], qp as [|y ys]; [reflexivity | | |].
    + exfalso. symmetry in Heq. revert Heq. apply join_parts_not_dot; [exact Hq | discriminate].
    + exfalso. revert Heq. apply join_parts_not_dot; [exact Hp | discriminate].
    + apply join_parts_inj; assumption.
Qed.

End Renamer.

(* ===================================================================== *)
(** * Closed instances *)
(* ===================================================================== *)

(** The specification's example of the pipeline: [shot.png], described as
    [Github pull request review] on 2024-05-01, is renamed to
    [2024-05-01_github-pull-request-review.png]: the call returns [True],
    the old path is gone and the new one exists. *)
Example rename_github_example :
  match rename_screenshot ascii_only_lower
          (answering (Some (lit "Github pull request review"))) shot false shots_world with
  | Ok (b, w') =>
      b && negb (path_exists (files w') shot)
      && path_exists (files w')
           (joinpath (parent shot) (lit "2024-05-01_github-pull-request-review.png"))
  | _ => false
  end = true.
Proof. vm_compute. reflexivity. Qed.

(** Twenty times [word-] is cut at a hyphen: twelve whole words stay. *)
Example truncate_words_example :
  sanitize_filename ascii_only_lower (concat (replicate 20 (lit "word-"))) 60
  = Ok (lit "word-word-word-word-word-word-word-word-word-word-word-word").
Proof. vm_compute. reflexivity. Qed.

(** A file deleted during the wait and created again under the same path
    is not processed in the same session: two events for [shot], the
    first one losing the file during the wait, run the pipeline never. *)
Example recreated_file_is_not_processed :
  match run_session ascii_only_lower ascii_only_decimal
          [ ({| during_sleep := fun _ => ∅; pipeline_env := failing |}, shot);
            ({| during_sleep := fun _ => {[ shot := plain_file ]}; pipeline_env := failing |},
             shot) ]
          ({| processed := ∅ |}, shots_world) with
  | Ok (_, w) => effects w
  | _ => []
  end = [Add (path_str shot); Sleep].
Proof. vm_compute. reflexivity. Qed.

(** C4, the example as the specification states it: the result is not
    [slack-dm-with-john]. *)
Lemma sanitize_slack_example_differs :
  sanitize_filename ascii_only_lower slack_example default_max_length
  <> Ok (lit "slack-dm-with-john").
Proof. intros H. vm_compute in H. discriminate. Qed.

(** C8, as the specification states it: for the empty text and
    [max_length] 5 the result is the fallback, of ten characters. *)
Lemma fallback_exceeds_max_length :
  sanitize_filename ascii_only_lower [] 5 = Ok fallback
  /\ ~ (len fallback <= 5).
Proof. split; [vm_compute; reflexivity | vm_compute; intros H; apply H; reflexivity]. Qed.

Lemma sanitize_filename_length_witness :
  0 <= 60
  /\ exists r, sanitize_filename ascii_only_lower slack_example 60 = Ok r
       /\ (r = fallback \/ len r <= 60)
       /\ (10 <= 60 -> len r <= 60).
Proof. split; [lia | apply sanitize_filename_length; lia]. Defined.

(** C9, as the specification states it. For the text [a] and
    [max_length] 0 the cut is empty and holds no hyphen, and the result
    is not the cut but the fallback. For the text [hello-world-foo] and
    [max_length] 11 the cut is [hello-world], two complete segments of
    the text, which goes on with a hyphen; the result is not the cut
    back to its last complete segment, [hello-world], but [hello]. *)
Lemma truncation_differs_from_claim :
  (len (sanitize_steps ascii_only_lower (lit "a")) > 0
   /\ (hyphen ∉ take (Z.to_nat 0) (sanitize_steps ascii_only_lower (lit "a")))
   /\ sanitize_filename ascii_only_lower (lit "a") 0 = Ok fallback
   /\ sanitize_filename ascii_only_lower (lit "a") 0
      <> Ok (take (Z.to_nat 0) (sanitize_steps ascii_only_lower (lit "a"))))
  /\ (sanitize_steps ascii_only_lower (lit "hello-world-foo")
      = lit "hello-world" ++ hyphen :: lit "foo"
      /\ len (sanitize_steps ascii_only_lower (lit "hello-world-foo")) > 11
      /\ take (Z.to_nat 11) (sanitize_steps ascii_only_lower (lit "hello-world-foo"))
         = lit "hello-world"
      /\ sanitize_filename ascii_only_lower (lit "hello-world-foo") 11 = Ok (lit "hello")
      /\ sanitize_filename ascii_only_lower (lit "hello-world-foo") 11
         <> Ok (lit "hello-world")).
Proof.
  split.
  - split; [vm_compute; reflexivity |]. split; [apply not_elem_of_nil |].
    split; [vm_compute; reflexivity |]. intros H. vm_compute in H. discriminate.
  - split; [vm_compute; reflexivity |]. split; [vm_compute; reflexivity |].
    split; [vm_compute; reflexivity |]. split; [vm_compute; reflexivity |].
    intros H. vm_compute in H. discriminate.
Qed.

(** Two hundred times [a] with [max_length] 60: sixty times [a]. *)
Lemma truncate_at_last_hyphen_witness :
  1 <= 60
  /\ len (sanitize_steps ascii_only_lower (replicate 200 (ch "a"))) > 60
  /\ sanitize_filename ascii_only_lower (replicate 200 (ch "a")) 60
     = Ok (replicate 60 (ch "a")).
Proof.
  assert (H1 : 1 <= 60) by lia.
  assert (H2 : len (sanitize_steps ascii_only_lower (replicate 200 (ch "a"))) > 60)
    by (vm_compute; reflexivity).
  split; [exact H1 |]. split; [exact H2 |].
  destruct (truncate_at_last_hyphen ascii_only_lower (replicate 200 (ch "a")) 60 H1 H2)
    as [Hplain _].
  rewrite Hplain; [vm_compute; reflexivity |].
  apply (bool_decide_unpack _). vm_compute. exact I.
Defined.

(** C6, as the specification states it: no file exists at a candidate
    whose name has 256 characters, and [get_unique_path] does not return
    the candidate: the system refuses the test and [OSError] is raised. *)
Lemma get_unique_path_raises_without_file :
  path_exists (∅ : gmap Path Entry) overlong = false
  /\ get_unique_path_os name_too_long ∅ overlong = Raise OSError
  /\ get_unique_path_os name_too_long ∅ overlong <> Ok overlong.
Proof.
  split; [vm_compute; reflexivity |]. split; [vm_compute; reflexivity |].
  intros H. vm_compute in H. discriminate.
Qed.

(** The dated name splits into [2024-05-01_login-page] and [.png]: free,
    it is returned as it is; taken together with [...-1.png], the result
    is [2024-05-01_login-page-2.png]. *)
Lemma get_unique_path_resolves_witness :
  splits_name (name dated) (lit "2024-05-01_login-page") (lit ".png")
  /\ exists_os nothing_refused ∅ dated = Ok false
  /\ get_unique_path_os nothing_refused ∅ dated = Ok dated
  /\ exists_os nothing_refused login_pages dated = Ok true
  /\ exists_os nothing_refused login_pages dated_1 = Ok true
  /\ exists_os nothing_refused login_pages dated_2 = Ok false
  /\ get_unique_path_os nothing_refused login_pages dated = Ok dated_2.
Proof.
  assert (Hs : splits_name (name dated) (lit "2024-05-01_login-page") (lit ".png")).
  { apply (split_at_dot (lit "2024-05-01_login-page") (lit "png")); try discriminate.
    apply (bool_decide_unpack _). vm_compute. exact I. }
  assert (H0 : exists_os nothing_refused ∅ dated = Ok false) by (vm_compute; reflexivity).
  assert (Hb : exists_os nothing_refused login_pages dated = Ok true)
    by (vm_compute; reflexivity).
  assert (H1 : exists_os nothing_refused login_pages dated_1 = Ok true)
    by (vm_compute; reflexivity).
  assert (H2 : exists_os nothing_refused login_pages dated_2 = Ok false)
    by (vm_compute; reflexivity).
  destruct (get_unique_path_resolves nothing_refused ∅ dated _ _ Hs) as [Hfree _].
  destruct (get_unique_path_resolves nothing_refused login_pages dated _ _ Hs)
    as (_ & Hsecond & _).
  exact (conj Hs (conj H0 (conj (Hfree H0) (conj Hb (conj H1 (conj H2 (Hsecond Hb H1 H2))))))).
Defined.

(** C10, as the claim states it. The candidate [foo.] exists; the
    returned path is [foo.-1], whose suffix is [.-1] and whose stem is
    [foo], while the candidate has no suffix and the stem [foo.]. And a
    candidate of 254 characters exists; the test of its [-1] variant, of
    256 characters, is refused, and no path is returned: [OSError] is
    raised. *)
Lemma trailing_dot_changes_suffix :
  (get_unique_path_os nothing_refused trailing_dot_taken trailing_dot
   = Ok {| absolute := false; parts := [lit "foo.-1"] |}
   /\ suffix {| absolute := false; parts := [lit "foo.-1"] |} = lit ".-1"
   /\ suffix trailing_dot = []
   /\ stem {| absolute := false; parts := [lit "foo.-1"] |} = lit "foo"
   /\ stem trailing_dot = lit "foo."
   /\ suffix {| absolute := false; parts := [lit "foo.-1"] |} <> suffix trailing_dot)
  /\ (exists_os name_too_long long_name_taken long_name = Ok true
      /\ name_too_long (numbered long_name 1) = true
      /\ get_unique_path_os name_too_long long_name_taken long_name = Raise OSError).
Proof.
  split.
  - split; [vm_compute; reflexivity |]. split; [vm_compute; reflexivity |].
    split; [vm_compute; reflexivity |]. split; [vm_compute; reflexivity |].
    split; [vm_compute; reflexivity |].
    intros H. vm_compute in H. discriminate.
  - split; [vm_compute; reflexivity |]. split; vm_compute; reflexivity.
Qed.

Lemma get_unique_path_shape_witness :
  last (name dated) <> Some dot
  /\ get_unique_path_os nothing_refused login_pages dated = Ok dated_2
  /\ exists_os nothing_refused login_pages dated_2 = Ok false
  /\ parent dated_2 = parent dated
  /\ suffix dated_2 = suffix dated.
Proof.
  assert (Hlast : last (name dated) <> Some dot) by (vm_compute; discriminate).
  assert (Hp : get_unique_path_os nothing_refused login_pages dated = Ok dated_2)
    by (vm_compute; reflexivity).
  destruct (get_unique_path_shape nothing_refused login_pages dated) as (_ & _ & Hshape).
  destruct (Hshape dated_2 Hp) as (Hfree & Hparent & _ & Hsplit).
  exact (conj Hlast (conj Hp (conj Hfree (conj Hparent (proj1 (Hsplit Hlast)))))).
Defined.

Lemma processed_names_are_skipped_witness :
  valid_date (today (answering (Some (lit "Login page")))) = true
  /\ exists p,
       target_path ascii_only_lower (answering (Some (lit "Login page"))) shot
         (lit "Login page") taken_twice = Ok p
       /\ looks_processed ascii_only_decimal (name p) = true
       /\ (forall fs folder, p ∉ list_images ascii_only_lower ascii_only_decimal fs folder).
Proof.
  assert (Hdate : valid_date (today (answering (Some (lit "Login page")))) = true)
    by (vm_compute; reflexivity).
  split; [exact Hdate |].
  destruct (processed_names_are_skipped ascii_only_lower ascii_only_decimal
              (answering (Some (lit "Login page"))) shot (lit "Login page") taken_twice Hdate)
    as [(clean & p & rest & _ & Hp & _ & Hlooks & _ & _ & Hbatch) _].
  exists p. split; [exact Hp |]. split; [exact Hlooks | exact Hbatch].
Defined.

Lemma inference_failure_leaves_file_witness :
  (infer failing = InferenceRaises
   \/ infer failing = InferenceReturns (Some [])
   \/ infer failing = InferenceReturns None)
  /\ exists w', rename_screenshot ascii_only_lower failing shot false shots_world = Ok (false, w')
       /\ files w' = files shots_world
       /\ effects w' = effects shots_world ++ [Analyze shot].
Proof.
  assert (H : infer failing = InferenceRaises
              \/ infer failing = InferenceReturns (Some [])
              \/ infer failing = InferenceReturns None) by (left; reflexivity).
  split; [exact H |].
  exact (inference_failure_leaves_file ascii_only_lower failing shot false shots_world H).
Defined.

(** C7, as the specification states it: a file whose suffix has 251
    characters, described as [Login page]. The dated name has 272
    characters, the system refuses its existence test, and the dry run
    does not return [True]: the [OSError] leaves it. *)
Lemma dry_run_raises_on_long_name :
  infer (answering (Some (lit "Login page"))) = InferenceReturns (Some (lit "Login page"))
  /\ exists_os name_too_long (files long_suffix_world) long_suffix = Ok true
  /\ (rename_screenshot_os ascii_only_lower name_too_long (answering (Some (lit "Login page")))
        long_suffix true long_suffix_world).1
     = Raise OSError.
Proof. split; [reflexivity |]. split; vm_compute; reflexivity. Qed.

Lemma dry_run_changes_nothing_witness :
  infer (answering (Some (lit "Login page")))
  = InferenceReturns (Some (ch "L" :: lit "ogin page"))
  /\ exists w', rename_screenshot_os ascii_only_lower nothing_refused
                  (answering (Some (lit "Login page"))) shot true shots_world = (Ok true, w')
       /\ files w' = files shots_world
       /\ effects w' = effects shots_world ++ [Analyze shot].
Proof.
  assert (H : infer (answering (Some (lit "Login page")))
              = InferenceReturns (Some (ch "L" :: lit "ogin page"))) by reflexivity.
  split; [exact H |].
  destruct (dry_run_changes_nothing ascii_only_lower nothing_refused
              (answering (Some (lit "Login page"))) shot shots_world (ch "L") (lit "ogin page") H)
    as (out & w' & Hr & Hfiles & Heff & _ & _ & Hnone).
  exists w'. rewrite (Hnone (fun _ => eq_refl)) in Hr.
  exact (conj Hr (conj Hfiles Heff)).
Defined.

(* ===================================================================== *)
(** * Closed instances of the further properties *)
(* ===================================================================== *)

Lemma sanitize_filename_keeps_stems_witness :
  matches stem_re (lit "login-page")
  /\ len (lit "login-page") <= 60
  /\ sanitize_filename ascii_only_lower (lit "login-page") 60 = Ok (lit "login-page").
Proof.
  assert (Hm : matches stem_re (lit "login-page")).
  { apply hyphenated_matches; try discriminate.
    split; [| reflexivity].
    apply List.Forall_forall, (List.forallb_forall is_stem_char (lit "login-page")). reflexivity. }
  assert (Hl : len (lit "login-page") <= 60) by (vm_compute; discriminate).
  exact (conj Hm (conj Hl (sanitize_filename_keeps_stems ascii_only_lower _ _ Hm Hl))).
Defined.

Lemma sanitize_filename_idempotent_witness :
  10 <= 60
  /\ sanitize_filename ascii_only_lower slack_example 60
     = Ok (lit "the-filename-is-slack-dm-with-john")
  /\ sanitize_filename ascii_only_lower (lit "the-filename-is-slack-dm-with-john") 60
     = Ok (lit "the-filename-is-slack-dm-with-john").
Proof.
  assert (H10 : 10 <= 60) by lia.
  assert (Hr : sanitize_filename ascii_only_lower slack_example 60
               = Ok (lit "the-filename-is-slack-dm-with-john")) by (vm_compute; reflexivity).
  exact (conj H10 (conj Hr (sanitize_filename_idempotent ascii_only_lower _ _ _ H10 Hr))).
Defined.

Lemma sanitize_filename_without_alnum_witness :
  Forall (fun c => is_ascii c = true /\ is_alnum (ascii_lower c) = false) (lit " ?!_ -- ")
  /\ sanitize_filename ascii_only_lower (lit " ?!_ -- ") 60 = Ok fallback.
Proof.
  assert (H : Forall (fun c => is_ascii c = true /\ is_alnum (ascii_lower c) = false)
                (lit " ?!_ -- ")) by (repeat constructor).
  exact (conj H (sanitize_filename_without_alnum ascii_only_lower _ 60 H)).
Defined.

Lemma get_unique_path_local_witness :
  path_exists taken_twice dated = path_exists (<[shot := plain_file]> taken_twice) dated
  /\ (forall k, path_exists taken_twice (numbered dated k)
                = path_exists (<[shot := plain_file]> taken_twice) (numbered dated k))
  /\ get_unique_path taken_twice dated
     = get_unique_path (<[shot := plain_file]> taken_twice) dated.
Proof.
  assert (H1 : path_exists taken_twice dated
               = path_exists (<[shot := plain_file]> taken_twice) dated)
    by (vm_compute; reflexivity).
  assert (H2 : forall k, path_exists taken_twice (numbered dated k)
                         = path_exists (<[shot := plain_file]> taken_twice) (numbered dated k)).
  { intros k. rewrite path_exists_insert.
    destruct (decide (shot = numbered dated k)) as [Heq |]; [| reflexivity].
    apply (f_equal name) in Heq. unfold numbered in Heq. rewrite name_joinpath in Heq.
    replace (stem dated) with (lit "2024-05-01_login-page") in Heq by (vm_compute; reflexivity).
    discriminate. }
  exact (conj H1 (conj H2 (get_unique_path_local _ _ _ H1 H2))).
Defined.

Lemma get_unique_path_next_witness :
  get_unique_path_os nothing_refused login_pages dated = Ok dated_2
  /\ get_unique_path_os nothing_refused (<[dated_2 := plain_file]> login_pages) dated
     = Ok dated_3
  /\ dated_3 <> dated_2
  /\ path_exists login_pages dated_3 = false.
Proof.
  assert (H : get_unique_path_os nothing_refused login_pages dated = Ok dated_2)
    by (vm_compute; reflexivity).
  assert (H' : get_unique_path_os nothing_refused (<[dated_2 := plain_file]> login_pages) dated
               = Ok dated_3) by (vm_compute; reflexivity).
  destruct (get_unique_path_next nothing_refused nothing_refused login_pages dated dated_2
              plain_file H) as [_ Hnext].
  destruct (Hnext dated_3 H') as (Hne & Hfree & _).
  exact (conj H (conj H' (conj Hne Hfree))).
Defined.

(** The batch driver on the folder of the examples: in a dry run the
    pipeline runs on the fresh screenshot, not on the dated file, and no
    file changes; on a folder that does not exist the listing raises. *)
Example process_existing_example :
  match process_existing ascii_only_lower ascii_only_decimal nothing_refused
          (fun _ => answering (Some (lit "Login page"))) shots true batch_world with
  | (Ok tt, w') =>
      bool_decide (invocations (effects w') = [shot])
      && bool_decide (length (effects w') = 1%nat)
      && bool_decide (dom (files w') = dom (files batch_world))
  | _ => false
  end = true
  /\ (process_existing ascii_only_lower ascii_only_decimal nothing_refused
        (fun _ => answering (Some (lit "Login page")))
        {| absolute := false; parts := [lit "nowhere"] |} true batch_world).1
     = Raise OSError.
Proof. split; vm_compute; reflexivity. Qed.

Lemma rename_screenshot_moves_witness :
  infer (answering (Some (lit "Login page")))
  = InferenceReturns (Some (ch "L" :: lit "ogin page"))
  /\ files shots_world !! shot = Some plain_file
  /\ rename_denied (answering (Some (lit "Login page"))) = false
  /\ exists new_path w',
       rename_screenshot ascii_only_lower (answering (Some (lit "Login page")))
         shot false shots_world = Ok (true, w')
       /\ files w' !! shot = None
       /\ is_Some (files w' !! new_path).
Proof.
  assert (H1 : infer (answering (Some (lit "Login page")))
               = InferenceReturns (Some (ch "L" :: lit "ogin page"))) by reflexivity.
  assert (H2 : files shots_world !! shot = Some plain_file) by (vm_compute; reflexivity).
  assert (H3 : rename_denied (answering (Some (lit "Login page"))) = false) by reflexivity.
  split; [exact H1 |]. split; [exact H2 |]. split; [exact H3 |].
  destruct (rename_screenshot_moves ascii_only_lower _ shot shots_world _ _ _ H1 H2 H3)
    as (new_path & w' & Hr & _ & _ & _ & _ & Hgone & Hnew & _).
  exists new_path, w'. split; [exact Hr |]. split; [exact Hgone |]. rewrite Hnew. eauto.
Defined.

(** The creation of [shot], an event for another file, then the
    modification of [shot]. *)
Lemma created_then_modified_witness :
  is_directory {| is_directory := false; src_path := shot |} = false
  /\ dispatch ascii_only_lower ascii_only_decimal
       {| during_sleep := fun fs => fs; pipeline_env := failing |} Created
       {| is_directory := false; src_path := shot |}
       ({| processed := ∅ |}, shots_world)
     = Ok ({| processed := {[ path_str shot ]} ∪ ∅ |},
           {| files := files shots_world;
              effects := [Add (path_str shot); Sleep; Analyze shot] |})
  /\ run_events ascii_only_lower ascii_only_decimal
       [ ({| during_sleep := fun fs => fs; pipeline_env := failing |}, Modified,
          {| is_directory := false; src_path := dated |}) ]
       ({| processed := {[ path_str shot ]} ∪ ∅ |},
        {| files := files shots_world;
           effects := [Add (path_str shot); Sleep; Analyze shot] |})
     = Ok ({| processed := {[ path_str shot ]} ∪ ∅ |},
           {| files := files shots_world;
              effects := [Add (path_str shot); Sleep; Analyze shot] |})
  /\ dispatch ascii_only_lower ascii_only_decimal
       {| during_sleep := fun fs => fs; pipeline_env := answering (Some (lit "Login page")) |}
       Modified {| is_directory := false; src_path := shot |}
       ({| processed := {[ path_str shot ]} ∪ ∅ |},
        {| files := files shots_world;
           effects := [Add (path_str shot); Sleep; Analyze shot] |})
     = Ok ({| processed := {[ path_str shot ]} ∪ ∅ |},
           {| files := files shots_world;
              effects := [Add (path_str shot); Sleep; Analyze shot] |}).
Proof.
  assert (H0 : is_directory {| is_directory := false; src_path := shot |} = false)
    by reflexivity.
  assert (H1 : dispatch ascii_only_lower ascii_only_decimal
                 {| during_sleep := fun fs => fs; pipeline_env := failing |} Created
                 {| is_directory := false; src_path := shot |}
                 ({| processed := ∅ |}, shots_world)
               = Ok ({| processed := {[ path_str shot ]} ∪ ∅ |},
                     {| files := files shots_world;
                        effects := [Add (path_str shot); Sleep; Analyze shot] |}))
    by (vm_compute; reflexivity).
  assert (H2 : run_events ascii_only_lower ascii_only_decimal
                 [ ({| during_sleep := fun fs => fs; pipeline_env := failing |}, Modified,
                    {| is_directory := false; src_path := dated |}) ]
                 ({| processed := {[ path_str shot ]} ∪ ∅ |},
                  {| files := files shots_world;
                     effects := [Add (path_str shot); Sleep; Analyze shot] |})
               = Ok ({| processed := {[ path_str shot ]} ∪ ∅ |},
                     {| files := files shots_world;
                        effects := [Add (path_str shot); Sleep; Analyze shot] |}))
    by (vm_compute; reflexivity).
  exact (conj H0 (conj H1 (conj H2
           (created_then_modified ascii_only_lower ascii_only_decimal _ _ _ _ _ _ _ H0 H1 H2
              {| during_sleep := fun fs => fs;
                 pipeline_env := answering (Some (lit "Login page")) |}
              Modified {| is_directory := false; src_path := shot |} eq_refl)))).
Defined.

Lemma session_runs_on_fresh_images_witness :
  run_session ascii_only_lower ascii_only_decimal
    [ ({| during_sleep := fun fs => fs; pipeline_env := failing |}, shot);
      ({| during_sleep := fun fs => fs; pipeline_env := failing |}, dated) ]
    ({| processed := ∅ |}, shots_world)
  = Ok ({| processed := {[ path_str shot ]} ∪ ∅ |},
        {| files := files shots_world;
           effects := [Add (path_str shot); Sleep; Analyze shot] |})
  /\ forall q, q ∈ invocations [Add (path_str shot); Sleep; Analyze shot] ->
       q ∈ invocations (effects shots_world)
       \/ (q ∈ [shot; dated] /\ is_image ascii_only_lower q = true
           /\ looks_processed ascii_only_decimal (name q) = false).
Proof.
  assert (H : run_session ascii_only_lower ascii_only_decimal
                [ ({| during_sleep := fun fs => fs; pipeline_env := failing |}, shot);
                  ({| during_sleep := fun fs => fs; pipeline_env := failing |}, dated) ]
                ({| processed := ∅ |}, shots_world)
              = Ok ({| processed := {[ path_str shot ]} ∪ ∅ |},
                    {| files := files shots_world;
                       effects := [Add (path_str shot); Sleep; Analyze shot] |}))
    by (vm_compute; reflexivity).
  split; [exact H |].
  exact (proj1 (session_runs_on_fresh_images ascii_only_lower ascii_only_decimal _ _ _ H)).
Defined.

Lemma handle_file_renames_witness :
  passes_filters ascii_only_lower ascii_only_decimal {| processed := ∅ |} shot = true
  /\ files shots_world !! shot = Some plain_file
  /\ exists self' w' new_path,
       handle_file ascii_only_lower ascii_only_decimal
         {| during_sleep := fun fs => fs; pipeline_env := answering (Some (lit "Login page")) |}
         shot ({| processed := ∅ |}, shots_world) = Ok (self', w')
       /\ files w' !! shot = None
       /\ is_Some (files w' !! new_path).
Proof.
  assert (H1 : passes_filters ascii_only_lower ascii_only_decimal {| processed := ∅ |} shot = true)
    by (vm_compute; reflexivity).
  assert (H2 : files shots_world !! shot = Some plain_file) by (vm_compute; reflexivity).
  split; [exact H1 |]. split; [exact H2 |].
  destruct (handle_file_renames ascii_only_lower ascii_only_decimal
              {| during_sleep := fun fs => fs;
                 pipeline_env := answering (Some (lit "Login page")) |}
              shot {| processed := ∅ |} shots_world (ch "L") (lit "ogin page") plain_file
              H1 H2 eq_refl eq_refl)
    as (self' & w' & new_path & Hh & _ & _ & Hgone & (e' & He' & _) & _).
  exists self', w', new_path. split; [exact Hh |]. split; [exact Hgone |]. eauto.
Defined.

Lemma target_path_keeps_extension_witness :
  is_image ascii_only_lower shot = true
  /\ target_path ascii_only_lower (answering (Some (lit "Login page"))) shot
       (lit "Login page") taken_twice = Ok (numbered dated 2)
  /\ suffix (numbered dated 2) = py_lower ascii_only_lower (suffix shot)
  /\ is_image ascii_only_lower (numbered dated 2) = true.
Proof.
  assert (H1 : is_image ascii_only_lower shot = true) by (vm_compute; reflexivity).
  assert (H2 : target_path ascii_only_lower (answering (Some (lit "Login page"))) shot
                 (lit "Login page") taken_twice = Ok (numbered dated 2))
    by (vm_compute; reflexivity).
  exact (conj H1 (conj H2 (target_path_keeps_extension ascii_only_lower _ _ _ _ _ H1 H2))).
Defined.

Lemma path_str_inj_witness :
  wf_path shot /\ path_str shot = path_str shot /\ shot = shot.
Proof.
  assert (H : wf_path shot).
  { unfold wf_path, shot. cbn [parts].
    repeat constructor; try discriminate; apply (bool_decide_unpack _); vm_compute; exact I. }
  exact (conj H (conj eq_refl (path_str_inj shot shot H H eq_refl))).
Defined.
